(** * Session PDF merger and rename utility: model and verified properties

    A shallow embedding of [merge_files.py] and [rename_files.py].

    - File names are strings over code points below 256 (Rocq's [ascii]).
      On these, the regular-expression class [\d] is [0-9] and
      [re.IGNORECASE] is the folding of [A-Z] onto [a-z] (the Latin-1
      capitals fold as well, but no pattern letter is one of them).
    - Regular expressions are embedded as backtracking matchers that return
      the list of all ways to match a prefix of the input, in the order in
      which Python's engine tries them; [re.match] takes the first one.
    - A Python [dict] is an association list in insertion order.
    - Exceptions are an error monad; the uncaught ones end the process.
    - A PDF is the list of its pages; [PdfReader] either raises or yields
      that list.
    - The output file and the console belong to the environment of the
      script: [open("merged.pdf", "wb")] succeeds or raises and leaves the
      file as it was, [out.write] writes the whole document or raises and
      leaves a part of it, and a [print] raises when [sys.stdout] cannot
      encode its message.  What the console shows is not modelled. *)

From Stdlib Require Import String Ascii List ZArith Bool Arith Lia.
From Stdlib Require Import Sorted Permutation.
Import ListNotations.

Local Open Scope string_scope.
Local Open Scope list_scope.
(* [++] is list append by default; string append is written [(_ ++ _)%string]
   outside the modules that open [string_scope] last. *)

(* ================================================================= *)
(** ** Strings *)

Module Str.

Definition is_digit (c : ascii) : bool :=
  let n := nat_of_ascii c in (48 <=? n)%nat && (n <=? 57)%nat.

(** [str.lower] on one code point below 256. *)
Definition lower_char (c : ascii) : ascii :=
  let n := nat_of_ascii c in
  if ((65 <=? n) && (n <=? 90))%nat then ascii_of_nat (n + 32)
  else if ((192 <=? n) && (n <=? 222) && negb (n =? 215))%nat
       then ascii_of_nat (n + 32)
  else c.

Fixpoint lower (s : string) : string :=
  match s with
  | EmptyString => EmptyString
  | String c s' => String (lower_char c) (lower s')
  end.

Fixpoint all (f : ascii -> bool) (s : string) : bool :=
  match s with
  | EmptyString => true
  | String c s' => f c && all f s'
  end.

(** Equality up to letter case. *)
Definition eq_ci (a b : string) : Prop := lower a = lower b.

(** [s.endswith(suffix)] *)
Fixpoint endswith (s suffix : string) : bool :=
  if String.eqb s suffix then true
  else match s with
       | EmptyString => false
       | String _ s' => endswith s' suffix
       end.

(** [sub in s] *)
Fixpoint contains (s sub : string) : bool :=
  if prefix sub s then true
  else match s with
       | EmptyString => false
       | String _ s' => contains s' sub
       end.

(** [s.split(sep)] for a one-character separator. *)
Fixpoint split (sep : ascii) (s : string) : list string :=
  match s with
  | EmptyString => [EmptyString]
  | String c s' =>
      if Ascii.eqb c sep then EmptyString :: split sep s'
      else match split sep s' with
           | [] => [String c EmptyString]
           | w :: ws => String c w :: ws
           end
  end.

(** [int(s)] on a non-empty string of decimal digits; Python accepts a few
    more spellings (sign, blanks, underscores), which no session id has:
    they are [None] here, like the strings on which [int] raises. *)
Fixpoint int_acc (acc : Z) (s : string) : Z :=
  match s with
  | EmptyString => acc
  | String c s' => int_acc (10 * acc + Z.of_nat (nat_of_ascii c - 48)) s'
  end.

Definition int (s : string) : option Z :=
  match s with
  | EmptyString => None
  | _ => if all is_digit s then Some (int_acc 0 s) else None
  end.

End Str.

(* ================================================================= *)
(** ** Regular expressions as backtracking matchers *)

Module Re.

Local Open Scope string_scope.

(** A matcher yields every (value, remaining input) it can produce on a
    prefix of the input, in the engine's order of preference. *)
Definition t (A : Type) : Type := string -> list (A * string).

Definition ret {A} (a : A) : t A := fun s => [(a, s)].

Definition bind {A B} (p : t A) (f : A -> t B) : t B :=
  fun s => flat_map (fun ar => f (fst ar) (snd ar)) (p s).

Definition alt {A} (p q : t A) : t A := fun s => (p s ++ q s)%list.

(** One character of a class. *)
Definition one (f : ascii -> bool) : t string :=
  fun s => match s with
           | String c s' => if f c then [(String c EmptyString, s')] else []
           | EmptyString => []
           end.

(** A literal character, under [re.IGNORECASE] when [ic] is set. *)
Definition chr (ic : bool) (c : ascii) : t string :=
  one (fun x => if ic then Ascii.eqb (Str.lower_char x) (Str.lower_char c)
                else Ascii.eqb x c).

(** [\d] *)
Definition digit : t string := one Str.is_digit.

(** [.] (without [re.DOTALL]): any character but a newline. *)
Definition dot : t string := one (fun x => negb (Ascii.eqb x "010"%char)).

Definition cat (p q : t string) : t string :=
  bind p (fun a => bind q (fun b => ret (a ++ b))).

(** A literal string. *)
Fixpoint lit (ic : bool) (w : string) : t string :=
  match w with
  | EmptyString => ret EmptyString
  | String c w' => cat (chr ic c) (lit ic w')
  end.

Definition cons_match (c : ascii) (ar : string * string) : string * string :=
  (String c (fst ar), snd ar).

(** [C+] for a character class [C], greedy: longest first. *)
Fixpoint plus (f : ascii -> bool) (s : string) : list (string * string) :=
  match s with
  | String c s' =>
      if f c
      then (map (cons_match c) (plus f s') ++ [(String c EmptyString, s')])%list
      else []
  | EmptyString => []
  end.

(** [C*?] for a character class [C], lazy: shortest first. *)
Fixpoint lazy_star (f : ascii -> bool) (s : string) : list (string * string) :=
  (EmptyString, s) ::
  match s with
  | String c s' => if f c then map (cons_match c) (lazy_star f s') else []
  | EmptyString => []
  end.

(** [pattern.match(s)]: the first way to match at the start of [s]. *)
Definition match_ {A} (p : t A) (s : string) : option A :=
  match p s with
  | [] => None
  | (a, _) :: _ => Some a
  end.

(** The first match at the start of [s], with the input left after it. *)
Definition match_end {A} (p : t A) (s : string) : option (A * string) :=
  match p s with
  | [] => None
  | ar :: _ => Some ar
  end.

(** [re.sub(p, repl, s)] where every match of [p] is non-empty and the
    value of [p] is the expansion of the replacement template: scan from
    the left; at a position where [p] matches, emit the replacement and go
    on after the match, otherwise copy one character.  [fuel] bounds the
    number of steps, and [String.length s] steps always suffice. *)
Fixpoint sub_fuel (fuel : nat) (p : t string) (s : string) : string :=
  match fuel with
  | O => s
  | S fuel' =>
      match match_end p s with
      | Some (repl, rest) => repl ++ sub_fuel fuel' p rest
      | None =>
          match s with
          | EmptyString => EmptyString
          | String c s' => String c (sub_fuel fuel' p s')
          end
      end
  end.

Definition sub (p : t string) (s : string) : string :=
  sub_fuel (S (String.length s)) p s.

End Re.

Declare Scope re_scope.
Delimit Scope re_scope with re.
Notation "x <- p ;; q" := (Re.bind p (fun x => q))
  (at level 61, p at next level, right associativity) : re_scope.

(* ================================================================= *)
(** ** merge_files.py, step 1: the file-name pattern *)

(** [re.compile(r"Ses(\d+\.\d+)(sum|prob)\.pdf", re.IGNORECASE)]; the value
    is [m.groups()]. *)
Definition pattern : Re.t (string * string) :=
  (_  <- Re.lit true "Ses" ;;
   g1 <- Re.cat (Re.plus Str.is_digit)
           (Re.cat (Re.chr true ".") (Re.plus Str.is_digit)) ;;
   g2 <- Re.alt (Re.lit true "sum") (Re.lit true "prob") ;;
   _  <- Re.lit true ".pdf" ;;
   Re.ret (g1, g2))%re.

(* ================================================================= *)
(** ** Python dictionaries, in insertion order *)

Module Dict.
Definition t (V : Type) : Type := list (string * V).

Section Dict.
Context {V : Type}.

(** [d.get(k)] *)
Fixpoint get (d : t V) (k : string) : option V :=
  match d with
  | [] => None
  | (k', v) :: d' => if String.eqb k' k then Some v else get d' k
  end.

(** [d[k] = v]: an existing key keeps its place, a new one goes last. *)
Fixpoint set (d : t V) (k : string) (v : V) : t V :=
  match d with
  | [] => [(k, v)]
  | (k', v') :: d' =>
      if String.eqb k' k then (k', v) :: d' else (k', v') :: set d' k v
  end.

(** [d.keys()] *)
Definition keys (d : t V) : list string := map fst d.

(** [k in d] *)
Definition mem (d : t V) (k : string) : bool :=
  match get d k with Some _ => true | None => false end.

(** [d.update(e)] *)
Definition update (d e : t V) : t V :=
  fold_left (fun acc kv => set acc (fst kv) (snd kv)) e d.

(** [del d[k]] (every binding of [k], should there be several) *)
Fixpoint remove (d : t V) (k : string) : t V :=
  match d with
  | [] => []
  | (k', v) :: d' =>
      if String.eqb k' k then remove d' k else (k', v) :: remove d' k
  end.

(** the value that [d.setdefault(k, dflt)] returns *)
Definition get_default (d : t V) (k : string) (dflt : V) : V :=
  match get d k with Some v => v | None => dflt end.
End Dict.
End Dict.

(* ================================================================= *)
(** ** Exceptions *)

Inductive exn : Type :=
| SystemExit (code : Z)
| PdfReadError (path : string)   (* what reading the PDF at [path] raises when it cannot be read *)
| ValueError
| KeyError
| IndexError
| FileNotFoundError
| UnicodeEncodeError             (* raised by [print] on a message that [sys.stdout] cannot encode *)
| OSError                        (* raised by [open(out_path, "wb")] *)
| WriteError.                    (* whatever [out.write(fo)] raises part-way *)

Inductive result (A : Type) : Type :=
| Ok (a : A)
| Raise (e : exn).

Arguments Ok {A} a.
Arguments Raise {A} e.

Definition rbind {A B} (r : result A) (k : A -> result B) : result B :=
  match r with
  | Ok a => k a
  | Raise e => Raise e
  end.

Definition of_option {A} (o : option A) (e : exn) : result A :=
  match o with
  | Some a => Ok a
  | None => Raise e
  end.

Declare Scope result_scope.
Delimit Scope result_scope with res.
Notation "x <- r ;; k" := (rbind r (fun x => k))
  (at level 61, r at next level, right associativity) : result_scope.

(** [for x in l: s = body(x, s)], stopping at the first exception. *)
Fixpoint for_each {A S} (body : A -> S -> result S) (l : list A) (s : S)
  : result S :=
  match l with
  | [] => Ok s
  | x :: l' =>
      match body x s with
      | Ok s' => for_each body l' s'
      | Raise e => Raise e
      end
  end.

(** [[f(x) for x in l]] *)
Fixpoint map_result {A B} (f : A -> result B) (l : list A) : result (list B) :=
  match l with
  | [] => Ok []
  | x :: l' =>
      (y <- f x ;; ys <- map_result f l' ;; Ok (y :: ys))%res
  end.

(** The status with which the interpreter ends the process. *)
Definition exit_status {A} (r : result A) : Z :=
  match r with
  | Ok _ => 0
  | Raise (SystemExit code) => code
  | Raise _ => 1
  end.

(* ================================================================= *)
(** ** [sorted(l, key=...)] *)

Module Sort.

(** [a < b] on lists of integers: the first differing position decides,
    a proper prefix is smaller. *)
Fixpoint list_lt (a b : list Z) : bool :=
  match a, b with
  | [], [] => false
  | [], _ :: _ => true
  | _ :: _, [] => false
  | x :: a', y :: b' =>
      if (x =? y)%Z then list_lt a' b' else (x <? y)%Z
  end.

(** [a <= b]: not [b < a]. *)
Definition list_le (a b : list Z) : Prop := list_lt b a = false.

Section Sorted.
Context {A : Type}.

(** The order of the decorated elements. *)
Definition dec_le (x y : list Z * A) : Prop := list_le (fst x) (fst y).

(** Stable insertion of a decorated element behind the elements that
    are not greater. *)
Fixpoint insert (x : list Z * A) (l : list (list Z * A)) : list (list Z * A) :=
  match l with
  | [] => [x]
  | y :: l' =>
      if list_lt (fst y) (fst x) then y :: insert x l'
      else x :: y :: l'
  end.

Definition sort (l : list (list Z * A)) : list (list Z * A) :=
  fold_right insert [] l.

(** [sorted] computes every key once, then sorts stably on the keys; the
    result of a stable sort does not depend on the algorithm. *)
Definition sorted (key : A -> result (list Z)) (l : list A) : result (list A) :=
  (ks <- map_result key l ;;
   Ok (map snd (sort (combine ks l))))%res.
End Sorted.

End Sort.

(** [lambda s: [int(x) for x in s.split(".")]] *)
Definition session_key (s : string) : result (list Z) :=
  map_result (fun x => of_option (Str.int x) ValueError) (Str.split "." s).

(* ================================================================= *)
(** ** merge_files.py *)

(** [os.path.join(folder, f)] for a directory entry [f]. *)
Definition path_join (folder f : string) : string :=
  (folder ++ "/" ++ f)%string.

(** The messages of the script that hold a symbol outside ASCII, in the
    order of the [print] statements of the source: the five of the loop
    body, and the last line of the script.  The message of the
    empty-mapping exit is plain ASCII. *)
Inductive message : Type :=
| Processing      (* "Processing Session {ses}" *)
| SumFound        (* "SUM: {sum_file}" *)
| SumMissing      (* "SUM missing for this session. Skipping session." *)
| ProbFound       (* "PROB: {prob_file}" *)
| ProbMissing     (* "PROB missing for this session." *)
| AddingFiller    (* "Adding filler page with a '.' to make page count even." *)
| Done.           (* "Done. Merged PDF saved to {out_path}" *)

Section Merge.

(** A page of a source document, and the type of its dimensions (floats,
    of which only equality with themselves is used). *)
Variable page : Type.
Variable dim : Type.
(** [float(p.mediabox.width)], [float(p.mediabox.height)] *)
Variable mediabox_width mediabox_height : page -> dim.
(** [reportlab.lib.pagesizes.A4] *)
Variable A4 : dim * dim.

(** The file system the script reads: [listdir folder] is [None] when
    [os.path.isdir(folder)] is false, and the entries of the directory, in
    the order [os.listdir] gives them, otherwise; [PdfReader path] is
    [None] when opening the file raises, and its pages otherwise. *)
Variable listdir : string -> option (list string).
Variable PdfReader : string -> option (list page).

(** A page of the output: a page copied from a source document, or the
    page made by [create_dot_page(width, height)]. *)
Inductive out_page : Type :=
| Copied (p : page)
| Filler (width height : dim).

(** What [merged.pdf] holds: a whole document, or what a write of the
    document that failed has left of it. *)
Inductive merged_pdf : Type :=
| Document (pages : list out_page)
| Truncated (pages : list out_page).

(** The console and the output file: [console m] tells whether
    [sys.stdout] can encode message [m], [open_out] whether
    [open("merged.pdf", "wb")] succeeds, and [out_write out] whether
    [out.write(fo)] writes the whole of the document [out]. *)
Variable console : message -> bool.
Variable open_out : bool.
Variable out_write : list out_page -> bool.

(** One step of the loop of [collect_files_from]. *)
Definition collect_file (folder : string)
    (mapping : Dict.t (Dict.t string)) (f : string) : Dict.t (Dict.t string) :=
  match Re.match_ pattern f with
  | None => mapping
  | Some (sesnum, kind) =>
      let kind := Str.lower kind in
      Dict.set mapping sesnum
        (Dict.set (Dict.get_default mapping sesnum []) kind (path_join folder f))
  end.

Definition collect_files_from (folder : string) : Dict.t (Dict.t string) :=
  match listdir folder with
  | None => []
  | Some names => fold_left (collect_file folder) names []
  end.

(** [for sesnum, entry in files.items():
       sessions.setdefault(sesnum, {}).update(entry)] *)
Definition merge_entries (sessions files : Dict.t (Dict.t string))
  : Dict.t (Dict.t string) :=
  fold_left
    (fun acc se =>
       Dict.set acc (fst se)
         (Dict.update (Dict.get_default acc (fst se) []) (snd se)))
    files sessions.

Definition sum_files := collect_files_from "lecturenotes".
Definition prob_files := collect_files_from "problemsets".

Definition sessions : Dict.t (Dict.t string) :=
  merge_entries (merge_entries [] sum_files) prob_files.

(** [PdfReader(path)] *)
Definition read_pdf (path : string) : result (list page) :=
  of_option (PdfReader path) (PdfReadError path).

(** [for i in range(max(0, len(r.pages) - 1)): out.add_page(r.pages[i])] *)
Definition copy_count (r : list page) : nat :=
  Z.to_nat (Z.max 0 (Z.of_nat (length r) - 1)).

Definition add_pages (r : list page) (out : list out_page)
  : result (list out_page) :=
  for_each
    (fun i out =>
       (p <- of_option (nth_error r i) IndexError ;;
        Ok (out ++ [Copied p]))%res)
    (seq 0 (copy_count r)) out.

(** The variables of one iteration of the merge loop. *)
Record locals : Type := Locals {
  page_width : option dim;
  page_height : option dim;
  out : list out_page
}.

(** "Include SUM first": [None] is the [continue] of the [else] branch. *)
Definition include_sum (pair : Dict.t string) (out0 : list out_page)
  : result (option locals) :=
  match Dict.get pair "sum" with
  | Some sum_file =>
      (r <- read_pdf sum_file ;;
       let '(w, h) :=
         match r with
         | p0 :: _ => (Some (mediabox_width p0), Some (mediabox_height p0))
         | [] => (None, None)
         end in
       out1 <- add_pages r out0 ;;
       Ok (Some (Locals w h out1)))%res
  | None => Ok None
  end.

(** "Include PROB if exists" *)
Definition include_prob (pair : Dict.t string) (st : locals) : result locals :=
  match Dict.get pair "prob" with
  | Some prob_file =>
      (r <- read_pdf prob_file ;;
       let '(w, h) :=
         match page_width st, r with
         | None, p0 :: _ => (Some (mediabox_width p0), Some (mediabox_height p0))
         | _, _ => (page_width st, page_height st)
         end in
       out1 <- add_pages r (out st) ;;
       Ok (Locals w h out1))%res
  | None => Ok st
  end.

(** [pages_added % 2 != 0] *)
Definition odd_added (start_page_count : nat) (st : locals) : bool :=
  let pages_added := (Z.of_nat (length (out st)) - Z.of_nat start_page_count)%Z in
  negb (pages_added mod 2 =? 0)%Z.

(** The size given to [create_dot_page]; the second component tells
    whether it is the [A4] fallback. *)
Definition filler_size (st : locals) : dim * dim * bool :=
  match page_width st, page_height st with
  | Some w, Some h => (w, h, false)
  | _, _ => (fst A4, snd A4, true)
  end.

(** "Ensure even number of pages" *)
Definition ensure_even (start_page_count : nat) (st : locals) : list out_page :=
  if odd_added start_page_count st then
    let '(w, h, _) := filler_size st in
    out st ++ [Filler w h]
  else out st.

(** The body of the merge loop for one session entry, without its
    messages. *)
Definition process_session (pair : Dict.t string) (out0 : list out_page)
  : result (list out_page) :=
  let start_page_count := length out0 in
  (st <- include_sum pair out0 ;;
   match st with
   | None => Ok out0
   | Some st =>
       st' <- include_prob pair st ;;
       Ok (ensure_even start_page_count st')
   end)%res.

(** [sorted(sessions.keys(), key=lambda s: [int(x) for x in s.split(".")])] *)
Definition session_order (ss : Dict.t (Dict.t string)) : result (list string) :=
  Sort.sorted session_key (Dict.keys ss).

(** The merge loop over a session mapping, without its messages. *)
Definition merge_loop (ss : Dict.t (Dict.t string)) : result (list out_page) :=
  (order <- session_order ss ;;
   for_each
     (fun ses out =>
        pair <- of_option (Dict.get ss ses) KeyError ;;
        process_session pair out)
     order [])%res.

(** Steps 1 and 2 without their messages: the pages that the script
    collects before the output file is opened. *)
Definition merge_sessions : result (list out_page) :=
  match sessions with
  | [] => Raise (SystemExit 1)
  | _ => merge_loop sessions
  end.

(** [print(m)] for a message with a symbol outside ASCII *)
Definition print (m : message) : result unit :=
  if console m then Ok tt else Raise UnicodeEncodeError.

(** The body of the merge loop with its messages, each at the place of
    its [print]: before the document is opened, in the [else] branches,
    and before the filler is made. *)
Definition process_session_io (pair : Dict.t string) (out0 : list out_page)
  : result (list out_page) :=
  let start_page_count := length out0 in
  (_ <- print Processing ;;
   _ <- print (if Dict.mem pair "sum" then SumFound else SumMissing) ;;
   st <- include_sum pair out0 ;;
   match st with
   | None => Ok out0
   | Some st =>
       _ <- print (if Dict.mem pair "prob" then ProbFound else ProbMissing) ;;
       st' <- include_prob pair st ;;
       _ <- (if odd_added start_page_count st' then print AddingFiller
             else Ok tt) ;;
       Ok (ensure_even start_page_count st')
   end)%res.

(** The merge loop with its messages. *)
Definition merge_loop_io (ss : Dict.t (Dict.t string)) : result (list out_page) :=
  (order <- session_order ss ;;
   for_each
     (fun ses out =>
        pair <- of_option (Dict.get ss ses) KeyError ;;
        process_session_io pair out)
     order [])%res.

(** The whole script, as a function of the content of [merged.pdf] before
    the run ([None]: no such file); it gives the outcome and the content
    of [merged.pdf] after the run.  The file is opened only in step 3:
    [open] in mode ["wb"] empties it, [out.write] fills it, and the last
    message follows when the file is closed. *)
Definition main (merged : option merged_pdf)
  : result unit * option merged_pdf :=
  match sessions with
  | [] => (Raise (SystemExit 1), merged)
  | _ =>
      match merge_loop_io sessions with
      | Raise e => (Raise e, merged)
      | Ok out =>
          if negb open_out then (Raise OSError, merged)
          else if negb (out_write out) then
            (Raise WriteError, Some (Truncated out))
          else (print Done, Some (Document out))
      end
  end.

End Merge.

Arguments Copied {page dim} p.
Arguments Filler {page dim} width height.
Arguments Document {page dim} pages.
Arguments Truncated {page dim} pages.
Arguments Locals {page dim} page_width page_height out.
Arguments page_width {page dim} l.
Arguments page_height {page dim} l.
Arguments out {page dim} l.
Arguments read_pdf {page} PdfReader path.
Arguments copy_count {page} r.
Arguments add_pages {page dim} r out.
Arguments include_sum {page dim} mediabox_width mediabox_height PdfReader pair out0.
Arguments include_prob {page dim} mediabox_width mediabox_height PdfReader pair st.
Arguments odd_added {page dim} start_page_count st.
Arguments filler_size {page dim} A4 st.
Arguments ensure_even {page dim} A4 start_page_count st.
Arguments process_session {page dim} mediabox_width mediabox_height A4 PdfReader pair out0.
Arguments merge_loop {page dim} mediabox_width mediabox_height A4 PdfReader ss.
Arguments merge_sessions {page dim} mediabox_width mediabox_height A4 listdir PdfReader.
Arguments process_session_io {page dim} mediabox_width mediabox_height A4 PdfReader
  console pair out0.
Arguments merge_loop_io {page dim} mediabox_width mediabox_height A4 PdfReader
  console ss.
Arguments main {page dim} mediabox_width mediabox_height A4 listdir PdfReader
  console open_out out_write merged.

(* ================================================================= *)
(** ** rename_files.py *)

(** The group [(Ses\d+\.\d+(sum|prob)\.pdf)], without flags; the value is
    the text it matches. *)
Definition session_file_pattern : Re.t string :=
  Re.cat (Re.lit false "Ses")
    (Re.cat (Re.plus Str.is_digit)
       (Re.cat (Re.chr false ".")
          (Re.cat (Re.plus Str.is_digit)
             (Re.cat (Re.alt (Re.lit false "sum") (Re.lit false "prob"))
                (Re.lit false ".pdf"))))).

(** [r".*?(Ses\d+\.\d+(sum|prob)\.pdf)"]; the value is group 1, which is
    what the template [r"\1"] expands to. *)
Definition rename_pattern : Re.t string :=
  (_ <- Re.lazy_star (fun x => negb (Ascii.eqb x "010"%char)) ;;
   g1 <- session_file_pattern ;;
   Re.ret g1)%re.

(** [re.sub(r".*?(Ses\d+\.\d+(sum|prob)\.pdf)", r"\1", filename)] *)
Definition new_name (filename : string) : string :=
  Re.sub rename_pattern filename.

Section Rename.

(** The content of a file. *)
Variable file : Type.

(** A directory: its entries in the order of [os.listdir]. *)
Definition directory : Type := Dict.t file.

(** [os.rename(src, dst)] between regular files of one directory: an
    existing [dst] is replaced. *)
Definition os_rename (d : directory) (src dst : string) : result directory :=
  match Dict.get d src with
  | None => Raise FileNotFoundError
  | Some f => Ok (Dict.set (Dict.remove d src) dst f)
  end.

(** The body of the loop for one listed name. *)
Definition rename_one (filename : string) (d : directory) : result directory :=
  if Str.endswith filename ".pdf" && Str.contains filename "Ses" then
    let new := new_name filename in
    if negb (String.eqb new filename) then os_rename d filename new
    else Ok d
  else Ok d.

(** The script: the names are listed once, before the loop. *)
Definition rename_all (d : directory) : result directory :=
  for_each rename_one (Dict.keys d) d.

End Rename.

Arguments os_rename {file} d src dst.
Arguments rename_one {file} filename d.
Arguments rename_all {file} d.

(* ================================================================= *)
(** ** The wording of the specification, for comparison with the code *)

Module Spec.

Local Open Scope string_scope.

(** "names of the exact form Ses<digits>.<digits><kind>.pdf where kind is
    sum or prob, case-insensitive on the kind suffix and the literal
    prefix": the session id and the kind of such a name. *)
Definition exact_form (name sid kind : string) : Prop :=
  exists p d1 d2,
    name = p ++ d1 ++ "." ++ d2 ++ kind ++ ".pdf" /\
    Str.eq_ci p "Ses" /\
    d1 <> "" /\ Str.all Str.is_digit d1 = true /\
    d2 <> "" /\ Str.all Str.is_digit d2 = true /\
    (Str.eq_ci kind "sum" \/ Str.eq_ci kind "prob") /\
    sid = d1 ++ "." ++ d2.

(** "names of the exact form" dropped: a name that starts with
    [Ses<digits>.<digits><kind>.pdf], every letter in either case. *)
Definition starts_with_form (name sid kind : string) : Prop :=
  exists p d1 d2 e rest,
    name = p ++ d1 ++ "." ++ d2 ++ kind ++ e ++ rest /\
    Str.eq_ci p "Ses" /\
    d1 <> "" /\ Str.all Str.is_digit d1 = true /\
    d2 <> "" /\ Str.all Str.is_digit d2 = true /\
    (Str.eq_ci kind "sum" \/ Str.eq_ci kind "prob") /\
    Str.eq_ci e ".pdf" /\
    sid = d1 ++ "." ++ d2.

(** "a dotted pair of integers" *)
Definition dotted (sid : string) (primary secondary : Z) : Prop :=
  exists d1 d2,
    sid = d1 ++ "." ++ d2 /\
    Str.int d1 = Some primary /\ Str.int d2 = Some secondary.

Definition is_session_id (sid : string) : Prop :=
  exists primary secondary, dotted sid primary secondary.

(** "ascending numeric order of session id (primary component, then
    secondary component, both as integers)" *)
Definition id_le (a b : string) : Prop :=
  exists p1 s1 p2 s2,
    dotted a p1 s1 /\ dotted b p2 s2 /\
    (p1 < p2 \/ (p1 = p2 /\ s1 <= s2))%Z.

(** "strips any prefix before the first match of the session/kind
    pattern": the name from its first match on, or the name itself when
    the pattern matches nowhere. *)
Fixpoint strip_to_first_match (name : string) : option string :=
  match Re.match_ session_file_pattern name with
  | Some _ => Some name
  | None =>
      match name with
      | EmptyString => None
      | String _ name' => strip_to_first_match name'
      end
  end.

Definition stripped (name : string) : string :=
  match strip_to_first_match name with
  | Some s => s
  | None => name
  end.

End Spec.

(* ================================================================= *)
(** ** Vocabulary of the statements *)

(** The text that a literal accepts. *)
Definition lit_text (ic : bool) (w m : string) : Prop :=
  if ic then Str.eq_ci m w else m = w.

(** The string is empty or starts with a character that is no digit. *)
Definition starts_nondigit (s : string) : Prop :=
  match s with
  | String c _ => Str.is_digit c = false
  | EmptyString => True
  end.

Section Described.

Variables page dim : Type.
Variable mediabox_width mediabox_height : page -> dim.
Variable A4 : dim * dim.
Variable PdfReader : string -> option (list page).

(** Every page of a document but its last, as pages of the output. *)
Definition kept (r : list page) : list (out_page page dim) :=
  map Copied (removelast r).

(** The size of the first page of the summary or, when the summary has no
    page, of the problem document. *)
Definition reference_size (s p : list page) : option (dim * dim) :=
  match s, p with
  | p0 :: _, _ => Some (mediabox_width p0, mediabox_height p0)
  | [], p0 :: _ => Some (mediabox_width p0, mediabox_height p0)
  | [], [] => None
  end.

(** The pages copied for a session with summary [s] and problem document
    [p] ([[]] when there is none). *)
Definition content (s p : list page) : list (out_page page dim) :=
  kept s ++ kept p.

(** The filler that follows them: one page when their number is odd. *)
Definition padding (s p : list page) : list (out_page page dim) :=
  if Nat.odd (length (content s p)) then
    match reference_size s p with
    | Some (w, h) => [Filler w h]
    | None => [Filler (fst A4) (snd A4)]
    end
  else [].

(** The pages of the problem document of an entry, none when the entry has
    no problem document. *)
Definition prob_pages (pair : Dict.t string) : result (list page) :=
  match Dict.get pair "prob" with
  | Some prob_file => read_pdf PdfReader prob_file
  | None => Ok []
  end.

(** The PDFs that the loop opens for an entry when none of them fails:
    those of an entry that has a summary. *)
Definition opened (pair : Dict.t string) : list string :=
  match Dict.get pair "sum" with
  | None => []
  | Some sum_file =>
      sum_file ::
      match Dict.get pair "prob" with
      | Some prob_file => [prob_file]
      | None => []
      end
  end.

Definition opened_by (ss : Dict.t (Dict.t string)) : list string :=
  flat_map (fun se => opened (snd se)) ss.

(** Every PDF that the mapping names. *)
Definition source_paths (ss : Dict.t (Dict.t string)) : list string :=
  flat_map (fun se => map snd (snd se)) ss.

(** What the loop body appends for session [ses] of [ss]. *)
Definition session_pages (ss : Dict.t (Dict.t string)) (ses : string)
  : result (list (out_page page dim)) :=
  (pair <- of_option (Dict.get ss ses) KeyError ;;
   process_session mediabox_width mediabox_height A4 PdfReader pair [])%res.

(** The path of a file of [folder] that the pattern matches as a file of
    session [ses], and such a path in one of the two directories. *)
Definition from_session_file (folder ses path : string) : Prop :=
  exists f kind,
    path = path_join folder f /\ Re.match_ pattern f = Some (ses, kind).

Definition from_session (ses path : string) : Prop :=
  from_session_file "lecturenotes" ses path \/
  from_session_file "problemsets" ses path.

(** A mapping whose keys are distinct session ids. *)
Definition mapping_ok (ss : Dict.t (Dict.t string)) : Prop :=
  NoDup (Dict.keys ss) /\ Forall Spec.is_session_id (Dict.keys ss).

(** A directory that is missing, read as an empty one. *)
Definition missing_as_empty (listdir : string -> option (list string))
  : string -> option (list string) :=
  fun folder =>
    match listdir folder with
    | None => Some []
    | Some names => Some names
    end.

End Described.

Arguments kept {page dim} r.
Arguments reference_size {page dim} mediabox_width mediabox_height s p.
Arguments content {page dim} s p.
Arguments padding {page dim} mediabox_width mediabox_height A4 s p.
Arguments prob_pages {page} PdfReader pair.
Arguments session_pages {page dim} mediabox_width mediabox_height A4 PdfReader ss ses.

(* ================================================================= *)
(** ** Sample inputs *)

Module Sample.

(** A page is named by its document and its index in it; every page is
    595 by 842 points, and A4 stands for itself. *)
Definition page : Type := string * nat.
Definition dim : Type := nat.
Definition width (p : page) : dim := 595.
Definition height (p : page) : dim := 842.
Definition A4 : dim * dim := (595, 842).

Definition doc (path : string) (n : nat) : list page :=
  map (fun i => (path, i)) (seq 0 n).

(** Two directories: session 1.1 has a summary of 4 pages and a problem
    document of 3 pages, session 3.1 has a problem document only. *)
Definition listdir (folder : string) : option (list string) :=
  if String.eqb folder "lecturenotes" then Some ["Ses1.1sum.pdf"]
  else if String.eqb folder "problemsets"
       then Some ["Ses1.1prob.pdf"; "Ses3.1prob.pdf"]
  else None.

Definition PdfReader (path : string) : option (list page) :=
  if String.eqb path "lecturenotes/Ses1.1sum.pdf" then Some (doc path 4)
  else if String.eqb path "problemsets/Ses1.1prob.pdf" then Some (doc path 3)
  else None.

(** A summary of one page. *)
Definition short_reader (path : string) : option (list page) :=
  if String.eqb path "lecturenotes/Ses1.1sum.pdf" then Some (doc path 1)
  else if String.eqb path "problemsets/Ses1.1prob.pdf" then Some (doc path 3)
  else None.

(** No file can be read. *)
Definition no_reader (path : string) : option (list page) := None.

(** Only a summary, in the only directory there is. *)
Definition only_lecturenotes (folder : string) : option (list string) :=
  if String.eqb folder "lecturenotes" then Some ["Ses1.1sum.pdf"] else None.

(** Only a problem document. *)
Definition only_problemsets (folder : string) : option (list string) :=
  if String.eqb folder "problemsets" then Some ["Ses1.1prob.pdf"] else None.

(** The entry of session 1.1, the one of session 3.1, and the variables of
    the loop body for session 1.1 after each of the two copies. *)
Definition entry_1_1 : Dict.t string :=
  [("sum", "lecturenotes/Ses1.1sum.pdf");
   ("prob", "problemsets/Ses1.1prob.pdf")].

Definition entry_3_1 : Dict.t string :=
  [("prob", "problemsets/Ses3.1prob.pdf")].

Definition after_sum : locals page dim :=
  Locals (Some 595) (Some 842)
    (map Copied (doc "lecturenotes/Ses1.1sum.pdf" 3)).

Definition after_prob : locals page dim :=
  Locals (Some 595) (Some 842)
    (map Copied (doc "lecturenotes/Ses1.1sum.pdf" 3)
     ++ map Copied (doc "problemsets/Ses1.1prob.pdf" 2)).

(** The six pages of session 1.1. *)
Definition pages_1_1 : list (out_page page dim) :=
  map Copied (doc "lecturenotes/Ses1.1sum.pdf" 3)
  ++ map Copied (doc "problemsets/Ses1.1prob.pdf" 2)
  ++ [Filler 595 842].

(** A console that shows every message and one that cannot encode their
    symbols; a write that completes and one that fails. *)
Definition utf8_console (m : message) : bool := true.
Definition ascii_console (m : message) : bool := false.
Definition writes (out : list (out_page page dim)) : bool := true.
Definition write_fails (out : list (out_page page dim)) : bool := false.

End Sample.

(* ================================================================= *)
(** ** Vocabulary of the further properties *)

(** The name is one that [collect_files_from] takes up. *)
Definition recognised (f : string) : bool :=
  match Re.match_ pattern f with
  | Some _ => true
  | None => false
  end.

(** The directories without the names that the pattern does not match. *)
Definition session_files_only (listdir : string -> option (list string))
  : string -> option (list string) :=
  fun folder => option_map (filter recognised) (listdir folder).

(** [mapping[ses][kind]] when both keys are there. *)
Definition lookup (m : Dict.t (Dict.t string)) (ses kind : string)
  : option string :=
  match Dict.get m ses with
  | Some entry => Dict.get entry kind
  | None => None
  end.

(** The pattern matches the name with [ses] as session id and a kind that
    is [kind] once lowered. *)
Definition file_of (ses kind f : string) : bool :=
  match Re.match_ pattern f with
  | Some (s, k) => String.eqb s ses && String.eqb (Str.lower k) kind
  | None => false
  end.

(** The last name of a listing that is a file of the session and kind. *)
Fixpoint last_file (ses kind : string) (names : list string) : option string :=
  match names with
  | [] => None
  | f :: rest =>
      match last_file ses kind rest with
      | Some g => Some g
      | None => if file_of ses kind f then Some f else None
      end
  end.

(** The names of a directory, none when it is missing. *)
Definition names_of (listdir : string -> option (list string))
    (folder : string) : list string :=
  match listdir folder with
  | Some names => names
  | None => []
  end.

(** The session id has the sort key [k]. *)
Definition has_key (k : list Z) (s : string) : bool :=
  match session_key s with
  | Ok k' => if list_eq_dec Z.eq_dec k' k then true else false
  | Raise _ => false
  end.

(** No character of the string is a newline. *)
Definition no_newline (s : string) : bool :=
  Str.all (fun x => negb (Ascii.eqb x "010"%char)) s.

(** The string up to its first newline. *)
Fixpoint first_line (s : string) : string :=
  match s with
  | EmptyString => EmptyString
  | String c s' =>
      if Ascii.eqb c "010"%char then EmptyString else String c (first_line s')
  end.

(** The name that the loop of the rename utility gives to a file. *)
Definition target (filename : string) : string :=
  if Str.endswith filename ".pdf" && Str.contains filename "Ses"
  then new_name filename
  else filename.

(** An entry of a directory under the name that the loop gives it. *)
Definition renamed {file : Type} (nf : string * file) : string * file :=
  (target (fst nf), snd nf).

(** What is said of a page of the output: a copied page is a page, not the
    last, of a document that the loop opens; a filler page has the size of
    the first page of such a document. *)
Definition from_sources {page dim : Type}
    (mediabox_width mediabox_height : page -> dim)
    (PdfReader : string -> option (list page))
    (ss : Dict.t (Dict.t string)) (x : out_page page dim) : Prop :=
  match x with
  | Copied q =>
      exists path r,
        In path (opened_by ss) /\ PdfReader path = Some r /\
        In q (removelast r)
  | Filler w h =>
      exists path r q,
        In path (opened_by ss) /\ PdfReader path = Some r /\
        hd_error r = Some q /\
        w = mediabox_width q /\ h = mediabox_height q
  end.

(** More sample inputs. *)
Module More.

(** Two spellings of the summary of session 1.1, a summary in the directory
    of the problem documents, and a file that is no session file. *)
Definition listdir (folder : string) : option (list string) :=
  if String.eqb folder "lecturenotes"
  then Some ["Ses1.1sum.pdf"; "readme.txt"; "SES1.1SUM.PDF"; "Ses01.1sum.pdf"]
  else if String.eqb folder "problemsets"
       then Some ["Ses1.1prob.pdf"; "Ses1.1sum.pdf"]
  else None.

(** Every document has two pages. *)
Definition PdfReader (path : string) : option (list Sample.page) :=
  Some (Sample.doc path 2).

(** A directory for the rename utility; the content of a file is a
    number. *)
Definition downloads : Dict.t nat :=
  [("MIT18_06SCF11_Ses1.1sum.pdf", 1); ("notes.txt", 2);
   ("MIT18_06SCF11_Ses1.1prob.pdf", 3); ("Ses1.2sum.pdf", 4)].

(** The directory after the rename utility has run. *)
Definition renamed_downloads : Dict.t nat :=
  [("notes.txt", 2); ("Ses1.2sum.pdf", 4);
   ("Ses1.1sum.pdf", 1); ("Ses1.1prob.pdf", 3)].

(** An entry with a summary only. *)
Definition entry_sum_only : Dict.t string :=
  [("sum", "lecturenotes/Ses1.1sum.pdf")].

End More.

(* ================================================================= *)
(** * Facts *)

(** ** Strings *)

Section StrFacts.

Local Open Scope string_scope.

Lemma sapp_assoc (a b c : string) : (a ++ b) ++ c = a ++ (b ++ c).
Proof. induction a as [|x a IH]; simpl; [reflexivity | now rewrite IH]. Qed.

Lemma sapp_nil_r (a : string) : a ++ "" = a.
Proof. induction a as [|x a IH]; simpl; [reflexivity | now rewrite IH]. Qed.

Lemma slength_app (a b : string) :
  String.length (a ++ b) = (String.length a + String.length b)%nat.
Proof. induction a as [|x a IH]; simpl; [reflexivity | now rewrite IH]. Qed.

Lemma sapp_inv_length (a a' b b' : string) :
  String.length a = String.length a' ->
  a ++ b = a' ++ b' -> a = a' /\ b = b'.
Proof.
  revert a'; induction a as [|x a IH]; intros [|x' a'] Hl H;
    simpl in *; try discriminate.
  - now split.
  - injection H as -> H. destruct (IH a') as [-> ->]; [lia | assumption |].
    now split.
Qed.

Lemma lower_app (a b : string) : Str.lower (a ++ b) = Str.lower a ++ Str.lower b.
Proof. induction a as [|x a IH]; simpl; [reflexivity | now rewrite IH]. Qed.

Lemma lower_length (a : string) : String.length (Str.lower a) = String.length a.
Proof. induction a as [|x a IH]; simpl; [reflexivity | now rewrite IH]. Qed.

Lemma eq_ci_length (a b : string) :
  Str.eq_ci a b -> String.length a = String.length b.
Proof.
  unfold Str.eq_ci; intros H.
  rewrite <- (lower_length a), <- (lower_length b). now rewrite H.
Qed.

Lemma all_app (f : ascii -> bool) (a b : string) :
  Str.all f (a ++ b) = Str.all f a && Str.all f b.
Proof.
  induction a as [|x a IH]; simpl; [reflexivity |].
  rewrite IH. now rewrite andb_assoc.
Qed.

(** Case folding leaves the decimal digits and the dot alone, and maps
    nothing else onto them. *)
Lemma lower_char_digit (c : ascii) :
  Str.is_digit (Str.lower_char c) = Str.is_digit c.
Proof.
  destruct c as [[] [] [] [] [] [] [] []]; reflexivity.
Qed.

Lemma lower_char_dot (c : ascii) :
  Str.lower_char c = "."%char -> c = "."%char.
Proof.
  destruct c as [[] [] [] [] [] [] [] []]; vm_compute; congruence.
Qed.

Lemma lower_char_idem (c : ascii) :
  Str.lower_char (Str.lower_char c) = Str.lower_char c.
Proof.
  destruct c as [[] [] [] [] [] [] [] []]; reflexivity.
Qed.

End StrFacts.

(** ** Regular expressions: what each matcher can yield *)

Section ReFacts.

Local Open Scope string_scope.

Lemma in_ret {A} (a b : A) (s r : string) :
  In (b, r) (Re.ret a s) <-> b = a /\ r = s.
Proof.
  unfold Re.ret; simpl. split.
  - intros [H | []]. now injection H as -> ->.
  - intros [-> ->]. now left.
Qed.

Lemma in_bind {A B} (p : Re.t A) (f : A -> Re.t B) (s r : string) (b : B) :
  In (b, r) (Re.bind p f s) <->
  exists a r1, In (a, r1) (p s) /\ In (b, r) (f a r1).
Proof.
  unfold Re.bind. rewrite in_flat_map. split.
  - intros [[a r1] [H1 H2]]. now exists a, r1.
  - intros (a & r1 & H1 & H2). now exists (a, r1).
Qed.

Lemma in_alt {A} (p q : Re.t A) (s r : string) (a : A) :
  In (a, r) (Re.alt p q s) <-> In (a, r) (p s) \/ In (a, r) (q s).
Proof. unfold Re.alt. apply in_app_iff. Qed.

Lemma in_one (f : ascii -> bool) (s m r : string) :
  In (m, r) (Re.one f s) <->
  exists c, m = String c "" /\ s = String c r /\ f c = true.
Proof.
  unfold Re.one. destruct s as [|c s'].
  - split; [intros [] | intros (c & _ & H & _); discriminate].
  - destruct (f c) eqn:E; simpl.
    + split.
      * intros [H | []]. injection H as <- <-. now exists c.
      * intros (c' & -> & H & _). injection H as <- <-. now left.
    + split; [intros [] |].
      intros (c' & _ & H & Hc). injection H as <- _. congruence.
Qed.

Lemma in_cat (p q : Re.t string) (s m r : string) :
  In (m, r) (Re.cat p q s) <->
  exists a b r1, In (a, r1) (p s) /\ In (b, r) (q r1) /\ m = a ++ b.
Proof.
  unfold Re.cat. rewrite in_bind. split.
  - intros (a & r1 & Ha & H). apply in_bind in H.
    destruct H as (b & r2 & Hb & H). apply in_ret in H. destruct H as [-> ->].
    now exists a, b, r1.
  - intros (a & b & r1 & Ha & Hb & ->). exists a, r1. split; [assumption |].
    apply in_bind. exists b, r. split; [assumption |]. now apply in_ret.
Qed.

Lemma in_lit (ic : bool) (w s m r : string) :
  In (m, r) (Re.lit ic w s) <-> s = m ++ r /\ lit_text ic w m.
Proof.
  revert s m. induction w as [|c w IH]; intros s m; cbn [Re.lit].
  - rewrite in_ret. unfold lit_text, Str.eq_ci. split.
    + intros [-> ->]. split; [reflexivity | now destruct ic].
    + intros [-> H]. destruct m as [|x m]; [now split |].
      destruct ic; discriminate.
  - rewrite in_cat. unfold Re.chr. split.
    + intros (a & b & r1 & Ha & Hb & ->).
      apply in_one in Ha. destruct Ha as (x & -> & -> & Hx).
      apply IH in Hb. destruct Hb as [-> Hb]. split; [reflexivity |].
      unfold lit_text, Str.eq_ci in *. destruct ic; simpl.
      * apply Ascii.eqb_eq in Hx. now rewrite Hx, Hb.
      * apply Ascii.eqb_eq in Hx. now rewrite Hx, Hb.
    + intros [-> H]. unfold lit_text, Str.eq_ci in H.
      destruct m as [|x m]; [destruct ic; discriminate |].
      exists (String x ""), m, (m ++ r). split; [| split; [| reflexivity]].
      * apply in_one. exists x. split; [reflexivity | split; [reflexivity |]].
        destruct ic; simpl in H; injection H as H _;
          apply Ascii.eqb_eq; assumption.
      * apply IH. split; [reflexivity |].
        unfold lit_text, Str.eq_ci.
        destruct ic; simpl in H; now injection H as _ H.
Qed.

Lemma in_cons_match (c : ascii) (m r : string) (l : list (string * string)) :
  In (m, r) (map (Re.cons_match c) l) <->
  exists m', m = String c m' /\ In (m', r) l.
Proof.
  rewrite in_map_iff. split.
  - intros ([m' r'] & H & Hin). unfold Re.cons_match in H; simpl in H.
    injection H as <- <-. now exists m'.
  - intros (m' & -> & Hin). now exists (m', r).
Qed.

Lemma in_plus (f : ascii -> bool) (s m r : string) :
  In (m, r) (Re.plus f s) <->
  s = m ++ r /\ m <> "" /\ Str.all f m = true.
Proof.
  revert m. induction s as [|c s IH]; intros m; simpl.
  - split; [intros [] |]. intros (H & Hm & _).
    destruct m; [congruence | discriminate].
  - destruct (f c) eqn:E.
    + rewrite in_app_iff, in_cons_match. simpl. split.
      * intros [(m' & -> & H) | [H | []]].
        -- apply IH in H. destruct H as (-> & _ & H).
           simpl. rewrite E, H. repeat split. discriminate.
        -- injection H as <- <-. simpl. rewrite E. repeat split. discriminate.
      * intros (H & Hm & Hall). destruct m as [|x m]; [congruence |].
        simpl in H. injection H as <- ->. simpl in Hall.
        apply andb_true_iff in Hall. destruct Hall as [_ Hall].
        destruct m as [|y m].
        -- right. now left.
        -- left. exists (String y m). split; [reflexivity |].
           apply IH. repeat split; [discriminate | assumption].
    + split; [intros [] |]. intros (H & Hm & Hall).
      destruct m as [|x m]; [congruence |].
      simpl in H. injection H as <- _. simpl in Hall. rewrite E in Hall.
      discriminate.
Qed.

Lemma in_lazy_star (f : ascii -> bool) (s m r : string) :
  In (m, r) (Re.lazy_star f s) <-> s = m ++ r /\ Str.all f m = true.
Proof.
  revert m. induction s as [|c s IH]; intros m; simpl.
  - split.
    + intros [H | []]. injection H as <- <-. now split.
    + intros [H _]. destruct m; [| discriminate]. simpl in H. subst r. now left.
  - split.
    + intros [H | H].
      * injection H as <- <-. now split.
      * destruct (f c) eqn:E; [| destruct H].
        apply in_cons_match in H. destruct H as (m' & -> & H).
        apply IH in H. destruct H as [-> H]. simpl. now rewrite E, H.
    + intros [H Hall]. destruct m as [|x m].
      * simpl in H. subst r. now left.
      * right. simpl in H. injection H as <- ->. simpl in Hall.
        apply andb_true_iff in Hall. destruct Hall as [E Hall]. rewrite E.
        apply in_cons_match. exists m. split; [reflexivity |].
        apply IH. now split.
Qed.

(** [match_] yields the head of the list of matches. *)
Lemma match_some_in {A} (p : Re.t A) (s : string) (a : A) :
  Re.match_ p s = Some a -> exists r, In (a, r) (p s).
Proof.
  unfold Re.match_. destruct (p s) as [|[a' r] l]; [discriminate |].
  intros H. injection H as ->. exists r. now left.
Qed.

Lemma match_unique {A} (p : Re.t A) (s : string) (a : A) (r : string) :
  In (a, r) (p s) ->
  (forall a' r', In (a', r') (p s) -> a' = a) ->
  Re.match_ p s = Some a.
Proof.
  unfold Re.match_. destruct (p s) as [|[a' r'] l]; [intros [] |].
  intros _ H. f_equal. apply (H a' r'). now left.
Qed.

Lemma match_none_iff {A} (p : Re.t A) (s : string) :
  Re.match_ p s = None <-> p s = [].
Proof.
  unfold Re.match_. destruct (p s) as [|[a r] l]; split; congruence.
Qed.

End ReFacts.

(** ** The file-name pattern *)

Section PatternFacts.

Local Open Scope string_scope.

Lemma in_chr_dot (s m r : string) :
  In (m, r) (Re.chr true "." s) <-> m = "." /\ s = "." ++ r.
Proof.
  unfold Re.chr. rewrite in_one. split.
  - intros (c & -> & -> & H). apply Ascii.eqb_eq in H.
    change (Str.lower_char ".") with "."%char in H.
    apply lower_char_dot in H. subst c. now split.
  - intros [-> ->]. exists "."%char. now repeat split.
Qed.

Lemma in_pattern (s g1 g2 r : string) :
  In ((g1, g2), r) (pattern s) <->
  exists p d1 d2 e,
    s = p ++ d1 ++ "." ++ d2 ++ g2 ++ e ++ r /\
    Str.eq_ci p "Ses" /\
    d1 <> "" /\ Str.all Str.is_digit d1 = true /\
    d2 <> "" /\ Str.all Str.is_digit d2 = true /\
    (Str.eq_ci g2 "sum" \/ Str.eq_ci g2 "prob") /\
    Str.eq_ci e ".pdf" /\
    g1 = d1 ++ "." ++ d2.
Proof.
  unfold pattern. split.
  - intros H.
    apply in_bind in H. destruct H as (p & r1 & Hp & H).
    apply in_lit in Hp. destruct Hp as [-> Hp].
    apply in_bind in H. destruct H as (g & r2 & Hg & H).
    apply in_cat in Hg. destruct Hg as (d1 & x & r3 & Hd1 & Hx & ->).
    apply in_plus in Hd1. destruct Hd1 as (-> & Hd1 & Hd1').
    apply in_cat in Hx. destruct Hx as (dt & d2 & r4 & Hdt & Hd2 & ->).
    apply in_chr_dot in Hdt. destruct Hdt as [-> ->].
    apply in_plus in Hd2. destruct Hd2 as (-> & Hd2 & Hd2').
    apply in_bind in H. destruct H as (k & r5 & Hk & H).
    apply in_bind in H. destruct H as (e & r6 & He & H).
    apply in_lit in He. destruct He as [-> He].
    apply in_ret in H. destruct H as [H Hr]. subst r6. injection H as -> ->.
    exists p, d1, d2, e.
    assert (Hk' : r2 = k ++ e ++ r /\ (Str.eq_ci k "sum" \/ Str.eq_ci k "prob")).
    { apply in_alt in Hk. destruct Hk as [Hk | Hk];
        apply in_lit in Hk; destruct Hk as [-> Hk]; split; auto. }
    destruct Hk' as [-> Hk'].
    repeat split; try assumption.
  - intros (p & d1 & d2 & e & -> & Hp & Hd1 & Hd1' & Hd2 & Hd2' & Hk & He & ->).
    apply in_bind. exists p, (d1 ++ "." ++ d2 ++ g2 ++ e ++ r). split.
    { apply in_lit. now split. }
    apply in_bind. exists (d1 ++ "." ++ d2), (g2 ++ e ++ r). split.
    { apply in_cat. exists d1, ("." ++ d2), ("." ++ d2 ++ g2 ++ e ++ r).
      split; [| split; [| reflexivity]].
      - apply in_plus. now repeat split.
      - apply in_cat. exists ".", d2, (d2 ++ g2 ++ e ++ r).
        split; [| split; [| reflexivity]].
        + apply in_chr_dot. now split.
        + apply in_plus. now repeat split. }
    apply in_bind. exists g2, (e ++ r). split.
    { apply in_alt. destruct Hk as [Hk | Hk]; [left | right];
        apply in_lit; now split. }
    apply in_bind. exists e, r. split.
    { apply in_lit. now split. }
    now apply in_ret.
Qed.

(** A run of digits that ends before a character that is no digit is
    determined by the string. *)
Lemma digits_unique (d d' x x' : string) :
  Str.all Str.is_digit d = true -> Str.all Str.is_digit d' = true ->
  starts_nondigit x -> starts_nondigit x' ->
  d ++ x = d' ++ x' -> d = d' /\ x = x'.
Proof.
  revert d'. induction d as [|c d IH]; intros [|c' d'] Hd Hd' Hx Hx' H;
    simpl in *.
  - now split.
  - subst x. simpl in Hx. apply andb_true_iff in Hd'. destruct Hd'. congruence.
  - subst x'. simpl in Hx'. apply andb_true_iff in Hd. destruct Hd. congruence.
  - injection H as -> H.
    apply andb_true_iff in Hd. apply andb_true_iff in Hd'.
    destruct (IH d') as [-> ->]; tauto.
Qed.

Lemma ci_starts_nondigit (k w rest : string) :
  Str.eq_ci k w -> starts_nondigit w -> w <> "" ->
  starts_nondigit (k ++ rest).
Proof.
  unfold Str.eq_ci. intros H Hw Hne.
  destruct w as [|c w]; [congruence |].
  destruct k as [|x k]; [discriminate |].
  simpl in *. injection H as H _.
  rewrite <- lower_char_digit, H, lower_char_digit. exact Hw.
Qed.

Lemma kind_unique (k k' y y' : string) :
  Str.eq_ci k "sum" \/ Str.eq_ci k "prob" ->
  Str.eq_ci k' "sum" \/ Str.eq_ci k' "prob" ->
  k ++ y = k' ++ y' -> k = k' /\ y = y'.
Proof.
  intros Hk Hk' H. apply sapp_inv_length; [| assumption].
  unfold Str.eq_ci in *.
  destruct Hk as [Hk | Hk], Hk' as [Hk' | Hk'];
    try (rewrite <- (lower_length k), <- (lower_length k'), Hk, Hk';
         reflexivity);
    destruct k as [|c k]; try discriminate;
    destruct k' as [|c' k']; try discriminate;
    simpl in *; injection H as -> _; injection Hk as Hk _;
    injection Hk' as Hk' _; rewrite Hk in Hk'; discriminate.
Qed.

Lemma pattern_unique (s g1 g2 r g1' g2' r' : string) :
  In ((g1, g2), r) (pattern s) -> In ((g1', g2'), r') (pattern s) ->
  g1 = g1' /\ g2 = g2' /\ r = r'.
Proof.
  intros H H'. apply in_pattern in H, H'.
  destruct H as (p & d1 & d2 & e & -> & Hp & Hd1 & Hd1' & Hd2 & Hd2' & Hk & He & ->).
  destruct H' as (p' & a1 & a2 & e' & H & Hp' & Ha1 & Ha1' & Ha2 & Ha2' & Hk' & He' & ->).
  apply sapp_inv_length in H;
    [| rewrite (eq_ci_length _ _ Hp), (eq_ci_length _ _ Hp'); reflexivity].
  destruct H as [<- H].
  apply digits_unique in H; try assumption; try reflexivity.
  destruct H as [<- H]. simpl in H. injection H as H.
  assert (Hnd : forall k y, Str.eq_ci k "sum" \/ Str.eq_ci k "prob" ->
                            starts_nondigit (k ++ y)).
  { intros k y [Hs | Hs];
      (eapply ci_starts_nondigit; [exact Hs | reflexivity | discriminate]). }
  apply digits_unique in H; try assumption; try (now apply Hnd).
  destruct H as [<- H].
  apply kind_unique in H; try assumption.
  destruct H as [<- H].
  apply sapp_inv_length in H;
    [| rewrite (eq_ci_length _ _ He), (eq_ci_length _ _ He'); reflexivity].
  destruct H as [_ <-]. now repeat split.
Qed.

(** The pattern matches exactly the names that start with the form, and
    the groups are the session id and the kind as spelled in the name. *)
Lemma pattern_match_iff (name sid kind : string) :
  Re.match_ pattern name = Some (sid, kind) <->
  Spec.starts_with_form name sid kind.
Proof.
  unfold Spec.starts_with_form. split.
  - intros H. apply match_some_in in H. destruct H as [r H].
    apply in_pattern in H.
    destruct H as (p & d1 & d2 & e & H). now exists p, d1, d2, e, r.
  - intros (p & d1 & d2 & e & r & H).
    assert (Hin : In ((sid, kind), r) (pattern name)).
    { apply in_pattern. now exists p, d1, d2, e. }
    apply (match_unique pattern name _ r Hin).
    intros [g1 g2] r' H'.
    destruct (pattern_unique _ _ _ _ _ _ _ Hin H') as (-> & -> & _).
    reflexivity.
Qed.

End PatternFacts.

(** ** Dictionaries *)

Section DictFacts.

Context {V : Type}.
Implicit Types (d : Dict.t V) (k : string) (v : V).

Lemma get_set_same d k v : Dict.get (Dict.set d k v) k = Some v.
Proof.
  induction d as [|[k' v'] d IH]; simpl.
  - now rewrite String.eqb_refl.
  - destruct (String.eqb k' k) eqn:E; simpl; rewrite E; auto.
Qed.

Lemma get_set_other d k k' v :
  k <> k' -> Dict.get (Dict.set d k v) k' = Dict.get d k'.
Proof.
  intros Hne. induction d as [|[k0 v0] d IH]; simpl.
  - apply String.eqb_neq in Hne. now rewrite Hne.
  - destruct (String.eqb k0 k) eqn:E; simpl.
    + apply String.eqb_eq in E. subst k0.
      apply String.eqb_neq in Hne. now rewrite Hne.
    + now rewrite IH.
Qed.

Lemma keys_set d k v :
  Dict.keys (Dict.set d k v) =
  if Dict.mem d k then Dict.keys d else Dict.keys d ++ [k].
Proof.
  unfold Dict.mem. induction d as [|[k0 v0] d IH]; simpl; [reflexivity |].
  destruct (String.eqb k0 k) eqn:E; simpl; [reflexivity |].
  rewrite IH. now destruct (Dict.get d k).
Qed.

Lemma get_in_keys d k : In k (Dict.keys d) <-> exists v, Dict.get d k = Some v.
Proof.
  induction d as [|[k0 v0] d IH]; simpl.
  - split; [intros [] | intros [v H]; discriminate].
  - destruct (String.eqb_spec k0 k) as [-> | Hne].
    + split; [intros _; now exists v0 | now left].
    + rewrite <- IH. split; [intros [H | H]; [contradiction | assumption] | now right].
Qed.

Lemma mem_in_keys d k : Dict.mem d k = true <-> In k (Dict.keys d).
Proof.
  rewrite get_in_keys. unfold Dict.mem.
  destruct (Dict.get d k) as [v|]; split; try discriminate; try reflexivity.
  - intros _. now exists v.
  - intros [v H]. discriminate.
Qed.

Lemma in_keys_set d k v x :
  In x (Dict.keys (Dict.set d k v)) <-> x = k \/ In x (Dict.keys d).
Proof.
  rewrite keys_set. destruct (Dict.mem d k) eqn:E.
  - apply mem_in_keys in E. split; [now right | intros [-> | H]; assumption].
  - rewrite in_app_iff. simpl. split.
    + intros [H | [H | []]]; auto.
    + intros [-> | H]; auto.
Qed.

Lemma NoDup_keys_set d k v :
  NoDup (Dict.keys d) -> NoDup (Dict.keys (Dict.set d k v)).
Proof.
  intros H. rewrite keys_set. destruct (Dict.mem d k) eqn:E; [assumption |].
  apply NoDup_app; [assumption | repeat constructor; intros [] |].
  intros x Hx [<- | []].
  apply mem_in_keys in Hx. congruence.
Qed.

Lemma get_some_in d k v : Dict.get d k = Some v -> In (k, v) d.
Proof.
  induction d as [|[k0 v0] d IH]; simpl; [discriminate |].
  destruct (String.eqb_spec k0 k) as [-> | Hne].
  - intros H. injection H as ->. now left.
  - intros H. right. now apply IH.
Qed.

Lemma in_get d k v : NoDup (Dict.keys d) -> In (k, v) d -> Dict.get d k = Some v.
Proof.
  induction d as [|[k0 v0] d IH]; simpl; [intros _ [] |].
  intros Hnd [H | H].
  - injection H as -> ->. now rewrite String.eqb_refl.
  - inversion Hnd as [|? ? Hnot Hnd']; subst.
    destruct (String.eqb_spec k0 k) as [-> | Hne].
    + exfalso. apply Hnot. change k with (fst (k, v)). now apply in_map.
    + now apply IH.
Qed.

Lemma get_remove_other d k k' :
  k <> k' -> Dict.get (Dict.remove d k) k' = Dict.get d k'.
Proof.
  intros Hne. induction d as [|[k0 v0] d IH]; simpl; [reflexivity |].
  destruct (String.eqb_spec k0 k) as [-> | Hne0]; simpl.
  - apply String.eqb_neq in Hne. now rewrite Hne.
  - now rewrite IH.
Qed.

Lemma keys_remove d k :
  Dict.keys (Dict.remove d k) =
  filter (fun x => negb (String.eqb x k)) (Dict.keys d).
Proof.
  induction d as [|[k0 v0] d IH]; simpl; [reflexivity |].
  destruct (String.eqb k0 k); simpl; now rewrite IH.
Qed.

End DictFacts.

(** ** Results *)

Section ResultFacts.

Context {A B : Type}.

Lemma map_result_ok (f : A -> result B) (l : list A) (ys : list B) :
  map_result f l = Ok ys <-> Forall2 (fun x y => f x = Ok y) l ys.
Proof.
  revert ys. induction l as [|x l IH]; intros ys; simpl.
  - split.
    + intros H. injection H as <-. constructor.
    + intros H. now inversion H.
  - destruct (f x) as [y|e] eqn:E; simpl.
    + destruct (map_result f l) as [ys'|e] eqn:E'; simpl.
      * split.
        -- intros H. injection H as <-. constructor; [assumption |].
           now apply IH.
        -- intros H. inversion H as [|? y' ? ys'' Hy Hys]; subst.
           apply IH in Hys. congruence.
      * split; [discriminate |].
        intros H. inversion H as [|? y' ? ys'' Hy Hys]; subst.
        apply IH in Hys. discriminate.
    + split; [discriminate |].
      intros H. inversion H; subst. congruence.
Qed.

Lemma map_result_total (f : A -> result B) (l : list A) :
  Forall (fun x => exists y, f x = Ok y) l ->
  exists ys, map_result f l = Ok ys.
Proof.
  induction 1 as [|x l [y Hy] _ [ys IH]]; simpl.
  - now exists [].
  - rewrite Hy, IH. simpl. now exists (y :: ys).
Qed.

Lemma map_result_length (f : A -> result B) (l : list A) (ys : list B) :
  map_result f l = Ok ys -> length ys = length l.
Proof.
  intros H. apply map_result_ok in H. symmetry. eapply Forall2_length; eauto.
Qed.

End ResultFacts.

(** ** Sorting *)

Section SortFacts.

Lemma list_lt_irrefl (a : list Z) : Sort.list_lt a a = false.
Proof.
  induction a as [|x a IH]; simpl; [reflexivity |].
  now rewrite Z.eqb_refl.
Qed.

Lemma list_lt_asym (a b : list Z) :
  Sort.list_lt a b = true -> Sort.list_lt b a = false.
Proof.
  revert b. induction a as [|x a IH]; intros [|y b]; simpl; try congruence.
  destruct (Z.eqb_spec x y) as [-> | Hne].
  - rewrite Z.eqb_refl. apply IH.
  - intros H. apply Z.ltb_lt in H.
    destruct (Z.eqb_spec y x); [lia |]. apply Z.ltb_ge. lia.
Qed.

Lemma key_le_trans (a b c : list Z) :
  Sort.list_le a b -> Sort.list_le b c -> Sort.list_le a c.
Proof.
  unfold Sort.list_le.
  revert b c. induction a as [|x a IH]; intros [|y b] [|z c]; simpl;
    try congruence.
  destruct (Z.eqb_spec y x) as [E1 | E1], (Z.eqb_spec z y) as [E2 | E2],
    (Z.eqb_spec z x) as [E3 | E3]; subst; try congruence;
    try apply IH; rewrite ?Z.ltb_ge; try lia; try congruence.
Qed.

Lemma key_le_total (a b : list Z) : Sort.list_le a b \/ Sort.list_le b a.
Proof.
  destruct (Sort.list_lt b a) eqn:E; [right | now left].
  now apply list_lt_asym.
Qed.

Context {A : Type}.
Implicit Types (x : list Z * A) (l : list (list Z * A)).

Lemma insert_perm x l : Permutation (Sort.insert x l) (x :: l).
Proof.
  induction l as [|y l IH]; simpl; [reflexivity |].
  destruct (Sort.list_lt (fst y) (fst x)); [| reflexivity].
  rewrite IH. apply perm_swap.
Qed.

Lemma sort_perm l : Permutation (Sort.sort l) l.
Proof.
  induction l as [|x l IH]; simpl; [reflexivity |].
  rewrite insert_perm. now constructor.
Qed.

Lemma insert_sorted x l :
  StronglySorted Sort.dec_le l -> StronglySorted Sort.dec_le (Sort.insert x l).
Proof.
  induction 1 as [|y l Hl IH Hy]; simpl.
  - repeat constructor.
  - destruct (Sort.list_lt (fst y) (fst x)) eqn:E.
    + constructor; [assumption |].
      rewrite Forall_forall in *. intros z Hz.
      apply (Permutation_in _ (insert_perm x l)) in Hz.
      destruct Hz as [<- | Hz]; [| now apply Hy].
      unfold Sort.dec_le, Sort.list_le. now apply list_lt_asym.
    + constructor; [now constructor |].
      constructor; [exact E |].
      rewrite Forall_forall in *. intros z Hz.
      unfold Sort.dec_le, Sort.list_le in *. eapply key_le_trans; [exact E | now apply Hy].
Qed.

Lemma sort_sorted l : StronglySorted Sort.dec_le (Sort.sort l).
Proof.
  induction l as [|x l IH]; simpl; [constructor | now apply insert_sorted].
Qed.

(** Stability: sorting commutes with the removal of elements. *)
Lemma filter_insert (P : list Z * A -> bool) x l :
  StronglySorted Sort.dec_le l ->
  filter P (Sort.insert x l) =
  if P x then Sort.insert x (filter P l) else filter P l.
Proof.
  induction 1 as [|y l Hl IH Hy]; simpl.
  - now destruct (P x).
  - destruct (Sort.list_lt (fst y) (fst x)) eqn:E; simpl.
    + rewrite IH. destruct (P y), (P x); simpl; try rewrite E; reflexivity.
    + destruct (P x) eqn:Ex; [| reflexivity].
      destruct (P y); simpl; [now rewrite E |].
      (* no later element is smaller than [x] either *)
      clear IH. symmetry.
      assert (Hall : Forall (fun z => Sort.list_lt (fst z) (fst x) = false) l).
      { rewrite Forall_forall in *. intros z Hz.
        eapply key_le_trans; [exact E | now apply Hy]. }
      clear Hy Hl. induction Hall as [|z l Hz _ IH]; simpl; [reflexivity |].
      destruct (P z); simpl; [now rewrite Hz | exact IH].
Qed.

Lemma filter_sort (P : list Z * A -> bool) l :
  filter P (Sort.sort l) = Sort.sort (filter P l).
Proof.
  induction l as [|x l IH]; simpl; [reflexivity |].
  rewrite filter_insert by apply sort_sorted.
  rewrite IH. now destruct (P x).
Qed.

End SortFacts.

Section SortedLists.

Context {A : Type}.

Lemma strongly_sorted_app {R : A -> A -> Prop} (l1 l2 : list A) :
  StronglySorted R (l1 ++ l2) ->
  forall x y, In x l1 -> In y l2 -> R x y.
Proof.
  induction l1 as [|z l1 IH]; simpl; intros H x y Hx Hy; [destruct Hx |].
  inversion H as [|? ? Hs Hall]; subst.
  destruct Hx as [<- | Hx].
  - rewrite Forall_forall in Hall. apply Hall, in_or_app. now right.
  - now apply IH.
Qed.

(** In a sorted list, an element comes before every strictly greater one. *)
Lemma sorted_before {R : A -> A -> Prop} (l : list A) (a b : A) :
  StronglySorted R l -> In a l -> In b l -> a <> b -> ~ R b a ->
  exists l1 l2 l3, l = l1 ++ a :: l2 ++ b :: l3.
Proof.
  intros Hs Ha Hb Hne Hnot.
  apply in_split in Ha. destruct Ha as (l1 & l' & ->).
  apply in_app_or in Hb. destruct Hb as [Hb | [Hb | Hb]].
  - exfalso. apply Hnot.
    apply (strongly_sorted_app l1 (a :: l') Hs); [assumption | now left].
  - contradiction.
  - apply in_split in Hb. destruct Hb as (l2 & l3 & ->).
    now exists l1, l2, l3.
Qed.

Lemma strongly_sorted_map {B} (R : B -> B -> Prop) (f : A -> B) (l : list A) :
  StronglySorted (fun x y => R (f x) (f y)) l -> StronglySorted R (map f l).
Proof.
  induction 1 as [|x l Hs IH Hall]; simpl; constructor; [assumption |].
  rewrite Forall_forall in *. intros y Hy.
  apply in_map_iff in Hy. destruct Hy as (z & <- & Hz). now apply Hall.
Qed.

Lemma strongly_sorted_weaken (R R' : A -> A -> Prop) (Q : A -> Prop) (l : list A) :
  (forall x y, Q x -> Q y -> R x y -> R' x y) ->
  Forall Q l -> StronglySorted R l -> StronglySorted R' l.
Proof.
  intros HR HQ Hs. induction Hs as [|x l Hs IH Hall]; constructor.
  - apply IH. now inversion HQ.
  - inversion HQ as [|? ? Hx HQl]; subst.
    rewrite Forall_forall in *. intros y Hy. apply HR; auto.
Qed.

End SortedLists.

Section SortedFacts.

Context {A : Type}.
Variable key : A -> result (list Z).

(** The order that [sorted] establishes on the elements. *)
Lemma combine_keys (l : list A) (ks : list (list Z)) :
  map_result key l = Ok ks ->
  map snd (combine ks l) = l /\
  Forall (fun ka => key (snd ka) = Ok (fst ka)) (combine ks l).
Proof.
  intros H. apply map_result_ok in H.
  induction H as [|x k l ks Hk _ [IH1 IH2]]; simpl.
  - split; constructor.
  - split; [now rewrite IH1 | now constructor].
Qed.

Lemma sorted_spec (l order : list A) :
  Sort.sorted key l = Ok order ->
  Permutation order l /\
  StronglySorted
    (fun a b => exists ka kb,
         key a = Ok ka /\ key b = Ok kb /\ Sort.list_le ka kb) order.
Proof.
  unfold Sort.sorted. destruct (map_result key l) as [ks|e] eqn:E; simpl;
    [| discriminate].
  intros H. injection H as <-.
  destruct (combine_keys l ks E) as [Hsnd Hkeys]. split.
  - rewrite <- Hsnd at 2. apply Permutation_map, sort_perm.
  - apply strongly_sorted_map.
    apply strongly_sorted_weaken
      with (R := Sort.dec_le) (Q := fun ka => key (snd ka) = Ok (fst ka)).
    + intros x y Hx Hy Hle. now exists (fst x), (fst y).
    + rewrite Forall_forall in *. intros x Hx. apply Hkeys.
      now apply (Permutation_in _ (sort_perm _)).
    + apply sort_sorted.
Qed.

Lemma sorted_total (l : list A) :
  Forall (fun a => exists k, key a = Ok k) l ->
  exists order, Sort.sorted key l = Ok order.
Proof.
  intros H. apply map_result_total in H. destruct H as [ks H].
  unfold Sort.sorted. rewrite H. simpl. eauto.
Qed.

(** [sorted] is stable: it commutes with the removal of elements. *)
Lemma sorted_filter (P : A -> bool) (l order : list A) :
  Sort.sorted key l = Ok order ->
  Sort.sorted key (filter P l) = Ok (filter P order).
Proof.
  unfold Sort.sorted. destruct (map_result key l) as [ks|e] eqn:E; simpl;
    [| discriminate].
  intros H. injection H as <-.
  assert (Hf : exists ks',
             map_result key (filter P l) = Ok ks' /\
             combine ks' (filter P l) =
             filter (fun ka => P (snd ka)) (combine ks l)).
  { apply map_result_ok in E.
    induction E as [|x k l ks Hk _ (ks' & IH1 & IH2)]; simpl.
    - now exists [].
    - destruct (P x); simpl.
      + rewrite Hk, IH1. simpl. exists (k :: ks'). split; [reflexivity |].
        simpl. now rewrite IH2.
      + now exists ks'. }
  destruct Hf as (ks' & H1 & H2). rewrite H1. simpl. rewrite H2. f_equal.
  rewrite <- filter_sort.
  generalize (Sort.sort (combine ks l)). intros m.
  induction m as [|[k a] m IH]; simpl; [reflexivity |].
  destruct (P a); simpl; now rewrite IH.
Qed.

End SortedFacts.

(** ** Session ids and their sort key *)

Section SessionIds.

Local Open Scope string_scope.

Lemma digit_not_dot (c : ascii) :
  Str.is_digit c = true -> Ascii.eqb c "." = false.
Proof.
  intros H. destruct (Ascii.eqb_spec c "."%char) as [-> | ]; [| reflexivity].
  discriminate.
Qed.

Lemma split_digits (d : string) :
  Str.all Str.is_digit d = true -> Str.split "." d = [d].
Proof.
  induction d as [|c d IH]; simpl; [reflexivity |].
  intros H. apply andb_true_iff in H. destruct H as [Hc Hd].
  rewrite (digit_not_dot c Hc), (IH Hd). reflexivity.
Qed.

Lemma split_digits_dot (d rest : string) :
  Str.all Str.is_digit d = true ->
  Str.split "." (d ++ "." ++ rest) = d :: Str.split "." rest.
Proof.
  induction d as [|c d IH]; simpl in *; [reflexivity |].
  intros H. apply andb_true_iff in H. destruct H as [Hc Hd].
  rewrite (digit_not_dot c Hc), (IH Hd). reflexivity.
Qed.

Lemma int_some_digits (d : string) (n : Z) :
  Str.int d = Some n -> d <> "" /\ Str.all Str.is_digit d = true.
Proof.
  unfold Str.int. destruct d as [|c d]; [discriminate |].
  destruct (Str.all Str.is_digit (String c d)); [| discriminate].
  intros _. split; [discriminate | reflexivity].
Qed.

Lemma int_digits (d : string) :
  d <> "" -> Str.all Str.is_digit d = true -> exists n, Str.int d = Some n.
Proof.
  unfold Str.int. destruct d as [|c d]; [congruence |].
  intros _ ->. eauto.
Qed.

Lemma session_key_dotted (sid : string) (p s : Z) :
  Spec.dotted sid p s -> session_key sid = Ok [p; s].
Proof.
  intros (d1 & d2 & -> & H1 & H2). unfold session_key.
  destruct (int_some_digits _ _ H1) as [_ Hd1].
  destruct (int_some_digits _ _ H2) as [_ Hd2].
  rewrite (split_digits_dot _ _ Hd1), (split_digits _ Hd2).
  simpl. rewrite H1, H2. reflexivity.
Qed.

(** On two dotted ids, the order of the keys is the numeric order of the
    primary component, then of the secondary one. *)
Lemma pair_key_le (p1 s1 p2 s2 : Z) :
  Sort.list_le [p1; s1] [p2; s2] <->
  (p1 < p2 \/ (p1 = p2 /\ s1 <= s2))%Z.
Proof.
  unfold Sort.list_le. simpl.
  destruct (Z.eqb_spec p2 p1) as [-> | Hne].
  - destruct (Z.eqb_spec s2 s1) as [-> | Hne'].
    + split; [intros _; right; split; [reflexivity | apply Z.le_refl] | reflexivity].
    + rewrite Z.ltb_ge. lia.
  - rewrite Z.ltb_ge. lia.
Qed.

Lemma key_le_id_le (a b : string) (ka kb : list Z) :
  (exists p s, Spec.dotted a p s) -> (exists p s, Spec.dotted b p s) ->
  session_key a = Ok ka -> session_key b = Ok kb ->
  Sort.list_le ka kb -> Spec.id_le a b.
Proof.
  intros (p1 & s1 & Ha) (p2 & s2 & Hb) Hka Hkb Hle.
  rewrite (session_key_dotted _ _ _ Ha) in Hka.
  rewrite (session_key_dotted _ _ _ Hb) in Hkb.
  injection Hka as <-. injection Hkb as <-.
  exists p1, s1, p2, s2. repeat split; try assumption.
  now apply pair_key_le.
Qed.

(** The first group of a match of the pattern is a dotted pair. *)
Lemma pattern_sid_dotted (name sid kind : string) :
  Re.match_ pattern name = Some (sid, kind) ->
  exists p s, Spec.dotted sid p s.
Proof.
  intros H. apply pattern_match_iff in H.
  destruct H as (p & d1 & d2 & e & r & _ & _ & Hd1 & Hd1' & Hd2 & Hd2' & _ & _ & ->).
  destruct (int_digits _ Hd1 Hd1') as [n1 H1].
  destruct (int_digits _ Hd2 Hd2') as [n2 H2].
  exists n1, n2, d1, d2. now repeat split.
Qed.

End SessionIds.

(** ** One session of the merge loop *)

Section SessionFacts.

Variables page dim : Type.
Variable mediabox_width mediabox_height : page -> dim.
Variable A4 : dim * dim.
Variable PdfReader : string -> option (list page).

Implicit Types (r s p : list page) (out : list (out_page page dim)).
Implicit Types (pair : Dict.t string).

(** The drop-last count is the length less one, and never negative. *)
Lemma copy_count_pred r : copy_count r = length r - 1.
Proof. unfold copy_count. lia. Qed.

Lemma skipn_nth_error r (i : nat) (x : page) :
  nth_error r i = Some x -> skipn i r = x :: skipn (S i) r.
Proof.
  revert i. induction r as [|y r IH]; intros [|i]; simpl; try discriminate.
  - intros H. now injection H as ->.
  - intros H. now rewrite (IH i H).
Qed.

Lemma add_pages_from r (n i : nat) out :
  i + n <= length r ->
  for_each
    (fun i out =>
       (p <- of_option (nth_error r i) IndexError ;;
        Ok (out ++ [Copied p]))%res)
    (seq i n) out
  = Ok (out ++ map Copied (firstn n (skipn i r))).
Proof.
  revert i out. induction n as [|n IH]; intros i out Hle; simpl.
  - now rewrite app_nil_r.
  - destruct (nth_error r i) as [x|] eqn:E.
    + simpl. rewrite IH by lia.
      rewrite (skipn_nth_error r i x E). simpl.
      now rewrite <- app_assoc.
    + apply nth_error_None in E. lia.
Qed.

(** Copying never fails: it appends every page but the last. *)
Lemma add_pages_spec r out : add_pages r out = Ok (out ++ kept r).
Proof.
  unfold add_pages. rewrite add_pages_from by (rewrite copy_count_pred; lia).
  unfold kept. rewrite copy_count_pred, removelast_firstn_len.
  simpl. now rewrite Nat.sub_1_r.
Qed.

Lemma length_kept r : length (@kept page dim r) = length r - 1.
Proof.
  unfold kept. rewrite length_map, removelast_firstn_len, length_firstn. lia.
Qed.

Lemma odd_mod2 (n : nat) :
  negb (Z.of_nat n mod 2 =? 0)%Z = Nat.odd n.
Proof.
  rewrite <- Nat.negb_even. f_equal.
  destruct (Nat.even n) eqn:E.
  - apply Nat.even_spec in E. destruct E as [k ->].
    apply Z.eqb_eq. rewrite Nat2Z.inj_mul, Z.mul_comm. apply Z.mod_mul. lia.
  - apply Z.eqb_neq. intros H.
    assert (Ho : Nat.odd n = true) by (now rewrite <- Nat.negb_even, E).
    apply Nat.odd_spec in Ho. destruct Ho as [k ->].
    rewrite Nat2Z.inj_add, Nat2Z.inj_mul, Z.add_comm, Z.mul_comm in H.
    rewrite Z.mod_add in H by lia. discriminate.
Qed.

Lemma odd_added_app out (c : list (out_page page dim)) (w h : option dim) :
  odd_added (length out) (Locals w h (out ++ c)) = Nat.odd (length c).
Proof.
  unfold odd_added. simpl. rewrite length_app, <- odd_mod2.
  replace (Z.of_nat (length out + length c) - Z.of_nat (length out))%Z
    with (Z.of_nat (length c)) by lia.
  reflexivity.
Qed.

(** A session without summary is skipped: nothing is read or appended. *)
Lemma process_session_skip pair out :
  Dict.get pair "sum" = None ->
  process_session mediabox_width mediabox_height A4 PdfReader pair out = Ok out.
Proof.
  intros H. unfold process_session, include_sum. now rewrite H.
Qed.

Lemma process_session_sum_unreadable pair out (sum_file : string) :
  Dict.get pair "sum" = Some sum_file -> PdfReader sum_file = None ->
  process_session mediabox_width mediabox_height A4 PdfReader pair out
  = Raise (PdfReadError sum_file).
Proof.
  intros H E. unfold process_session, include_sum, read_pdf.
  now rewrite H, E.
Qed.

Lemma process_session_prob_unreadable pair out (sum_file prob_file : string) s :
  Dict.get pair "sum" = Some sum_file -> PdfReader sum_file = Some s ->
  Dict.get pair "prob" = Some prob_file -> PdfReader prob_file = None ->
  process_session mediabox_width mediabox_height A4 PdfReader pair out
  = Raise (PdfReadError prob_file).
Proof.
  intros H E H' E'. unfold process_session, include_sum, include_prob, read_pdf.
  rewrite H, E. cbn -[add_pages].
  destruct s as [|p0 s]; rewrite add_pages_spec; simpl; now rewrite H', E'.
Qed.

(** The state after the two copies, and what the padding makes of it. *)
Lemma include_sum_spec pair out (sum_file : string) s :
  Dict.get pair "sum" = Some sum_file -> PdfReader sum_file = Some s ->
  include_sum mediabox_width mediabox_height PdfReader pair out
  = Ok (Some (Locals (option_map fst (reference_size mediabox_width mediabox_height s []))
                     (option_map snd (reference_size mediabox_width mediabox_height s []))
                     (out ++ kept s))).
Proof.
  intros H E. unfold include_sum, read_pdf. rewrite H, E. cbn -[add_pages].
  destruct s as [|p0 s]; now rewrite add_pages_spec.
Qed.

Lemma include_prob_spec pair (w h : option dim) out s p :
  w = option_map fst (reference_size mediabox_width mediabox_height s []) ->
  h = option_map snd (reference_size mediabox_width mediabox_height s []) ->
  prob_pages PdfReader pair = Ok p ->
  include_prob mediabox_width mediabox_height PdfReader pair (Locals w h out)
  = Ok (Locals (option_map fst (reference_size mediabox_width mediabox_height s p))
               (option_map snd (reference_size mediabox_width mediabox_height s p))
               (out ++ kept p)).
Proof.
  intros -> -> Hp. unfold include_prob, prob_pages, read_pdf in *.
  destruct (Dict.get pair "prob") as [prob_file|].
  - destruct (PdfReader prob_file) as [p'|]; [| discriminate].
    injection Hp as ->.
    destruct s as [|s0 s], p as [|p0 p]; cbn -[add_pages];
      now rewrite add_pages_spec.
  - injection Hp as <-. unfold kept. simpl. rewrite app_nil_r.
    now destruct s.
Qed.

Lemma ensure_even_spec out s p :
  ensure_even A4 (length out)
    (Locals (option_map fst (reference_size mediabox_width mediabox_height s p))
            (option_map snd (reference_size mediabox_width mediabox_height s p))
            ((out ++ kept s) ++ kept p))
  = out ++ content s p ++ padding mediabox_width mediabox_height A4 s p.
Proof.
  unfold ensure_even, padding, content.
  rewrite <- (app_assoc out), odd_added_app.
  destruct (Nat.odd (length (kept s ++ kept p))).
  - unfold filler_size. simpl.
    destruct (reference_size mediabox_width mediabox_height s p) as [[w h]|];
      simpl; now rewrite <- !app_assoc.
  - simpl. now rewrite app_nil_r.
Qed.

(** A session with a readable summary and a readable or absent problem
    document appends its content and its padding. *)
Lemma process_session_spec pair out (sum_file : string) s p :
  Dict.get pair "sum" = Some sum_file -> PdfReader sum_file = Some s ->
  prob_pages PdfReader pair = Ok p ->
  process_session mediabox_width mediabox_height A4 PdfReader pair out
  = Ok (out ++ content s p ++ padding mediabox_width mediabox_height A4 s p).
Proof.
  intros H E Hp. unfold process_session.
  rewrite (include_sum_spec pair out sum_file s H E). simpl.
  rewrite (include_prob_spec pair _ _ _ s p eq_refl eq_refl Hp). simpl.
  now rewrite ensure_even_spec.
Qed.

(** What a session appends does not depend on the pages before it. *)
Lemma process_session_append pair out :
  process_session mediabox_width mediabox_height A4 PdfReader pair out
  = (c <- process_session mediabox_width mediabox_height A4 PdfReader pair [] ;;
     Ok (out ++ c))%res.
Proof.
  destruct (Dict.get pair "sum") as [sum_file|] eqn:H.
  - destruct (PdfReader sum_file) as [s|] eqn:E.
    + destruct (prob_pages PdfReader pair) as [p|e] eqn:Hp.
      * now rewrite !(process_session_spec pair _ _ _ _ H E Hp).
      * unfold prob_pages, read_pdf in Hp.
        destruct (Dict.get pair "prob") as [prob_file|] eqn:H'; [| discriminate].
        destruct (PdfReader prob_file) eqn:E'; [discriminate |].
        now rewrite !(process_session_prob_unreadable pair _ _ _ _ H E H' E').
    + now rewrite !(process_session_sum_unreadable pair _ _ H E).
  - rewrite !process_session_skip by assumption. simpl. now rewrite app_nil_r.
Qed.

End SessionFacts.

(** ** The merge loop *)

Section LoopFacts.

Variables page dim : Type.
Variable mediabox_width mediabox_height : page -> dim.
Variable A4 : dim * dim.
Variable PdfReader : string -> option (list page).

Implicit Types (ss : Dict.t (Dict.t string)) (pair : Dict.t string).
Implicit Types (out : list (out_page page dim)).

Lemma for_each_pages ss (l : list string) out :
  for_each
    (fun ses out =>
       (pair <- of_option (Dict.get ss ses) KeyError ;;
        process_session mediabox_width mediabox_height A4 PdfReader pair out)%res)
    l out
  = (cs <- map_result
             (session_pages mediabox_width mediabox_height A4 PdfReader ss) l ;;
     Ok (out ++ concat cs))%res.
Proof.
  revert out. induction l as [|ses l IH]; intros out; simpl.
  - now rewrite app_nil_r.
  - unfold session_pages at 1.
    destruct (Dict.get ss ses) as [pair|]; simpl; [| reflexivity].
    rewrite process_session_append.
    destruct (process_session _ _ _ _ pair []) as [c|e]; simpl; [| reflexivity].
    rewrite IH.
    destruct (map_result _ l) as [cs|e]; simpl; [| reflexivity].
    now rewrite app_assoc.
Qed.

(** The output is the concatenation, in processing order, of what each
    session appends. *)
Lemma merge_loop_spec ss :
  merge_loop mediabox_width mediabox_height A4 PdfReader ss
  = (order <- session_order ss ;;
     cs <- map_result
             (session_pages mediabox_width mediabox_height A4 PdfReader ss)
             order ;;
     Ok (concat cs))%res.
Proof.
  unfold merge_loop. destruct (session_order ss) as [order|e]; simpl;
    [| reflexivity].
  now rewrite for_each_pages.
Qed.

(** One entry either is processed, all the PDFs it opens being readable,
    or stops the run at a PDF that it opens and cannot read. *)
Lemma process_session_cases pair :
  (exists c,
      process_session mediabox_width mediabox_height A4 PdfReader pair [] = Ok c /\
      forall p, In p (opened pair) -> PdfReader p <> None)
  \/
  (exists p,
      In p (opened pair) /\ PdfReader p = None /\
      process_session mediabox_width mediabox_height A4 PdfReader pair []
      = Raise (PdfReadError p)).
Proof.
  unfold opened.
  destruct (Dict.get pair "sum") as [sum_file|] eqn:H.
  - destruct (PdfReader sum_file) as [s|] eqn:E.
    + destruct (Dict.get pair "prob") as [prob_file|] eqn:H'.
      * destruct (PdfReader prob_file) as [p|] eqn:E'.
        -- left. eexists. split.
           ++ apply (process_session_spec _ _ _ _ _ _ pair [] sum_file s p H E).
              unfold prob_pages, read_pdf. now rewrite H', E'.
           ++ intros q [<- | [<- | []]]; congruence.
        -- right. exists prob_file. split; [right; now left |].
           split; [assumption |].
           now apply (process_session_prob_unreadable _ _ _ _ _ _ pair [] sum_file prob_file s).
      * left. eexists. split.
        -- apply (process_session_spec _ _ _ _ _ _ pair [] sum_file s [] H E).
           unfold prob_pages. now rewrite H'.
        -- intros q [<- | []]. congruence.
    + right. exists sum_file. split; [now left |]. split; [assumption |].
      now apply process_session_sum_unreadable.
  - left. exists []. split; [now apply process_session_skip | intros p []].
Qed.

Lemma in_opened_by ss (ses : string) pair (p : string) :
  In (ses, pair) ss -> In p (opened pair) -> In p (opened_by ss).
Proof.
  intros H Hp. unfold opened_by. apply in_flat_map. now exists (ses, pair).
Qed.

Lemma map_pages_cases ss (l : list string) :
  Forall (fun ses => In ses (Dict.keys ss)) l ->
  (exists cs,
      map_result (session_pages mediabox_width mediabox_height A4 PdfReader ss) l
      = Ok cs /\
      forall ses pair p,
        In ses l -> Dict.get ss ses = Some pair -> In p (opened pair) ->
        PdfReader p <> None)
  \/
  (exists p,
      In p (opened_by ss) /\ PdfReader p = None /\
      map_result (session_pages mediabox_width mediabox_height A4 PdfReader ss) l
      = Raise (PdfReadError p)).
Proof.
  induction 1 as [|ses l Hses _ IH]; simpl.
  - left. exists []. split; [reflexivity | intros ? ? ? []].
  - apply get_in_keys in Hses. destruct Hses as [pair Hget].
    unfold session_pages at 1 3. rewrite Hget. simpl.
    destruct (process_session_cases pair) as [(c & -> & Hc) | (p & Hp & Ep & ->)].
    + simpl. destruct IH as [(cs & -> & Hcs) | (p & Hp & Ep & ->)].
      * left. exists (c :: cs). split; [reflexivity |].
        intros ses' pair' p [<- | Hin] Hget' Hp.
        -- rewrite Hget in Hget'. injection Hget' as <-. now apply Hc.
        -- now apply (Hcs ses' pair').
      * right. now exists p.
    + right. exists p. split; [| now split].
      apply (in_opened_by ss ses pair); [now apply get_some_in | assumption].
Qed.

(** The two outcomes of the loop on a well-formed mapping: every PDF it
    opens is readable and the output is complete, or it stops at a PDF
    that it opens and cannot read. *)
Lemma merge_loop_cases ss :
  mapping_ok ss ->
  (exists order cs,
      session_order ss = Ok order /\
      map_result (session_pages mediabox_width mediabox_height A4 PdfReader ss)
        order = Ok cs /\
      merge_loop mediabox_width mediabox_height A4 PdfReader ss
      = Ok (concat cs) /\
      forall p, In p (opened_by ss) -> PdfReader p <> None)
  \/
  (exists p,
      In p (opened_by ss) /\ PdfReader p = None /\
      merge_loop mediabox_width mediabox_height A4 PdfReader ss
      = Raise (PdfReadError p)).
Proof.
  intros [Hnd Hwf]. rewrite merge_loop_spec.
  destruct (sorted_total session_key (Dict.keys ss)) as [order Ho].
  { rewrite Forall_forall in *. intros k Hk.
    destruct (Hwf k Hk) as (p & s & Hd).
    eexists. now apply (session_key_dotted k p s). }
  unfold session_order. rewrite Ho. simpl.
  destruct (sorted_spec session_key _ _ Ho) as [Hperm _].
  destruct (map_pages_cases ss order) as [(cs & Hcs & Hall) | (p & Hp & Ep & Hr)].
  { rewrite Forall_forall. intros k Hk. now apply (Permutation_in _ Hperm). }
  - left. exists order, cs. rewrite Hcs. simpl. repeat split; try reflexivity.
    intros p Hp. unfold opened_by in Hp. apply in_flat_map in Hp.
    destruct Hp as ([ses pair] & Hin & Hp). simpl in Hp.
    apply (Hall ses pair p); [| now apply in_get | assumption].
    apply (Permutation_in _ (Permutation_sym Hperm)).
    change ses with (fst (ses, pair)). now apply in_map.
  - right. exists p. rewrite Hr. now repeat split.
Qed.

End LoopFacts.

(** ** Collecting the session files *)

Section CollectFacts.

Variable listdir : string -> option (list string).

Lemma fold_left_invariant {S X : Type} (P : S -> Prop) (f : S -> X -> S)
    (l : list X) (a : S) :
  (forall acc x, P acc -> P (f acc x)) -> P a -> P (fold_left f l a).
Proof.
  intros Hf. revert a. induction l as [|x l IH]; simpl; intros a Ha;
    [assumption |].
  apply IH, Hf, Ha.
Qed.

Lemma mapping_ok_set (m : Dict.t (Dict.t string)) (k : string) (v : Dict.t string) :
  mapping_ok m -> Spec.is_session_id k -> mapping_ok (Dict.set m k v).
Proof.
  intros [Hnd Hwf] Hk. split; [now apply NoDup_keys_set |].
  rewrite Forall_forall in *. intros x Hx.
  apply in_keys_set in Hx. destruct Hx as [-> | Hx]; auto.
Qed.

Lemma collect_file_ok (folder : string) (m : Dict.t (Dict.t string)) (f : string) :
  mapping_ok m -> mapping_ok (collect_file folder m f).
Proof.
  intros Hm. unfold collect_file.
  destruct (Re.match_ pattern f) as [[sesnum kind]|] eqn:E; [| assumption].
  apply mapping_ok_set; [assumption |].
  now apply (pattern_sid_dotted f sesnum kind).
Qed.

Lemma mapping_ok_nil : mapping_ok [].
Proof. split; constructor. Qed.

Lemma collect_files_from_ok (folder : string) :
  mapping_ok (collect_files_from listdir folder).
Proof.
  unfold collect_files_from. destruct (listdir folder) as [names|].
  - apply fold_left_invariant; [| apply mapping_ok_nil].
    intros acc x. apply collect_file_ok.
  - apply mapping_ok_nil.
Qed.

Lemma merge_entries_ok (acc files : Dict.t (Dict.t string)) :
  mapping_ok acc -> Forall Spec.is_session_id (Dict.keys files) ->
  mapping_ok (merge_entries acc files).
Proof.
  unfold merge_entries. revert acc.
  induction files as [|[ses entry] files IH]; simpl; intros acc Hacc Hwf;
    [assumption |].
  inversion Hwf as [|? ? Hses Hwf']; subst.
  apply IH; [| assumption]. now apply mapping_ok_set.
Qed.

(** The combined mapping has distinct keys, all of them dotted pairs of
    integers: sorting it never fails. *)
Lemma sessions_ok : mapping_ok (sessions listdir).
Proof.
  unfold sessions.
  apply merge_entries_ok; [apply merge_entries_ok; [apply mapping_ok_nil |] |];
    apply collect_files_from_ok.
Qed.

Lemma collect_missing_as_empty (folder : string) :
  collect_files_from (missing_as_empty listdir) folder
  = collect_files_from listdir folder.
Proof.
  unfold collect_files_from, missing_as_empty.
  now destruct (listdir folder).
Qed.

Lemma sessions_missing_as_empty :
  sessions (missing_as_empty listdir) = sessions listdir.
Proof.
  unfold sessions, sum_files, prob_files.
  now rewrite !collect_missing_as_empty.
Qed.

End CollectFacts.

(** ** The whole run *)

Section RunFacts.

Variables page dim : Type.
Variable mediabox_width mediabox_height : page -> dim.
Variable A4 : dim * dim.
Variable listdir : string -> option (list string).
Variable PdfReader : string -> option (list page).
Variable console : message -> bool.
Variable open_out : bool.
Variable out_write : list (out_page page dim) -> bool.

(** The body with its messages does what the body does, unless a message
    cannot be shown. *)
Lemma process_session_io_cases (pair : Dict.t string)
    (out0 : list (out_page page dim)) :
  process_session_io mediabox_width mediabox_height A4 PdfReader console pair out0
  = process_session mediabox_width mediabox_height A4 PdfReader pair out0
  \/
  process_session_io mediabox_width mediabox_height A4 PdfReader console pair out0
  = Raise UnicodeEncodeError.
Proof.
  unfold process_session_io, process_session, print.
  destruct (console Processing); simpl; [| now right].
  destruct (console (if Dict.mem pair "sum" then SumFound else SumMissing));
    simpl; [| now right].
  destruct (include_sum _ _ _ pair out0) as [[st|]|e]; simpl;
    [| now left | now left].
  destruct (console (if Dict.mem pair "prob" then ProbFound else ProbMissing));
    simpl; [| now right].
  destruct (include_prob _ _ _ pair st) as [st'|e]; simpl; [| now left].
  destruct (odd_added (length out0) st'); simpl; [| now left].
  destruct (console AddingFiller); simpl; [now left | now right].
Qed.

(** A session without summary is passed over, when its two messages can
    be shown. *)
Lemma process_session_io_skip (pair : Dict.t string)
    (out0 : list (out_page page dim)) :
  Dict.get pair "sum" = None ->
  console Processing = true -> console SumMissing = true ->
  process_session_io mediabox_width mediabox_height A4 PdfReader console pair out0
  = Ok out0.
Proof.
  intros Hsum H1 H2. unfold process_session_io, print, include_sum, Dict.mem.
  rewrite Hsum, H1. simpl. now rewrite H2.
Qed.

Lemma for_each_io_cases (ss : Dict.t (Dict.t string)) (l : list string)
    (out0 : list (out_page page dim)) :
  for_each
    (fun ses out =>
       (pair <- of_option (Dict.get ss ses) KeyError ;;
        process_session_io mediabox_width mediabox_height A4 PdfReader console
          pair out)%res)
    l out0
  = for_each
      (fun ses out =>
         (pair <- of_option (Dict.get ss ses) KeyError ;;
          process_session mediabox_width mediabox_height A4 PdfReader pair out)%res)
      l out0
  \/
  for_each
    (fun ses out =>
       (pair <- of_option (Dict.get ss ses) KeyError ;;
        process_session_io mediabox_width mediabox_height A4 PdfReader console
          pair out)%res)
    l out0
  = Raise UnicodeEncodeError.
Proof.
  revert out0. induction l as [|ses l IH]; intros out0; simpl; [now left |].
  destruct (Dict.get ss ses) as [pair|]; simpl; [| now left].
  destruct (process_session_io_cases pair out0) as [-> | ->]; [| now right].
  destruct (process_session _ _ _ _ pair out0) as [out1|e]; [apply IH | now left].
Qed.

(** The loop with its messages does what the loop does, unless a message
    cannot be shown. *)
Lemma merge_loop_io_cases (ss : Dict.t (Dict.t string)) :
  merge_loop_io mediabox_width mediabox_height A4 PdfReader console ss
  = merge_loop mediabox_width mediabox_height A4 PdfReader ss
  \/
  merge_loop_io mediabox_width mediabox_height A4 PdfReader console ss
  = Raise UnicodeEncodeError.
Proof.
  unfold merge_loop_io, merge_loop.
  destruct (session_order ss) as [order|e]; simpl; [| now left].
  apply for_each_io_cases.
Qed.

(** On a console that shows every message, the loop with its messages is
    the loop. *)
Lemma process_session_io_shown (pair : Dict.t string)
    (out0 : list (out_page page dim)) :
  (forall m, console m = true) ->
  process_session_io mediabox_width mediabox_height A4 PdfReader console pair out0
  = process_session mediabox_width mediabox_height A4 PdfReader pair out0.
Proof.
  intros Hcon. unfold process_session_io, process_session, print.
  rewrite !Hcon. simpl.
  destruct (include_sum _ _ _ pair out0) as [[st|]|e]; simpl; try reflexivity.
  destruct (include_prob _ _ _ pair st) as [st'|e]; simpl; [| reflexivity].
  now destruct (odd_added (length out0) st').
Qed.

Lemma merge_loop_io_shown (ss : Dict.t (Dict.t string)) :
  (forall m, console m = true) ->
  merge_loop_io mediabox_width mediabox_height A4 PdfReader console ss
  = merge_loop mediabox_width mediabox_height A4 PdfReader ss.
Proof.
  intros Hcon. unfold merge_loop_io, merge_loop.
  destruct (session_order ss) as [order|e]; simpl; [| reflexivity].
  generalize (@nil (out_page page dim)).
  induction order as [|ses l IH]; intros out0; simpl; [reflexivity |].
  destruct (Dict.get ss ses) as [pair|]; simpl; [| reflexivity].
  rewrite process_session_io_shown by assumption.
  destruct (process_session _ _ _ _ pair out0) as [out1|e];
    [apply IH | reflexivity].
Qed.

(** The ways in which the script ends: at the check of the mapping; in
    the loop, at a message that cannot be shown or at a PDF that cannot
    be read; and after a loop that has completed, at the opening of the
    output file, in the write, at the last message, or normally. *)
Lemma main_cases (merged : option (merged_pdf page dim)) :
  (sessions listdir = [] /\
   main mediabox_width mediabox_height A4 listdir PdfReader
     console open_out out_write merged
   = (Raise (SystemExit 1), merged))
  \/
  (sessions listdir <> [] /\
   merge_loop_io mediabox_width mediabox_height A4 PdfReader console
     (sessions listdir) = Raise UnicodeEncodeError /\
   main mediabox_width mediabox_height A4 listdir PdfReader
     console open_out out_write merged
   = (Raise UnicodeEncodeError, merged))
  \/
  (sessions listdir <> [] /\
   exists p,
     In p (opened_by (sessions listdir)) /\ PdfReader p = None /\
     main mediabox_width mediabox_height A4 listdir PdfReader
       console open_out out_write merged
     = (Raise (PdfReadError p), merged))
  \/
  (sessions listdir <> [] /\
   exists order cs,
     session_order (sessions listdir) = Ok order /\
     map_result
       (session_pages mediabox_width mediabox_height A4 PdfReader
          (sessions listdir)) order = Ok cs /\
     (forall p, In p (opened_by (sessions listdir)) -> PdfReader p <> None) /\
     merge_sessions mediabox_width mediabox_height A4 listdir PdfReader
     = Ok (concat cs) /\
     merge_loop_io mediabox_width mediabox_height A4 PdfReader console
       (sessions listdir) = Ok (concat cs) /\
     ((open_out = false /\
       main mediabox_width mediabox_height A4 listdir PdfReader
         console open_out out_write merged
       = (Raise OSError, merged))
      \/
      (open_out = true /\ out_write (concat cs) = false /\
       main mediabox_width mediabox_height A4 listdir PdfReader
         console open_out out_write merged
       = (Raise WriteError, Some (Truncated (concat cs))))
      \/
      (open_out = true /\ out_write (concat cs) = true /\
       console Done = false /\
       main mediabox_width mediabox_height A4 listdir PdfReader
         console open_out out_write merged
       = (Raise UnicodeEncodeError, Some (Document (concat cs))))
      \/
      (open_out = true /\ out_write (concat cs) = true /\
       console Done = true /\
       main mediabox_width mediabox_height A4 listdir PdfReader
         console open_out out_write merged
       = (Ok tt, Some (Document (concat cs)))))).
Proof.
  unfold main.
  destruct (sessions listdir) as [|se ss] eqn:Hss; [now left | right].
  rewrite <- Hss.
  assert (Hne : sessions listdir <> []) by (rewrite Hss; discriminate).
  destruct (merge_loop_io_cases (sessions listdir)) as [E | E];
    [| left; rewrite E; now repeat split].
  right. rewrite E.
  destruct (merge_loop_cases _ _ mediabox_width mediabox_height A4 PdfReader
              (sessions listdir) (sessions_ok listdir))
    as [(order & cs & Ho & Hcs & El & Hall) | (p & Hp & Ep & El)].
  - right. split; [exact Hne |]. exists order, cs.
    rewrite El. do 3 (split; [assumption |]).
    split; [unfold merge_sessions; now rewrite Hss, <- Hss |].
    split; [reflexivity |].
    unfold print.
    destruct open_out; simpl; [| now left].
    destruct (out_write (concat cs)); simpl; [| right; now left].
    destruct (console Done); right; right; [right | left]; now repeat split.
  - left. split; [exact Hne |]. exists p. rewrite El. now repeat split.
Qed.

(** Dropping a session without summary from a mapping does not change
    what the loop does. *)
Lemma for_each_without (ss : Dict.t (Dict.t string)) (ses : string)
    (pair : Dict.t string) (l : list string) (out0 : list (out_page page dim)) :
  Dict.get ss ses = Some pair -> Dict.get pair "sum" = None ->
  for_each
    (fun x out =>
       (pr <- of_option (Dict.get ss x) KeyError ;;
        process_session mediabox_width mediabox_height A4 PdfReader pr out)%res)
    l out0
  = for_each
      (fun x out =>
         (pr <- of_option (Dict.get (Dict.remove ss ses) x) KeyError ;;
          process_session mediabox_width mediabox_height A4 PdfReader pr out)%res)
      (filter (fun x => negb (String.eqb x ses)) l) out0.
Proof.
  intros Hget Hsum. revert out0. induction l as [|x l IH]; intros out0; simpl;
    [reflexivity |].
  destruct (String.eqb_spec x ses) as [-> | Hne]; simpl.
  - rewrite Hget. simpl. rewrite process_session_skip by assumption. apply IH.
  - rewrite get_remove_other by congruence.
    destruct (Dict.get ss x) as [pr|]; simpl; [| reflexivity].
    destruct (process_session _ _ _ _ pr out0); [apply IH | reflexivity].
Qed.

Lemma merge_loop_without (ss : Dict.t (Dict.t string)) (ses : string)
    (pair : Dict.t string) :
  mapping_ok ss ->
  Dict.get ss ses = Some pair -> Dict.get pair "sum" = None ->
  merge_loop mediabox_width mediabox_height A4 PdfReader ss
  = merge_loop mediabox_width mediabox_height A4 PdfReader (Dict.remove ss ses).
Proof.
  intros [Hnd Hwf] Hget Hsum. unfold merge_loop, session_order.
  destruct (sorted_total session_key (Dict.keys ss)) as [order Ho].
  { rewrite Forall_forall in *. intros k Hk.
    destruct (Hwf k Hk) as (p & s & Hd).
    eexists. now apply (session_key_dotted k p s). }
  rewrite keys_remove.
  rewrite (sorted_filter session_key _ _ _ Ho), Ho. simpl.
  now apply for_each_without with (pair := pair).
Qed.

End RunFacts.

(** ** Where the paths of the mapping come from *)

Section PathFacts.

Variable listdir : string -> option (list string).

Lemma in_set {V : Type} (d : Dict.t V) (k k' : string) (v v' : V) :
  In (k, v) (Dict.set d k' v') -> (k = k' /\ v = v') \/ In (k, v) d.
Proof.
  induction d as [|[k0 v0] d IH]; simpl.
  - intros [H | []]. injection H as <- <-. now left.
  - destruct (String.eqb_spec k0 k') as [-> | Hne]; simpl.
    + intros [H | H]; [injection H as <- <-; now left | right; now right].
    + intros [H | H]; [right; now left |].
      destruct (IH H) as [Heq | Hin]; [now left | right; now right].
Qed.

Lemma in_update {V : Type} (d e : Dict.t V) (k : string) (v : V) :
  In (k, v) (Dict.update d e) -> In (k, v) e \/ In (k, v) d.
Proof.
  unfold Dict.update. revert d. induction e as [|[k0 v0] e IH]; simpl; intros d H.
  - now right.
  - apply IH in H. destruct H as [H | H]; [left; now right |].
    apply in_set in H. destruct H as [[-> ->] | H]; [left; now left | now right].
Qed.

Lemma get_default_in {V : Type} (d : Dict.t (Dict.t V)) (k k' : string) (v : V) :
  In (k', v) (Dict.get_default d k []) ->
  exists e, In (k, e) d /\ In (k', v) e.
Proof.
  unfold Dict.get_default. destruct (Dict.get d k) as [e|] eqn:E; [| intros []].
  intros H. exists e. split; [now apply get_some_in | assumption].
Qed.

Lemma collect_file_paths (folder : string) (m : Dict.t (Dict.t string)) (f : string) :
  (forall ses pair kind path,
      In (ses, pair) m -> In (kind, path) pair ->
      from_session_file folder ses path) ->
  forall ses pair kind path,
    In (ses, pair) (collect_file folder m f) -> In (kind, path) pair ->
    from_session_file folder ses path.
Proof.
  intros Hm ses pair kind path. unfold collect_file.
  destruct (Re.match_ pattern f) as [[sesnum k]|] eqn:E; [| apply Hm].
  intros H Hp. apply in_set in H. destruct H as [[-> ->] | H].
  - apply in_set in Hp. destruct Hp as [[-> ->] | Hp].
    + now exists f, k.
    + apply get_default_in in Hp. destruct Hp as (e & He & Hp).
      now apply (Hm sesnum e kind path).
  - now apply (Hm ses pair kind path).
Qed.

Lemma collect_files_from_paths (folder ses : string) (pair : Dict.t string)
    (kind path : string) :
  In (ses, pair) (collect_files_from listdir folder) -> In (kind, path) pair ->
  from_session_file folder ses path.
Proof.
  unfold collect_files_from. destruct (listdir folder) as [names|]; [| intros []].
  revert ses pair kind path.
  apply (fold_left_invariant
           (fun m => forall ses pair kind path,
                In (ses, pair) m -> In (kind, path) pair ->
                from_session_file folder ses path)).
  - intros acc x. apply collect_file_paths.
  - intros ses pair kind path [].
Qed.

Lemma merge_entries_paths (acc files : Dict.t (Dict.t string)) :
  (forall ses pair kind path,
      In (ses, pair) acc -> In (kind, path) pair -> from_session ses path) ->
  (forall ses pair kind path,
      In (ses, pair) files -> In (kind, path) pair -> from_session ses path) ->
  forall ses pair kind path,
    In (ses, pair) (merge_entries acc files) -> In (kind, path) pair ->
    from_session ses path.
Proof.
  unfold merge_entries. revert acc.
  induction files as [|[s0 e0] files IH]; simpl; intros acc Hacc Hfiles;
    [exact Hacc |].
  apply IH.
  - intros ses pair kind path H Hp.
    apply in_set in H. destruct H as [[-> ->] | H].
    + apply in_update in Hp. destruct Hp as [Hp | Hp].
      * apply (Hfiles s0 e0 kind path); [now left | assumption].
      * apply get_default_in in Hp. destruct Hp as (e & He & Hp).
        now apply (Hacc s0 e kind path).
    + now apply (Hacc ses pair kind path).
  - intros ses pair kind path H. apply Hfiles. now right.
Qed.

(** Every path of the combined mapping names a file of one of the two
    directories whose name the pattern matches with the key of its entry as
    session id. *)
Lemma sessions_paths (ses : string) (pair : Dict.t string) (kind path : string) :
  In (ses, pair) (sessions listdir) -> In (kind, path) pair ->
  from_session ses path.
Proof.
  unfold sessions.
  apply merge_entries_paths; [apply merge_entries_paths |].
  - intros ? ? ? ? [].
  - intros s p k q H Hq. left.
    now apply (collect_files_from_paths "lecturenotes" s p k q).
  - intros s p k q H Hq. right.
    now apply (collect_files_from_paths "problemsets" s p k q).
Qed.

(** A path belongs to one session only. *)
Lemma from_session_unique (ses ses' path : string) :
  from_session ses path -> from_session ses' path -> ses = ses'.
Proof.
  unfold from_session, from_session_file, path_join.
  intros [(f & k & -> & Hf) | (f & k & -> & Hf)]
         [(f' & k' & H & Hf') | (f' & k' & H & Hf')];
    simpl in H; try discriminate; injection H as <-; congruence.
Qed.

Lemma in_opened (pair : Dict.t string) (p : string) :
  In p (opened pair) ->
  Dict.get pair "sum" <> None /\ exists kind, In (kind, p) pair.
Proof.
  unfold opened. destruct (Dict.get pair "sum") as [sum_file|] eqn:H;
    [| intros []].
  intros Hp. split; [discriminate |].
  destruct Hp as [<- | Hp].
  - exists "sum"%string. now apply get_some_in.
  - destruct (Dict.get pair "prob") as [prob_file|] eqn:H'; [| destruct Hp].
    destruct Hp as [<- | []]. exists "prob"%string. now apply get_some_in.
Qed.

(** The loop opens no document of a session that has no summary. *)
Lemma skipped_session_not_opened (ses : string) (pair : Dict.t string)
    (kind path : string) :
  Dict.get (sessions listdir) ses = Some pair ->
  Dict.get pair "sum" = None ->
  Dict.get pair kind = Some path ->
  ~ In path (opened_by (sessions listdir)).
Proof.
  intros Hget Hsum Hpath Hin.
  unfold opened_by in Hin. apply in_flat_map in Hin.
  destruct Hin as ([ses' pair'] & Hin & Hp). simpl in Hp.
  apply in_opened in Hp. destruct Hp as [Hsum' (kind' & Hp)].
  assert (Heq : ses = ses').
  { apply (from_session_unique ses ses' path).
    - apply (sessions_paths ses pair kind path);
        now apply get_some_in.
    - now apply (sessions_paths ses' pair' kind' path). }
  subst ses'.
  destruct (sessions_ok listdir) as [Hnd _].
  rewrite (in_get _ _ _ Hnd Hin) in Hget. injection Hget as ->.
  contradiction.
Qed.

End PathFacts.

(** ** The loop reads only the documents it opens *)

Section ReaderFacts.

Variables page dim : Type.
Variable mediabox_width mediabox_height : page -> dim.
Variable A4 : dim * dim.
Variables PdfReader PdfReader' : string -> option (list page).

Lemma process_session_reader (pair : Dict.t string)
    (out0 : list (out_page page dim)) :
  (forall p, In p (opened pair) -> PdfReader' p = PdfReader p) ->
  process_session mediabox_width mediabox_height A4 PdfReader' pair out0
  = process_session mediabox_width mediabox_height A4 PdfReader pair out0.
Proof.
  unfold opened, process_session, include_sum, include_prob, read_pdf.
  destruct (Dict.get pair "sum") as [sum_file|]; [| reflexivity].
  intros H. rewrite (H sum_file) by now left.
  destruct (PdfReader sum_file) as [s|]; [| reflexivity].
  cbn -[add_pages]. rewrite !add_pages_spec. cbn -[add_pages].
  destruct (Dict.get pair "prob") as [prob_file|]; [| reflexivity].
  rewrite (H prob_file) by (right; now left).
  reflexivity.
Qed.

Lemma merge_loop_reader (ss : Dict.t (Dict.t string)) :
  (forall p, In p (opened_by ss) -> PdfReader' p = PdfReader p) ->
  merge_loop mediabox_width mediabox_height A4 PdfReader' ss
  = merge_loop mediabox_width mediabox_height A4 PdfReader ss.
Proof.
  intros H. unfold merge_loop.
  destruct (session_order ss) as [order|e]; simpl; [| reflexivity].
  generalize (@nil (out_page page dim)).
  induction order as [|ses order IH]; intros out0; simpl; [reflexivity |].
  destruct (Dict.get ss ses) as [pair|] eqn:Hget; simpl; [| reflexivity].
  rewrite process_session_reader.
  - destruct (process_session _ _ _ PdfReader pair out0); [apply IH | reflexivity].
  - intros p Hp. apply H. apply (in_opened_by ss ses pair); [| assumption].
    now apply get_some_in.
Qed.

End ReaderFacts.

(** ** Substitution *)

Section SubFacts.

Local Open Scope string_scope.

(** A matcher whose value is the text it has consumed. *)
Lemma text_cat (p q : Re.t string) :
  (forall s m r, In (m, r) (p s) -> s = m ++ r) ->
  (forall s m r, In (m, r) (q s) -> s = m ++ r) ->
  forall s m r, In (m, r) (Re.cat p q s) -> s = m ++ r.
Proof.
  intros Hp Hq s m r H. apply in_cat in H.
  destruct H as (a & b & r1 & Ha & Hb & ->).
  rewrite (Hp _ _ _ Ha), (Hq _ _ _ Hb). now rewrite sapp_assoc.
Qed.

Lemma text_lit (ic : bool) (w s m r : string) :
  In (m, r) (Re.lit ic w s) -> s = m ++ r.
Proof. intros H. now apply in_lit in H. Qed.

Lemma text_plus (f : ascii -> bool) (s m r : string) :
  In (m, r) (Re.plus f s) -> s = m ++ r.
Proof. intros H. now apply in_plus in H. Qed.

Lemma text_chr (ic : bool) (c : ascii) (s m r : string) :
  In (m, r) (Re.chr ic c s) -> s = m ++ r.
Proof.
  unfold Re.chr. intros H. apply in_one in H.
  now destruct H as (x & -> & -> & _).
Qed.

Lemma session_file_pattern_text (s m r : string) :
  In (m, r) (session_file_pattern s) -> s = m ++ r /\ m <> "".
Proof.
  intros H. split.
  - revert s m r H. unfold session_file_pattern.
    apply text_cat; [intros s m r; apply text_lit |].
    apply text_cat; [intros s m r; apply text_plus |].
    apply text_cat; [intros s m r; apply text_chr |].
    apply text_cat; [intros s m r; apply text_plus |].
    apply text_cat; [| intros s m r; apply text_lit].
    intros s m r H. apply in_alt in H.
    destruct H as [H | H]; now apply text_lit in H.
  - unfold session_file_pattern in H. apply in_cat in H.
    destruct H as (a & b & r1 & Ha & _ & ->).
    apply in_lit in Ha. destruct Ha as [_ Ha]. simpl in Ha. subst a.
    discriminate.
Qed.

(** Every match of the pattern of the rename utility consumes input. *)
Lemma rename_pattern_consumes (s g r : string) :
  In (g, r) (rename_pattern s) -> String.length r < String.length s.
Proof.
  unfold rename_pattern. intros H.
  apply in_bind in H. destruct H as (pre & r1 & Hpre & H).
  apply in_lazy_star in Hpre. destruct Hpre as [-> _].
  apply in_bind in H. destruct H as (g1 & r2 & Hg & H).
  apply in_ret in H. destruct H as [Hg1 Hr2]. subst g1 r2.
  apply session_file_pattern_text in Hg. destruct Hg as [-> Hne].
  rewrite !slength_app. destruct g; [congruence | simpl; lia].
Qed.

(** With matches that consume input, [sub] has the steps it needs: more
    fuel does not change its result. *)
Lemma sub_fuel_enough (p : Re.t string) :
  (forall s a r, In (a, r) (p s) -> String.length r < String.length s) ->
  forall n m s,
    String.length s < n -> String.length s < m ->
    Re.sub_fuel n p s = Re.sub_fuel m p s.
Proof.
  intros Hp. induction n as [|n IH]; intros m s Hn Hm; [lia |].
  destruct m as [|m]; [lia |]. simpl.
  unfold Re.match_end. destruct (p s) as [|[a r] l] eqn:E.
  - destruct s as [|c s]; [reflexivity |]. simpl in *.
    f_equal. apply IH; lia.
  - assert (Hr : String.length r < String.length s).
    { apply (Hp s a r). rewrite E. now left. }
    f_equal. apply IH; lia.
Qed.

Lemma new_name_fuel (n : nat) (filename : string) :
  String.length filename < n ->
  Re.sub_fuel n rename_pattern filename = new_name filename.
Proof.
  intros H. unfold new_name, Re.sub.
  apply sub_fuel_enough; [apply rename_pattern_consumes | assumption | lia].
Qed.

End SubFacts.

(* ================================================================= *)
(** * The claims *)

(** ** One session *)

Section SessionClaims.

Variables page dim : Type.
Variable mediabox_width mediabox_height : page -> dim.
Variable A4 : dim * dim.
Variable PdfReader : string -> option (list page).

Implicit Types (pair : Dict.t string) (out : list (out_page page dim)).

Lemma padding_cases (s p : list page) :
  (Nat.odd (length (@content page dim s p)) = true /\
   exists w h, padding mediabox_width mediabox_height A4 s p = [Filler w h])
  \/
  (Nat.odd (length (@content page dim s p)) = false /\
   padding mediabox_width mediabox_height A4 s p = []).
Proof.
  unfold padding. destruct (Nat.odd (length (content s p))); [left | right];
    split; try reflexivity.
  destruct (reference_size mediabox_width mediabox_height s p) as [[w h]|];
    eauto.
Qed.

Lemma length_content (s p : list page) :
  length (@content page dim s p) = (length s - 1) + (length p - 1).
Proof. unfold content. now rewrite length_app, !length_kept. Qed.

(** What a session that is not skipped needs in order to be processed. *)
Lemma process_session_ok_inv pair out out' (sum_file : string) :
  Dict.get pair "sum" = Some sum_file ->
  process_session mediabox_width mediabox_height A4 PdfReader pair out = Ok out' ->
  exists s p,
    PdfReader sum_file = Some s /\ prob_pages PdfReader pair = Ok p /\
    out' = out ++ content s p ++ padding mediabox_width mediabox_height A4 s p.
Proof.
  intros H Hok.
  destruct (PdfReader sum_file) as [s|] eqn:E.
  - destruct (prob_pages PdfReader pair) as [p|e] eqn:Hp.
    + exists s, p. repeat split.
      rewrite (process_session_spec _ _ _ _ _ _ pair out sum_file s p H E Hp) in Hok.
      now injection Hok as <-.
    + unfold prob_pages, read_pdf in Hp.
      destruct (Dict.get pair "prob") as [prob_file|] eqn:H'; [| discriminate].
      destruct (PdfReader prob_file) eqn:E'; [discriminate |].
      rewrite (process_session_prob_unreadable _ _ _ _ _ _ pair out _ _ s H E H' E') in Hok.
      discriminate.
  - rewrite (process_session_sum_unreadable _ _ _ _ _ _ pair out _ H E) in Hok.
    discriminate.
Qed.

(** C1.  For every session that is included (its entry has a summary and
    the loop body completes), whatever the pages [out] already merged: the
    body appends the copied pages of the session, [(length s - 1) +
    (length p - 1)] of them (each difference stops at zero, as
    [max(0, len - 1)] does, and [p] is empty when there is no problem
    document), and then exactly one filler page when that number is odd and
    nothing when it is even, so that the number of pages appended for the
    session is even.  The same pages are appended to any other output
    [out2]: the count is that of the session, not of the output so far. *)
Theorem even_page_padding pair out out' (sum_file : string) :
  Dict.get pair "sum" = Some sum_file ->
  process_session mediabox_width mediabox_height A4 PdfReader pair out = Ok out' ->
  exists (s p : list page) (pad : list (out_page page dim)),
    PdfReader sum_file = Some s /\ prob_pages PdfReader pair = Ok p /\
    out' = out ++ content s p ++ pad /\
    Forall (fun x => exists q, x = Copied q) (@content page dim s p) /\
    length (@content page dim s p) = (length s - 1) + (length p - 1) /\
    (Nat.odd (length (@content page dim s p)) = true ->
     exists w h, pad = [Filler w h]) /\
    (Nat.odd (length (@content page dim s p)) = false -> pad = []) /\
    Nat.even (length out' - length out) = true /\
    (forall out2,
        process_session mediabox_width mediabox_height A4 PdfReader pair out2
        = Ok (out2 ++ content s p ++ pad)).
Proof.
  intros H Hok.
  destruct (process_session_ok_inv pair out out' sum_file H Hok)
    as (s & p & E & Hp & ->).
  exists s, p, (padding mediabox_width mediabox_height A4 s p).
  split; [assumption |]. split; [assumption |]. split; [reflexivity |].
  split.
  { unfold content, kept. rewrite <- map_app. apply Forall_forall.
    intros x Hx. apply in_map_iff in Hx. destruct Hx as (q & <- & _). eauto. }
  split; [apply length_content |].
  assert (Hany : forall out2,
             process_session mediabox_width mediabox_height A4 PdfReader pair out2
             = Ok (out2 ++ content s p
                   ++ padding mediabox_width mediabox_height A4 s p)).
  { intros out2. now apply (process_session_spec _ _ _ _ _ _ pair out2 sum_file). }
  rewrite !length_app.
  destruct (padding_cases s p) as [[Ho (w & h & Hpad)] | [Ho Hpad]];
    rewrite Hpad in *; rewrite Ho.
  - split; [eauto |]. split; [discriminate |]. split; [| exact Hany].
    replace (length out + (length (content s p) + length [Filler w h]) - length out)
      with (S (length (@content page dim s p))) by (simpl; lia).
    now rewrite Nat.even_succ.
  - split; [discriminate |]. split; [reflexivity |]. split; [| exact Hany].
    replace (length out + (length (content s p) + length (@nil (out_page page dim))) - length out)
      with (length (@content page dim s p)) by (simpl; lia).
    now rewrite <- Nat.negb_odd, Ho.
Qed.

(** C4.  A session whose summary has exactly 4 pages and whose problem
    document has exactly 3 pages appends exactly 6 pages: the first 3 of
    the summary, the first 2 of the problem document, then one filler page
    (of the size of the first summary page). *)
Theorem four_and_three_pages pair out (sum_file prob_file : string)
    (s0 s1 s2 s3 p0 p1 p2 : page) :
  Dict.get pair "sum" = Some sum_file ->
  Dict.get pair "prob" = Some prob_file ->
  PdfReader sum_file = Some [s0; s1; s2; s3] ->
  PdfReader prob_file = Some [p0; p1; p2] ->
  process_session mediabox_width mediabox_height A4 PdfReader pair out
  = Ok (out ++ [Copied s0; Copied s1; Copied s2; Copied p0; Copied p1;
                Filler (mediabox_width s0) (mediabox_height s0)]).
Proof.
  intros H H' E E'.
  unfold process_session, include_sum, include_prob, read_pdf.
  rewrite H, E. cbn -[add_pages]. rewrite add_pages_spec. cbn -[add_pages].
  rewrite H', E'. cbn -[add_pages]. rewrite add_pages_spec.
  unfold ensure_even. cbn -[odd_added].
  rewrite <- app_assoc, odd_added_app. simpl. now rewrite <- app_assoc.
Qed.

Lemma reference_size_hd (s p : list page) :
  reference_size mediabox_width mediabox_height s p
  = option_map (fun q => (mediabox_width q, mediabox_height q))
      (hd_error (s ++ p)).
Proof. now destruct s, p. Qed.

(** The state in which the padding is decided. *)
Lemma copies_inv pair out0 (st st' : locals page dim) :
  include_sum mediabox_width mediabox_height PdfReader pair out0 = Ok (Some st) ->
  include_prob mediabox_width mediabox_height PdfReader pair st = Ok st' ->
  exists (sum_file : string) (s p : list page),
    Dict.get pair "sum" = Some sum_file /\ PdfReader sum_file = Some s /\
    prob_pages PdfReader pair = Ok p /\
    st' = Locals
            (option_map fst (reference_size mediabox_width mediabox_height s p))
            (option_map snd (reference_size mediabox_width mediabox_height s p))
            ((out0 ++ kept s) ++ kept p).
Proof.
  intros Hs Hp.
  destruct (Dict.get pair "sum") as [sum_file|] eqn:H;
    [| unfold include_sum in Hs; rewrite H in Hs; discriminate].
  destruct (PdfReader sum_file) as [s|] eqn:E;
    [| unfold include_sum, read_pdf in Hs; rewrite H, E in Hs; discriminate].
  rewrite (include_sum_spec _ _ _ _ _ pair out0 sum_file s H E) in Hs.
  injection Hs as <-.
  destruct (prob_pages PdfReader pair) as [p|e] eqn:Hpp.
  - rewrite (include_prob_spec _ _ _ _ _ pair _ _ _ s p eq_refl eq_refl Hpp) in Hp.
    injection Hp as <-. now exists sum_file, s, p.
  - unfold prob_pages, include_prob in *.
    destruct (Dict.get pair "prob") as [prob_file|]; [| discriminate].
    rewrite Hpp in Hp. discriminate.
Qed.

(** C9.  Whenever the padding branch is entered (the number of pages
    added for the session is odd), [page_width] and [page_height] hold the
    size of the first page of the summary or, when the summary has no
    page, of the problem document: the A4 fallback is not taken, and the
    filler has that size. *)
Theorem filler_size_recorded pair out0 (st st' : locals page dim) :
  include_sum mediabox_width mediabox_height PdfReader pair out0 = Ok (Some st) ->
  include_prob mediabox_width mediabox_height PdfReader pair st = Ok st' ->
  odd_added (length out0) st' = true ->
  exists (sum_file : string) (s p : list page) (first : page),
    Dict.get pair "sum" = Some sum_file /\ PdfReader sum_file = Some s /\
    prob_pages PdfReader pair = Ok p /\
    hd_error (s ++ p) = Some first /\
    page_width st' = Some (mediabox_width first) /\
    page_height st' = Some (mediabox_height first) /\
    snd (filler_size A4 st') = false /\
    ensure_even A4 (length out0) st'
    = out st' ++ [Filler (mediabox_width first) (mediabox_height first)].
Proof.
  intros Hs Hp Hodd.
  destruct (copies_inv pair out0 st st' Hs Hp) as (sum_file & s & p & H & E & Hpp & ->).
  rewrite <- app_assoc, odd_added_app in Hodd.
  destruct (hd_error (s ++ p)) as [first|] eqn:Hhd.
  - exists sum_file, s, p, first.
    unfold ensure_even. rewrite <- (app_assoc out0), odd_added_app, Hodd.
    unfold filler_size. rewrite reference_size_hd, Hhd. simpl.
    now repeat split.
  - destruct s, p; discriminate.
Qed.

(** C10.  A session whose summary exists but has at most one page is not
    skipped: the summary contributes no page (the count of pages to copy,
    [max(0, len - 1)], is never negative), and the pages of the problem
    document but its last, followed by the padding, are still appended. *)
Theorem short_summary_included pair out0 (sum_file : string) (s : list page) :
  Dict.get pair "sum" = Some sum_file ->
  PdfReader sum_file = Some s ->
  length s <= 1 ->
  copy_count s = 0 /\
  (forall r : list page,
      (0 <= Z.max 0 (Z.of_nat (length r) - 1))%Z /\
      copy_count r = length r - 1) /\
  (exists w h,
      include_sum mediabox_width mediabox_height PdfReader pair out0
      = Ok (Some (Locals w h out0))) /\
  (forall p : list page,
      prob_pages PdfReader pair = Ok p ->
      length (@kept page dim p) = length p - 1 /\
      process_session mediabox_width mediabox_height A4 PdfReader pair out0
      = Ok (out0 ++ kept p ++ padding mediabox_width mediabox_height A4 s p)).
Proof.
  intros H E Hlen.
  assert (Hk : @kept page dim s = []).
  { destruct s as [|x [|y s]]; simpl in Hlen; try reflexivity. lia. }
  split; [rewrite copy_count_pred; lia |].
  split; [intros r; split; [lia | apply copy_count_pred] |].
  split.
  - rewrite (include_sum_spec _ _ _ _ _ pair out0 sum_file s H E).
    rewrite Hk, app_nil_r. eauto.
  - intros p Hp. split; [apply length_kept |].
    rewrite (process_session_spec _ _ _ _ _ _ pair out0 sum_file s p H E Hp).
    unfold content. now rewrite Hk.
Qed.

End SessionClaims.

(** ** The run *)

Section RunClaims.

Variables page dim : Type.
Variable mediabox_width mediabox_height : page -> dim.
Variable A4 : dim * dim.
Variable listdir : string -> option (list string).
Variable PdfReader : string -> option (list page).
Variable console : message -> bool.
Variable open_out : bool.
Variable out_write : list (out_page page dim) -> bool.

(** C2.  A session of the combined mapping whose entry has no summary
    path appends nothing, whether or not it has a problem path: the loop
    body leaves the output as it is; no document of the session is among
    those that the loop opens; the loop gives the same result whatever
    those documents contain, and the result it gives on the mapping without
    that session. *)
Theorem session_without_summary_skipped (ses : string) (pair : Dict.t string) :
  Dict.get (sessions listdir) ses = Some pair ->
  Dict.get pair "sum" = None ->
  (forall out0 : list (out_page page dim),
      process_session mediabox_width mediabox_height A4 PdfReader pair out0
      = Ok out0) /\
  session_pages mediabox_width mediabox_height A4 PdfReader
    (sessions listdir) ses = Ok [] /\
  (forall kind path,
      Dict.get pair kind = Some path ->
      ~ In path (opened_by (sessions listdir))) /\
  (forall PdfReader' : string -> option (list page),
      (forall p, (forall kind, Dict.get pair kind <> Some p) ->
                 PdfReader' p = PdfReader p) ->
      merge_loop mediabox_width mediabox_height A4 PdfReader' (sessions listdir)
      = merge_loop mediabox_width mediabox_height A4 PdfReader (sessions listdir)) /\
  merge_loop mediabox_width mediabox_height A4 PdfReader (sessions listdir)
  = merge_loop mediabox_width mediabox_height A4 PdfReader
      (Dict.remove (sessions listdir) ses).
Proof.
  intros Hget Hsum.
  assert (Hnot : forall kind path,
             Dict.get pair kind = Some path ->
             ~ In path (opened_by (sessions listdir))).
  { intros kind path. now apply (skipped_session_not_opened listdir ses pair). }
  split; [| split; [| split; [| split]]].
  - intros out0. now apply process_session_skip.
  - unfold session_pages. rewrite Hget. simpl. now apply process_session_skip.
  - exact Hnot.
  - intros PdfReader' Hsame. apply merge_loop_reader.
    intros p Hp. apply Hsame. intros kind Hk. now apply (Hnot kind p).
  - apply merge_loop_without with (pair := pair); try assumption.
    apply sessions_ok.
Qed.

Lemma dotted_key (sid : string) (p s : Z) (k : list Z) :
  Spec.dotted sid p s -> session_key sid = Ok k -> k = [p; s].
Proof.
  intros Hd Hk. rewrite (session_key_dotted sid p s Hd) in Hk.
  now injection Hk as <-.
Qed.

Lemma not_id_le_1_10_1_2 : ~ Spec.id_le "1.10" "1.2".
Proof.
  intros (p1 & s1 & p2 & s2 & H1 & H2 & Hle).
  apply dotted_key with (k := [1; 10]%Z) in H1; [| reflexivity].
  apply dotted_key with (k := [1; 2]%Z) in H2; [| reflexivity].
  injection H1 as <- <-. injection H2 as <- <-. lia.
Qed.

(** C3.  The sessions of the combined mapping are processed in an order
    that [sorted] always delivers, that lists every key once, and that
    ascends in the primary and then the secondary component, compared as
    integers; a completed merge is the concatenation, in that order, of
    what each session appends; and "1.2" comes before "1.10". *)
Theorem sessions_in_numeric_order :
  exists order : list string,
    session_order (sessions listdir) = Ok order /\
    Permutation order (Dict.keys (sessions listdir)) /\
    StronglySorted Spec.id_le order /\
    (forall out0 : list (out_page page dim),
        merge_sessions mediabox_width mediabox_height A4 listdir PdfReader
        = Ok out0 ->
        exists cs,
          Forall2
            (fun ses c =>
               session_pages mediabox_width mediabox_height A4 PdfReader
                 (sessions listdir) ses = Ok c)
            order cs /\
          out0 = concat cs) /\
    (In "1.2" (Dict.keys (sessions listdir)) ->
     In "1.10" (Dict.keys (sessions listdir)) ->
     exists l1 l2 l3, order = l1 ++ "1.2" :: l2 ++ "1.10" :: l3).
Proof.
  destruct (sessions_ok listdir) as [Hnd Hwf].
  destruct (sorted_total session_key (Dict.keys (sessions listdir)))
    as [order Ho].
  { rewrite Forall_forall in *. intros k Hk.
    destruct (Hwf k Hk) as (p & s & Hd).
    eexists. now apply (session_key_dotted k p s). }
  destruct (sorted_spec session_key _ _ Ho) as [Hperm Hsorted].
  assert (Hids : Forall Spec.is_session_id order).
  { rewrite Forall_forall in *. intros k Hk.
    now apply Hwf, (Permutation_in _ Hperm). }
  assert (Hs : StronglySorted Spec.id_le order).
  { apply strongly_sorted_weaken
      with (Q := Spec.is_session_id) (3 := Hsorted); [| assumption].
    intros a b Ha Hb (ka & kb & Hka & Hkb & Hle).
    now apply (key_le_id_le a b ka kb). }
  exists order. split; [exact Ho |]. split; [exact Hperm |].
  split; [exact Hs |]. split.
  - intros out0 Hout. unfold merge_sessions in Hout.
    assert (Hl : merge_loop mediabox_width mediabox_height A4 PdfReader
                   (sessions listdir) = Ok out0)
      by (destruct (sessions listdir); [discriminate | exact Hout]).
    rewrite merge_loop_spec in Hl. unfold session_order in Hl.
    rewrite Ho in Hl. simpl in Hl.
    destruct (map_result _ order) as [cs|e] eqn:Hcs; [| discriminate].
    injection Hl as <-. exists cs. split; [| reflexivity].
    now apply map_result_ok.
  - intros H2 H10.
    apply (sorted_before (R := Spec.id_le)); try assumption.
    + now apply (Permutation_in _ (Permutation_sym Hperm)).
    + now apply (Permutation_in _ (Permutation_sym Hperm)).
    + discriminate.
    + apply not_id_le_1_10_1_2.
Qed.

(** C6, amended.  A missing directory is read as an empty one.  The run
    stops at the check of the combined mapping, with [SystemExit(1)] and
    [merged.pdf] untouched, exactly when that mapping is empty.
    Otherwise the loop runs: a session without summary is passed over and
    the loop goes on; a run that completes has written, in the order of
    the sessions, nothing for the sessions without summary and their pages
    for the others; and the run does complete when every PDF that the loop
    opens is readable, the console can show the messages, and
    [merged.pdf] can be opened and written. *)
Theorem empty_mapping_exit (merged : option (merged_pdf page dim)) :
  main mediabox_width mediabox_height A4 (missing_as_empty listdir) PdfReader
    console open_out out_write merged
  = main mediabox_width mediabox_height A4 listdir PdfReader
      console open_out out_write merged
  /\
  (fst (main mediabox_width mediabox_height A4 listdir PdfReader
          console open_out out_write merged)
   = Raise (SystemExit 1)
   <-> sessions listdir = [])
  /\
  (sessions listdir = [] ->
   main mediabox_width mediabox_height A4 listdir PdfReader
     console open_out out_write merged
   = (Raise (SystemExit 1), merged))
  /\
  (forall (pair : Dict.t string) (out0 : list (out_page page dim)),
      Dict.get pair "sum" = None ->
      console Processing = true -> console SumMissing = true ->
      process_session_io mediabox_width mediabox_height A4 PdfReader console
        pair out0 = Ok out0)
  /\
  (fst (main mediabox_width mediabox_height A4 listdir PdfReader
          console open_out out_write merged) = Ok tt ->
   exists order cs,
     session_order (sessions listdir) = Ok order /\
     Forall2
       (fun ses c =>
          session_pages mediabox_width mediabox_height A4 PdfReader
            (sessions listdir) ses = Ok c /\
          forall pair,
            Dict.get (sessions listdir) ses = Some pair ->
            Dict.get pair "sum" = None -> c = [])
       order cs /\
     snd (main mediabox_width mediabox_height A4 listdir PdfReader
            console open_out out_write merged)
     = Some (Document (concat cs)))
  /\
  (sessions listdir <> [] ->
   (forall p, In p (opened_by (sessions listdir)) -> PdfReader p <> None) ->
   (forall m, console m = true) ->
   open_out = true ->
   (forall out0, out_write out0 = true) ->
   fst (main mediabox_width mediabox_height A4 listdir PdfReader
          console open_out out_write merged) = Ok tt).
Proof.
  split.
  { unfold main. now rewrite sessions_missing_as_empty. }
  split; [| split; [| split; [| split]]].
  - destruct (main_cases _ _ mediabox_width mediabox_height A4 listdir PdfReader
                console open_out out_write merged)
      as [[Hss ->] | [(Hss & _ & ->) | [(Hss & p & _ & _ & ->)
         | (Hss & order & cs & _ & _ & _ & _ & _ &
            [(_ & ->) | [(_ & _ & ->) | [(_ & _ & _ & ->) | (_ & _ & _ & ->)]]])]]];
      simpl; (split; [try discriminate; tauto | try contradiction; tauto]).
  - intros Hss. unfold main. now rewrite Hss.
  - intros pair out0. apply process_session_io_skip.
  - destruct (main_cases _ _ mediabox_width mediabox_height A4 listdir PdfReader
                console open_out out_write merged)
      as [[Hss ->] | [(Hss & _ & ->) | [(Hss & p & _ & _ & ->)
         | (Hss & order & cs & Ho & Hcs & _ & _ & _ &
            [(_ & ->) | [(_ & _ & ->) | [(_ & _ & _ & ->) | (_ & _ & _ & ->)]]])]]];
      simpl; try discriminate.
    intros _. exists order, cs. split; [exact Ho |]. split; [| reflexivity].
    apply map_result_ok in Hcs.
    eapply Forall2_impl; [| exact Hcs]. simpl.
    intros ses c Hc. split; [exact Hc |].
    intros pair Hget Hsum. unfold session_pages in Hc.
    rewrite Hget in Hc. simpl in Hc.
    rewrite process_session_skip in Hc by assumption. congruence.
  - intros Hne Hall Hcon Hopen Hwrite.
    destruct (main_cases _ _ mediabox_width mediabox_height A4 listdir PdfReader
                console open_out out_write merged)
      as [[Hss _] | [(_ & El & _) | [(_ & p & Hp & Ep & _)
         | (_ & order & cs & _ & _ & _ & _ & _ &
            [(E & _) | [(_ & E & _) | [(_ & _ & E & _) | (_ & _ & _ & ->)]]])]]].
    + contradiction.
    + exfalso. rewrite merge_loop_io_shown in El by assumption.
      destruct (merge_loop_cases _ _ mediabox_width mediabox_height A4 PdfReader
                  (sessions listdir) (sessions_ok listdir))
        as [(order & cs & _ & _ & E & _) | (p & Hp & Ep & _)];
        [congruence | now apply (Hall p)].
    + exfalso. now apply (Hall p).
    + rewrite Hopen in E. discriminate.
    + rewrite Hwrite in E. discriminate.
    + rewrite Hcon in E. discriminate.
    + reflexivity.
Qed.

(** C7, amended.  If a PDF that the loop opens (the summary of a session,
    or the problem document of a session that has a summary) is
    unreadable, the run ends on an error before [merged.pdf] is opened,
    and the file is left as it was.  The file is opened once, after the
    loop has gone through every session: a run that has changed it has
    either written the whole output or failed in the write and left a
    part of it. *)
Theorem unreadable_pdf_aborts (merged : option (merged_pdf page dim)) :
  ((exists p, In p (opened_by (sessions listdir)) /\ PdfReader p = None) ->
   exists e,
     main mediabox_width mediabox_height A4 listdir PdfReader
       console open_out out_write merged
     = (Raise e, merged) /\
     (e = UnicodeEncodeError \/
      exists p,
        e = PdfReadError p /\
        In p (opened_by (sessions listdir)) /\ PdfReader p = None))
  /\
  (snd (main mediabox_width mediabox_height A4 listdir PdfReader
          console open_out out_write merged) <> merged ->
   exists out0,
     merge_sessions mediabox_width mediabox_height A4 listdir PdfReader
     = Ok out0 /\
     merge_loop_io mediabox_width mediabox_height A4 PdfReader console
       (sessions listdir) = Ok out0 /\
     open_out = true /\
     ((out_write out0 = true /\
       snd (main mediabox_width mediabox_height A4 listdir PdfReader
              console open_out out_write merged)
       = Some (Document out0))
      \/
      (out_write out0 = false /\
       main mediabox_width mediabox_height A4 listdir PdfReader
         console open_out out_write merged
       = (Raise WriteError, Some (Truncated out0)))))
  /\
  (forall out0,
      sessions listdir <> [] ->
      merge_loop_io mediabox_width mediabox_height A4 PdfReader console
        (sessions listdir) = Ok out0 ->
      open_out = true -> out_write out0 = false ->
      main mediabox_width mediabox_height A4 listdir PdfReader
        console open_out out_write merged
      = (Raise WriteError, Some (Truncated out0))).
Proof.
  split; [| split].
  - intros (q & Hq & Eq).
    destruct (main_cases _ _ mediabox_width mediabox_height A4 listdir PdfReader
                console open_out out_write merged)
      as [[Hss _] | [(_ & _ & Hm) | [(_ & p & Hp & Ep & Hm)
         | (_ & order & cs & _ & _ & Hall & _)]]].
    + rewrite Hss in Hq. destruct Hq.
    + exists UnicodeEncodeError. split; [exact Hm | now left].
    + exists (PdfReadError p). split; [exact Hm |]. right. now exists p.
    + exfalso. now apply (Hall q).
  - destruct (main_cases _ _ mediabox_width mediabox_height A4 listdir PdfReader
                console open_out out_write merged)
      as [[Hss ->] | [(Hss & _ & ->) | [(Hss & p & _ & _ & ->)
         | (Hss & order & cs & _ & _ & _ & Es & El &
            [(_ & ->) | [(Eo & Ew & ->) | [(Eo & Ew & _ & ->)
                                          | (Eo & Ew & _ & ->)]]])]]];
      simpl; intros Hd; try (now contradiction Hd);
      exists (concat cs); (split; [exact Es |]); (split; [exact El |]);
      (split; [exact Eo |]).
    + right. now split.
    + left. now split.
    + left. now split.
  - intros out0 Hne El Eo Ew. unfold main.
    destruct (sessions listdir) as [|se ss]; [contradiction |].
    rewrite El, Eo. simpl. now rewrite Ew.
Qed.

End RunClaims.

(** ** The file-name pattern *)

Section PatternClaims.

Local Open Scope string_scope.

Lemma endswith_app (x suffix : string) :
  Str.endswith (x ++ suffix) suffix = true.
Proof.
  induction x as [|c x IH].
  - destruct suffix; cbn [String.append Str.endswith];
      now rewrite String.eqb_refl.
  - cbn [String.append Str.endswith]. rewrite IH.
    now destruct (String.eqb _ _).
Qed.

Lemma exact_form_endswith (name sid kind : string) :
  Spec.exact_form name sid kind -> Str.endswith name ".pdf" = true.
Proof.
  intros (p & d1 & d2 & -> & _).
  rewrite <- !sapp_assoc. apply endswith_app.
Qed.

Lemma exact_starts_with_form (name sid kind : string) :
  Spec.exact_form name sid kind -> Spec.starts_with_form name sid kind.
Proof.
  intros (p & d1 & d2 & -> & Hp & Hd1 & Hd1' & Hd2 & Hd2' & Hk & ->).
  exists p, d1, d2, ".pdf", "". rewrite sapp_nil_r. now repeat split.
Qed.

(** C5 as stated fails: a name with text after the extension is matched,
    and so is a name whose extension is in capitals; neither is of the
    exact form. *)
Lemma pattern_matches_longer_name :
  (Re.match_ pattern "Ses1.1sum.pdf.bak" = Some ("1.1", "sum") /\
   ~ (exists sid kind, Spec.exact_form "Ses1.1sum.pdf.bak" sid kind)) /\
  (Re.match_ pattern "Ses1.1sum.PDF" = Some ("1.1", "sum") /\
   ~ (exists sid kind, Spec.exact_form "Ses1.1sum.PDF" sid kind)).
Proof.
  split; (split; [reflexivity |]);
    intros (sid & kind & H); apply exact_form_endswith in H; discriminate.
Qed.

(** C5, amended.  [pattern.match] recognizes exactly the names that start
    with [Ses<digits>.<digits><kind>.pdf], whatever follows, in either
    letter case throughout (the extension included): on such a name it
    yields the session id and the kind as the name spells it, on every
    other name it yields no match; names of the exact form are among
    those recognized, and the kind, once lowered, is "sum" or "prob". *)
Theorem pattern_recognizes_leading_form (name : string) :
  (forall sid kind,
      Re.match_ pattern name = Some (sid, kind) <->
      Spec.starts_with_form name sid kind) /\
  (Re.match_ pattern name = None <->
   ~ (exists sid kind, Spec.starts_with_form name sid kind)) /\
  (forall sid kind,
      Spec.exact_form name sid kind ->
      Re.match_ pattern name = Some (sid, kind)) /\
  (forall sid kind,
      Re.match_ pattern name = Some (sid, kind) ->
      Spec.is_session_id sid /\
      (Str.lower kind = "sum" \/ Str.lower kind = "prob")).
Proof.
  split; [| split; [| split]].
  - intros sid kind. apply pattern_match_iff.
  - split.
    + intros Hn (sid & kind & H). apply pattern_match_iff in H. congruence.
    + intros Hn. destruct (Re.match_ pattern name) as [[sid kind]|] eqn:E;
        [| reflexivity].
      exfalso. apply Hn. exists sid, kind. now apply pattern_match_iff.
  - intros sid kind H. now apply pattern_match_iff, exact_starts_with_form.
  - intros sid kind H. split; [now apply (pattern_sid_dotted name sid kind) |].
    apply pattern_match_iff in H.
    destruct H as (p & d1 & d2 & e & r & _ & _ & _ & _ & _ & _ & Hk & _).
    exact Hk.
Qed.

End PatternClaims.

(** ** Counterexamples to the claims about the exit status and about
    unreadable PDFs *)

(** C6 as stated fails: the combined mapping is not empty, and the run
    still ends with a nonzero status and without output, because the only
    summary cannot be read. *)
Lemma nonzero_exit_with_sessions :
  sessions Sample.only_lecturenotes <> [] /\
  exit_status
    (fst (main Sample.width Sample.height Sample.A4
            Sample.only_lecturenotes Sample.no_reader
            Sample.utf8_console true Sample.writes None)) <> 0%Z /\
  snd (main Sample.width Sample.height Sample.A4
         Sample.only_lecturenotes Sample.no_reader
         Sample.utf8_console true Sample.writes None) = None.
Proof.
  split; [discriminate |]. split; [discriminate | reflexivity].
Qed.

(** C7 as stated fails twice.  A PDF named in the mapping cannot be read,
    and the run completes and writes the output, because the session of
    that PDF has no summary and the file is never opened.  And a run whose
    write fails leaves [merged.pdf], which did not exist, with a part of
    the output. *)
Lemma unreadable_pdf_never_opened :
  In "problemsets/Ses1.1prob.pdf" (source_paths (sessions Sample.only_problemsets)) /\
  Sample.no_reader "problemsets/Ses1.1prob.pdf" = None /\
  main Sample.width Sample.height Sample.A4
    Sample.only_problemsets Sample.no_reader
    Sample.utf8_console true Sample.writes None
  = (Ok tt, Some (Document [])) /\
  main Sample.width Sample.height Sample.A4
    Sample.listdir Sample.PdfReader
    Sample.utf8_console true Sample.write_fails None
  = (Raise WriteError, Some (Truncated Sample.pages_1_1)).
Proof.
  split; [now left |]. repeat split; reflexivity.
Qed.

(** ** The rename utility *)

(** C8: the code on a name with two matches.  The first match is at the
    start, so that nothing comes before it and the claim leaves the file
    alone; [re.sub] replaces every match, the text between the two matches
    goes, and the file is renamed. *)
Theorem rename_strips_between_matches (file : Type) (f : file) :
  Str.endswith "Ses1.1sum.pdf_Ses1.2sum.pdf" ".pdf" = true /\
  Str.contains "Ses1.1sum.pdf_Ses1.2sum.pdf" "Ses" = true /\
  Spec.stripped "Ses1.1sum.pdf_Ses1.2sum.pdf" = "Ses1.1sum.pdf_Ses1.2sum.pdf" /\
  new_name "Ses1.1sum.pdf_Ses1.2sum.pdf" = "Ses1.1sum.pdfSes1.2sum.pdf" /\
  rename_all [("Ses1.1sum.pdf_Ses1.2sum.pdf", f)]
  = Ok [("Ses1.1sum.pdfSes1.2sum.pdf", f)].
Proof. repeat split. Qed.

(** On a name with a single match the two agree. *)
Example rename_single_match (file : Type) (f : file) :
  new_name "L01_Ses1.1sum.pdf" = Spec.stripped "L01_Ses1.1sum.pdf" /\
  rename_all [("L01_Ses1.1sum.pdf", f); ("notes.txt", f)]
  = Ok [("notes.txt", f); ("Ses1.1sum.pdf", f)].
Proof. split; reflexivity. Qed.

(** ** The claims on the sample inputs *)

(** C1 on session 1.1 of the sample, appended to an output of one page. *)
Lemma even_page_padding_witness :
  Dict.get Sample.entry_1_1 "sum" = Some "lecturenotes/Ses1.1sum.pdf" /\
  process_session Sample.width Sample.height Sample.A4 Sample.PdfReader
    Sample.entry_1_1 [Filler 1 1] = Ok ([Filler 1 1] ++ Sample.pages_1_1) /\
  exists (s p : list Sample.page) (pad : list (out_page Sample.page Sample.dim)),
    Sample.PdfReader "lecturenotes/Ses1.1sum.pdf" = Some s /\
    prob_pages Sample.PdfReader Sample.entry_1_1 = Ok p /\
    [Filler 1 1] ++ Sample.pages_1_1 = [Filler 1 1] ++ content s p ++ pad /\
    Forall (fun x => exists q, x = Copied q) (@content Sample.page Sample.dim s p) /\
    length (@content Sample.page Sample.dim s p) = (length s - 1) + (length p - 1) /\
    (Nat.odd (length (@content Sample.page Sample.dim s p)) = true ->
     exists w h, pad = [Filler w h]) /\
    (Nat.odd (length (@content Sample.page Sample.dim s p)) = false -> pad = []) /\
    Nat.even (length ([Filler 1 1] ++ Sample.pages_1_1)
              - length [@Filler Sample.page Sample.dim 1 1]) = true /\
    (forall out2,
        process_session Sample.width Sample.height Sample.A4 Sample.PdfReader
          Sample.entry_1_1 out2
        = Ok (out2 ++ content s p ++ pad)).
Proof.
  split; [reflexivity |]. split; [reflexivity |].
  apply (even_page_padding Sample.page Sample.dim Sample.width Sample.height Sample.A4
           Sample.PdfReader Sample.entry_1_1 [Filler 1 1]
           ([Filler 1 1] ++ Sample.pages_1_1) "lecturenotes/Ses1.1sum.pdf");
    reflexivity.
Defined.

(** C2 on session 3.1 of the sample, which has a problem document only. *)
Lemma session_without_summary_skipped_witness :
  Dict.get (sessions Sample.listdir) "3.1" = Some Sample.entry_3_1 /\
  Dict.get Sample.entry_3_1 "sum" = None /\
  (forall out0 : list (out_page Sample.page Sample.dim),
      process_session Sample.width Sample.height Sample.A4 Sample.PdfReader
        Sample.entry_3_1 out0 = Ok out0) /\
  session_pages Sample.width Sample.height Sample.A4 Sample.PdfReader
    (sessions Sample.listdir) "3.1" = Ok [] /\
  (forall kind path,
      Dict.get Sample.entry_3_1 kind = Some path ->
      ~ In path (opened_by (sessions Sample.listdir))) /\
  (forall PdfReader' : string -> option (list Sample.page),
      (forall p, (forall kind, Dict.get Sample.entry_3_1 kind <> Some p) ->
                 PdfReader' p = Sample.PdfReader p) ->
      merge_loop Sample.width Sample.height Sample.A4 PdfReader'
        (sessions Sample.listdir)
      = merge_loop Sample.width Sample.height Sample.A4 Sample.PdfReader
          (sessions Sample.listdir)) /\
  merge_loop Sample.width Sample.height Sample.A4 Sample.PdfReader
    (sessions Sample.listdir)
  = merge_loop Sample.width Sample.height Sample.A4 Sample.PdfReader
      (Dict.remove (sessions Sample.listdir) "3.1").
Proof.
  split; [reflexivity |]. split; [reflexivity |].
  apply (session_without_summary_skipped Sample.page Sample.dim
           Sample.width Sample.height Sample.A4
           Sample.listdir Sample.PdfReader "3.1" Sample.entry_3_1);
    reflexivity.
Defined.

(** C4 on session 1.1 of the sample. *)
Lemma four_and_three_pages_witness :
  Dict.get Sample.entry_1_1 "sum" = Some "lecturenotes/Ses1.1sum.pdf" /\
  Dict.get Sample.entry_1_1 "prob" = Some "problemsets/Ses1.1prob.pdf" /\
  Sample.PdfReader "lecturenotes/Ses1.1sum.pdf"
  = Some [("lecturenotes/Ses1.1sum.pdf", 0); ("lecturenotes/Ses1.1sum.pdf", 1);
          ("lecturenotes/Ses1.1sum.pdf", 2); ("lecturenotes/Ses1.1sum.pdf", 3)] /\
  Sample.PdfReader "problemsets/Ses1.1prob.pdf"
  = Some [("problemsets/Ses1.1prob.pdf", 0); ("problemsets/Ses1.1prob.pdf", 1);
          ("problemsets/Ses1.1prob.pdf", 2)] /\
  process_session Sample.width Sample.height Sample.A4 Sample.PdfReader
    Sample.entry_1_1 []
  = Ok ([] ++
        [Copied ("lecturenotes/Ses1.1sum.pdf", 0);
         Copied ("lecturenotes/Ses1.1sum.pdf", 1);
         Copied ("lecturenotes/Ses1.1sum.pdf", 2);
         Copied ("problemsets/Ses1.1prob.pdf", 0);
         Copied ("problemsets/Ses1.1prob.pdf", 1);
         Filler (Sample.width ("lecturenotes/Ses1.1sum.pdf", 0))
                (Sample.height ("lecturenotes/Ses1.1sum.pdf", 0))]).
Proof.
  repeat (split; [reflexivity |]).
  apply (four_and_three_pages Sample.page Sample.dim Sample.width Sample.height Sample.A4
           Sample.PdfReader Sample.entry_1_1 []
           "lecturenotes/Ses1.1sum.pdf" "problemsets/Ses1.1prob.pdf"
           ("lecturenotes/Ses1.1sum.pdf", 0) ("lecturenotes/Ses1.1sum.pdf", 1)
           ("lecturenotes/Ses1.1sum.pdf", 2) ("lecturenotes/Ses1.1sum.pdf", 3)
           ("problemsets/Ses1.1prob.pdf", 0) ("problemsets/Ses1.1prob.pdf", 1)
           ("problemsets/Ses1.1prob.pdf", 2));
    reflexivity.
Defined.

(** C9 on session 1.1 of the sample: five pages are added, and the filler
    has the size of the first summary page. *)
Lemma filler_size_recorded_witness :
  include_sum Sample.width Sample.height Sample.PdfReader Sample.entry_1_1 []
  = Ok (Some Sample.after_sum) /\
  include_prob Sample.width Sample.height Sample.PdfReader Sample.entry_1_1
    Sample.after_sum = Ok Sample.after_prob /\
  odd_added (length (@nil (out_page Sample.page Sample.dim))) Sample.after_prob
  = true /\
  exists (sum_file : string) (s p : list Sample.page) (first : Sample.page),
    Dict.get Sample.entry_1_1 "sum" = Some sum_file /\
    Sample.PdfReader sum_file = Some s /\
    prob_pages Sample.PdfReader Sample.entry_1_1 = Ok p /\
    hd_error (s ++ p) = Some first /\
    page_width Sample.after_prob = Some (Sample.width first) /\
    page_height Sample.after_prob = Some (Sample.height first) /\
    snd (filler_size Sample.A4 Sample.after_prob) = false /\
    ensure_even Sample.A4 (length (@nil (out_page Sample.page Sample.dim)))
      Sample.after_prob
    = out Sample.after_prob ++ [Filler (Sample.width first) (Sample.height first)].
Proof.
  repeat (split; [reflexivity |]).
  apply (filler_size_recorded Sample.page Sample.dim Sample.width Sample.height Sample.A4
           Sample.PdfReader Sample.entry_1_1 [] Sample.after_sum
           Sample.after_prob);
    reflexivity.
Defined.

(** C10 on session 1.1 of the sample with a summary of one page. *)
Lemma short_summary_included_witness :
  Dict.get Sample.entry_1_1 "sum" = Some "lecturenotes/Ses1.1sum.pdf" /\
  Sample.short_reader "lecturenotes/Ses1.1sum.pdf"
  = Some (Sample.doc "lecturenotes/Ses1.1sum.pdf" 1) /\
  length (Sample.doc "lecturenotes/Ses1.1sum.pdf" 1) <= 1 /\
  copy_count (Sample.doc "lecturenotes/Ses1.1sum.pdf" 1) = 0 /\
  (forall r : list Sample.page,
      (0 <= Z.max 0 (Z.of_nat (length r) - 1))%Z /\
      copy_count r = length r - 1) /\
  (exists w h,
      include_sum Sample.width Sample.height Sample.short_reader
        Sample.entry_1_1 []
      = Ok (Some (Locals w h []))) /\
  (forall p : list Sample.page,
      prob_pages Sample.short_reader Sample.entry_1_1 = Ok p ->
      length (@kept Sample.page Sample.dim p) = length p - 1 /\
      process_session Sample.width Sample.height Sample.A4 Sample.short_reader
        Sample.entry_1_1 []
      = Ok ([] ++ kept p
            ++ padding Sample.width Sample.height Sample.A4
                 (Sample.doc "lecturenotes/Ses1.1sum.pdf" 1) p)).
Proof.
  split; [reflexivity |]. split; [reflexivity |]. split; [simpl; lia |].
  apply (short_summary_included Sample.page Sample.dim Sample.width Sample.height Sample.A4
           Sample.short_reader Sample.entry_1_1 []
           "lecturenotes/Ses1.1sum.pdf"
           (Sample.doc "lecturenotes/Ses1.1sum.pdf" 1));
    [reflexivity | reflexivity | simpl; lia].
Defined.

(** The run on the sample directories: the six pages of session 1.1, and
    nothing for session 3.1. *)
Example sample_run :
  session_order (sessions Sample.listdir) = Ok ["1.1"; "3.1"] /\
  main Sample.width Sample.height Sample.A4 Sample.listdir Sample.PdfReader
    Sample.utf8_console true Sample.writes None
  = (Ok tt, Some (Document Sample.pages_1_1)).
Proof. split; reflexivity. Qed.

(** The same run on a console that cannot show the first message of the
    loop, and with an output file that cannot be opened: both end on an
    error and without output. *)
Example sample_run_failures :
  main Sample.width Sample.height Sample.A4 Sample.listdir Sample.PdfReader
    Sample.ascii_console true Sample.writes None
  = (Raise UnicodeEncodeError, None) /\
  main Sample.width Sample.height Sample.A4 Sample.listdir Sample.PdfReader
    Sample.utf8_console false Sample.writes None
  = (Raise OSError, None).
Proof. split; reflexivity. Qed.

(** With a summary of one page, the two pages of the problem document are
    merged, and nothing is added to them. *)
Example sample_short_run :
  main Sample.width Sample.height Sample.A4 Sample.listdir Sample.short_reader
    Sample.utf8_console true Sample.writes None
  = (Ok tt,
     Some (Document (map Copied (Sample.doc "problemsets/Ses1.1prob.pdf" 2)))).
Proof. reflexivity. Qed.

(** Numeric order, not the order of the strings. *)
Example sample_order :
  session_order
    [("1.10", []); ("10.1", []); ("1.9", []); ("2.1", []); ("1.2", [])]
  = Ok ["1.2"; "1.9"; "1.10"; "2.1"; "10.1"].
Proof. reflexivity. Qed.

(* ================================================================= *)
(** * Further properties *)

(** ** Collecting the session files *)

Section CollectProperties.

Variables page dim : Type.
Variable mediabox_width mediabox_height : page -> dim.
Variable A4 : dim * dim.
Variable listdir : string -> option (list string).
Variable PdfReader : string -> option (list page).
Variable console : message -> bool.
Variable open_out : bool.
Variable out_write : list (out_page page dim) -> bool.

Lemma fold_collect_filter (folder : string) (names : list string)
    (m : Dict.t (Dict.t string)) :
  fold_left (collect_file folder) (filter recognised names) m
  = fold_left (collect_file folder) names m.
Proof.
  revert m. induction names as [|f names IH]; intros m; simpl; [reflexivity |].
  unfold recognised at 1. unfold collect_file at 3.
  destruct (Re.match_ pattern f) as [[sesnum kind]|] eqn:E; simpl.
  - unfold collect_file at 2. rewrite E. apply IH.
  - apply IH.
Qed.

Lemma sessions_files_only :
  sessions (session_files_only listdir) = sessions listdir.
Proof.
  unfold sessions, sum_files, prob_files, collect_files_from, session_files_only.
  destruct (listdir "lecturenotes"), (listdir "problemsets"); simpl;
    now rewrite ?fold_collect_filter.
Qed.

(** X1.  The names of the two directories that the pattern does not match
    play no part: without them the combined mapping and the run are the
    same. *)
Theorem other_files_ignored (merged : option (merged_pdf page dim)) :
  sessions (session_files_only listdir) = sessions listdir /\
  main mediabox_width mediabox_height A4 (session_files_only listdir)
    PdfReader console open_out out_write merged
  = main mediabox_width mediabox_height A4 listdir PdfReader
      console open_out out_write merged.
Proof.
  split; [apply sessions_files_only |].
  unfold main. now rewrite sessions_files_only.
Qed.

Lemma lookup_set (m : Dict.t (Dict.t string)) (s ses kind : string)
    (e : Dict.t string) :
  lookup (Dict.set m s e) ses kind
  = if String.eqb s ses then Dict.get e kind else lookup m ses kind.
Proof.
  unfold lookup. destruct (String.eqb_spec s ses) as [-> | Hne].
  - now rewrite get_set_same.
  - now rewrite get_set_other.
Qed.

Lemma get_default_lookup (m : Dict.t (Dict.t string)) (ses kind : string) :
  Dict.get (Dict.get_default m ses []) kind = lookup m ses kind.
Proof.
  unfold Dict.get_default, lookup. now destruct (Dict.get m ses).
Qed.

Lemma get_set (d : Dict.t string) (k k' v : string) :
  Dict.get (Dict.set d k v) k'
  = if String.eqb k k' then Some v else Dict.get d k'.
Proof.
  destruct (String.eqb_spec k k') as [-> | Hne].
  - apply get_set_same.
  - now apply get_set_other.
Qed.

Lemma lookup_collect_file (folder : string) (m : Dict.t (Dict.t string))
    (f ses kind : string) :
  lookup (collect_file folder m f) ses kind
  = if file_of ses kind f then Some (path_join folder f) else lookup m ses kind.
Proof.
  unfold collect_file, file_of.
  destruct (Re.match_ pattern f) as [[sesnum k]|]; [| reflexivity].
  rewrite lookup_set. destruct (String.eqb_spec sesnum ses) as [-> | Hne];
    simpl; [| reflexivity].
  rewrite get_set, get_default_lookup. reflexivity.
Qed.

Lemma lookup_fold_collect (folder : string) (names : list string)
    (m : Dict.t (Dict.t string)) (ses kind : string) :
  lookup (fold_left (collect_file folder) names m) ses kind
  = match last_file ses kind names with
    | Some f => Some (path_join folder f)
    | None => lookup m ses kind
    end.
Proof.
  revert m. induction names as [|f names IH]; intros m; simpl; [reflexivity |].
  rewrite IH. destruct (last_file ses kind names); [reflexivity |].
  rewrite lookup_collect_file. now destruct (file_of ses kind f).
Qed.

(** X2.  The mapping of a directory gives, for a session and a kind, the
    path of the last name of the listing that the pattern matches with that
    session id and that kind (in whatever letter case), and nothing when
    there is no such name or no such directory: of two spellings of one
    file, the later in the listing is kept. *)
Theorem collect_keeps_last_file (folder ses kind : string) :
  lookup (collect_files_from listdir folder) ses kind
  = option_map (path_join folder) (last_file ses kind (names_of listdir folder)).
Proof.
  unfold collect_files_from, names_of.
  destruct (listdir folder) as [names|]; [| reflexivity].
  rewrite lookup_fold_collect. now destruct (last_file ses kind names).
Qed.


Lemma get_update (d e : Dict.t string) (k : string) :
  NoDup (Dict.keys e) ->
  Dict.get (Dict.update d e) k
  = match Dict.get e k with
    | Some v => Some v
    | None => Dict.get d k
    end.
Proof.
  unfold Dict.update. revert d. induction e as [|[k0 v0] e IH]; intros d Hnd;
    simpl; [reflexivity |].
  inversion Hnd as [|? ? Hnot Hnd']; subst.
  rewrite IH by assumption.
  destruct (String.eqb_spec k0 k) as [-> | Hne].
  - destruct (Dict.get e k) as [v|] eqn:E.
    + exfalso. apply Hnot. apply get_in_keys. now exists v.
    + apply get_set_same.
  - destruct (Dict.get e k); [reflexivity |]. now apply get_set_other.
Qed.

(** The entries of a mapping have distinct kinds. *)
Lemma collect_file_entries (folder : string) (m : Dict.t (Dict.t string))
    (f : string) :
  (forall s e, In (s, e) m -> NoDup (Dict.keys e)) ->
  forall s e, In (s, e) (collect_file folder m f) -> NoDup (Dict.keys e).
Proof.
  intros Hm s e. unfold collect_file.
  destruct (Re.match_ pattern f) as [[sesnum k]|]; [| apply Hm].
  intros H. apply in_set in H. destruct H as [[-> ->] | H]; [| now apply (Hm s)].
  apply NoDup_keys_set. unfold Dict.get_default.
  destruct (Dict.get m sesnum) as [e|] eqn:E; [| constructor].
  apply (Hm sesnum). now apply get_some_in.
Qed.

Lemma collect_files_from_entries (folder s : string) (e : Dict.t string) :
  In (s, e) (collect_files_from listdir folder) -> NoDup (Dict.keys e).
Proof.
  unfold collect_files_from. destruct (listdir folder) as [names|]; [| intros []].
  revert s e.
  apply (fold_left_invariant
           (fun m => forall s e, In (s, e) m -> NoDup (Dict.keys e))).
  - intros acc x. apply collect_file_entries.
  - intros s e [].
Qed.

Lemma lookup_merge_entries (acc files : Dict.t (Dict.t string))
    (ses kind : string) :
  NoDup (Dict.keys files) ->
  (forall s e, In (s, e) files -> NoDup (Dict.keys e)) ->
  lookup (merge_entries acc files) ses kind
  = match lookup files ses kind with
    | Some p => Some p
    | None => lookup acc ses kind
    end.
Proof.
  unfold merge_entries. revert acc.
  induction files as [|[s0 e0] files IH]; intros acc Hnd He; simpl;
    [reflexivity |].
  inversion Hnd as [|? ? Hnot Hnd']; subst.
  rewrite IH; [| assumption | intros s e H; apply (He s); now right].
  rewrite lookup_set. unfold lookup at 3. simpl.
  destruct (String.eqb_spec s0 ses) as [-> | Hne].
  - assert (Hnone : lookup files ses kind = None).
    { unfold lookup. destruct (Dict.get files ses) as [e|] eqn:E; [| reflexivity].
      exfalso. apply Hnot. apply get_in_keys. now exists e. }
    rewrite Hnone, get_update, get_default_lookup; [reflexivity |].
    apply (He ses). now left.
  - reflexivity.
Qed.

(** X3.  The combined mapping is the union of the mappings of the two
    directories, the one of [problemsets] first: for a session and a kind
    it gives the last matching name of [problemsets], and the last matching
    name of [lecturenotes] when [problemsets] has none. *)
Theorem problemsets_take_precedence (ses kind : string) :
  lookup (sessions listdir) ses kind
  = match lookup (prob_files listdir) ses kind with
    | Some p => Some p
    | None => lookup (sum_files listdir) ses kind
    end
  /\
  lookup (sessions listdir) ses kind
  = match last_file ses kind (names_of listdir "problemsets") with
    | Some f => Some (path_join "problemsets" f)
    | None =>
        option_map (path_join "lecturenotes")
          (last_file ses kind (names_of listdir "lecturenotes"))
    end.
Proof.
  assert (H : lookup (sessions listdir) ses kind
              = match lookup (prob_files listdir) ses kind with
                | Some p => Some p
                | None => lookup (sum_files listdir) ses kind
                end).
  { unfold sessions.
    rewrite lookup_merge_entries;
      [| apply collect_files_from_ok | apply collect_files_from_entries].
    rewrite lookup_merge_entries;
      [| apply collect_files_from_ok | apply collect_files_from_entries].
    unfold lookup at 3. simpl.
    now destruct (lookup (sum_files listdir) ses kind). }
  split; [exact H |]. rewrite H.
  unfold prob_files, sum_files, collect_files_from, names_of.
  destruct (listdir "problemsets") as [ps|], (listdir "lecturenotes") as [ls|];
    rewrite ?lookup_fold_collect; unfold lookup; simpl;
    repeat match goal with
           | |- context [last_file ses kind ?l] =>
               destruct (last_file ses kind l)
           end; reflexivity.
Qed.

Lemma set_not_nil {V : Type} (d : Dict.t V) (k : string) (v : V) :
  Dict.set d k v <> [].
Proof. destruct d as [|[k0 v0] d]; simpl; [| destruct (String.eqb k0 k)]; discriminate. Qed.

Lemma fold_collect_nil (folder : string) (names : list string)
    (m : Dict.t (Dict.t string)) :
  fold_left (collect_file folder) names m = [] <->
  m = [] /\ forall f, In f names -> recognised f = false.
Proof.
  revert m. induction names as [|f names IH]; intros m; simpl.
  - split; [intros ->; split; [reflexivity | intros f []] | now intros [-> _]].
  - rewrite IH. unfold collect_file, recognised.
    destruct (Re.match_ pattern f) as [[sesnum k]|] eqn:E.
    + split.
      * intros [H _]. now apply set_not_nil in H.
      * intros [_ H]. specialize (H f (or_introl eq_refl)).
        rewrite E in H. discriminate.
    + split.
      * intros [-> H]. split; [reflexivity |].
        intros g [<- | Hg]; [now rewrite E | now apply H].
      * intros [-> H]. split; [reflexivity |]. intros g Hg. apply H. now right.
Qed.

Lemma collect_files_from_nil (folder : string) :
  collect_files_from listdir folder = [] <->
  forall f, In f (names_of listdir folder) -> recognised f = false.
Proof.
  unfold collect_files_from, names_of. destruct (listdir folder) as [names|].
  - rewrite fold_collect_nil. tauto.
  - split; [intros _ f [] | reflexivity].
Qed.

Lemma merge_entries_nil (acc files : Dict.t (Dict.t string)) :
  merge_entries acc files = [] <-> acc = [] /\ files = [].
Proof.
  unfold merge_entries. revert acc.
  induction files as [|[s0 e0] files IH]; intros acc; simpl.
  - tauto.
  - rewrite IH. split.
    + intros [H _]. now apply set_not_nil in H.
    + intros [_ H]. discriminate.
Qed.

(** X4.  The run stops with [SystemExit(1)] exactly when no name of
    [lecturenotes] and no name of [problemsets] is matched by the pattern,
    a missing directory having no names; [merged.pdf] is then left as it
    was. *)
Theorem exit_without_session_files (merged : option (merged_pdf page dim)) :
  (fst (main mediabox_width mediabox_height A4 listdir PdfReader
          console open_out out_write merged)
   = Raise (SystemExit 1)
   <->
   forall f,
     In f (names_of listdir "lecturenotes") \/
     In f (names_of listdir "problemsets") ->
     recognised f = false)
  /\
  ((forall f,
       In f (names_of listdir "lecturenotes") \/
       In f (names_of listdir "problemsets") ->
       recognised f = false) ->
   main mediabox_width mediabox_height A4 listdir PdfReader
     console open_out out_write merged
   = (Raise (SystemExit 1), merged)).
Proof.
  assert (Hnil : sessions listdir = [] <->
                 forall f,
                   In f (names_of listdir "lecturenotes") \/
                   In f (names_of listdir "problemsets") ->
                   recognised f = false).
  { unfold sessions, sum_files, prob_files.
    rewrite !merge_entries_nil, !collect_files_from_nil. split.
    - intros [[_ Hl] Hp] f [H | H]; auto.
    - intros H. repeat split; intros f Hf; apply H; auto. }
  rewrite <- Hnil.
  destruct (main_cases _ _ mediabox_width mediabox_height A4 listdir PdfReader
              console open_out out_write merged)
    as [[Hss ->] | [(Hss & _ & ->) | [(Hss & p & _ & _ & ->)
       | (Hss & order & cs & _ & _ & _ & _ & _ &
          [(_ & ->) | [(_ & _ & ->) | [(_ & _ & _ & ->) | (_ & _ & _ & ->)]]])]]];
    simpl; split; try tauto;
    split; try discriminate; contradiction.
Qed.

End CollectProperties.

(** ** The order of the sessions *)

Section OrderProperties.

Lemma sort_same_key {A : Type} (k : list Z) (l : list (list Z * A)) :
  Forall (fun x => fst x = k) l -> Sort.sort l = l.
Proof.
  induction 1 as [|x l Hx Hl IH]; simpl; [reflexivity |].
  rewrite IH. destruct Hl as [|y l Hy Hl]; simpl; [reflexivity |].
  now rewrite Hx, Hy, list_lt_irrefl.
Qed.

Lemma sorted_same_key {A : Type} (key : A -> result (list Z)) (k : list Z)
    (l : list A) :
  Forall (fun a => key a = Ok k) l -> Sort.sorted key l = Ok l.
Proof.
  intros H. unfold Sort.sorted.
  assert (Hks : exists ks,
             map_result key l = Ok ks /\ map snd (combine ks l) = l /\
             Forall (fun x => fst x = k) (combine ks l)).
  { induction H as [|a l Ha _ (ks & IH1 & IH2 & IH3)]; simpl.
    - exists []. repeat split; constructor.
    - rewrite Ha, IH1. simpl. exists (k :: ks). simpl. rewrite IH2.
      repeat split. now constructor. }
  destruct Hks as (ks & -> & Hsnd & Hall). simpl.
  now rewrite (sort_same_key k _ Hall), Hsnd.
Qed.

Lemma has_key_true (k : list Z) (s : string) :
  has_key k s = true -> session_key s = Ok k.
Proof.
  unfold has_key. destruct (session_key s) as [k'|]; [| discriminate].
  destruct (list_eq_dec Z.eq_dec k' k) as [-> |]; [reflexivity | discriminate].
Qed.

(** X5.  [sorted] is stable: the sessions whose ids have the same sort key
    (such as "1.1" and "01.1") are processed in the order in which their
    keys were inserted in the combined mapping. *)
Theorem equal_keys_keep_insertion_order (ss : Dict.t (Dict.t string))
    (order : list string) (k : list Z) :
  session_order ss = Ok order ->
  filter (has_key k) order = filter (has_key k) (Dict.keys ss).
Proof.
  unfold session_order. intros H.
  apply (sorted_filter session_key (has_key k)) in H.
  rewrite sorted_same_key with (k := k) in H.
  - now injection H as <-.
  - apply Forall_forall. intros s Hs. apply filter_In in Hs.
    now apply has_key_true.
Qed.

End OrderProperties.

(** ** The merged document *)

Section OutputProperties.

Variables page dim : Type.
Variable mediabox_width mediabox_height : page -> dim.
Variable A4 : dim * dim.
Variable listdir : string -> option (list string).
Variable PdfReader : string -> option (list page).

(** X6.  Three operations of the merge never fail.  On the combined
    mapping, [int] accepts every component of every session id, so that
    [sorted] delivers an order; [sessions[ses]] finds an entry for every
    id of that order; and [r.pages[i]] is never out of range, the copy
    loop appending every page of a document but the last. *)
Theorem order_lookup_copy_never_fail :
  (exists order,
      session_order (sessions listdir) = Ok order /\
      forall ses, In ses order ->
                  exists pair, Dict.get (sessions listdir) ses = Some pair)
  /\
  (forall (r : list page) (out0 : list (out_page page dim)),
      add_pages r out0 = Ok (out0 ++ kept r)).
Proof.
  split.
  - destruct (sessions_ok listdir) as [Hnd Hwf].
    destruct (sorted_total session_key (Dict.keys (sessions listdir)))
      as [order Ho].
    { rewrite Forall_forall in *. intros k Hk.
      destruct (Hwf k Hk) as (p & s & Hd).
      eexists. now apply (session_key_dotted k p s). }
    destruct (sorted_spec session_key _ _ Ho) as [Hperm _].
    exists order. split; [exact Ho |].
    intros ses Hses. apply get_in_keys.
    now apply (Permutation_in _ Hperm).
  - intros r out0. apply add_pages_spec.
Qed.

Lemma session_pages_even (ss : Dict.t (Dict.t string)) (ses : string)
    (c : list (out_page page dim)) :
  session_pages mediabox_width mediabox_height A4 PdfReader ss ses = Ok c ->
  Nat.even (length c) = true.
Proof.
  unfold session_pages. destruct (Dict.get ss ses) as [pair|]; [| discriminate].
  simpl. destruct (Dict.get pair "sum") as [sum_file|] eqn:Hsum.
  - intros H.
    destruct (process_session_ok_inv _ _ _ _ _ _ pair [] c sum_file Hsum H)
      as (s & p & _ & _ & ->).
    simpl. rewrite length_app.
    destruct (padding_cases _ _ mediabox_width mediabox_height A4 s p)
      as [[Ho (w & h & ->)] | [Ho ->]]; simpl.
    + rewrite Nat.add_1_r, Nat.even_succ. exact Ho.
    + rewrite Nat.add_0_r, <- Nat.negb_odd, Ho. reflexivity.
  - rewrite process_session_skip by assumption. intros H. now injection H as <-.
Qed.

Lemma concat_even {X : Type} (cs : list (list X)) :
  Forall (fun c => Nat.even (length c) = true) cs ->
  Nat.even (length (concat cs)) = true.
Proof.
  induction 1 as [|c cs Hc _ IH]; simpl; [reflexivity |].
  now rewrite length_app, Nat.even_add, Hc, IH.
Qed.

(** X7.  In a completed merge every session appends an even number of
    pages: each session starts at an even page index (on a fresh leaf in
    duplex printing), and the merged document has an even number of
    pages. *)
Theorem sessions_start_on_fresh_leaf (out0 : list (out_page page dim)) :
  merge_sessions mediabox_width mediabox_height A4 listdir PdfReader = Ok out0 ->
  exists order cs,
    session_order (sessions listdir) = Ok order /\
    Forall2
      (fun ses c =>
         session_pages mediabox_width mediabox_height A4 PdfReader
           (sessions listdir) ses = Ok c)
      order cs /\
    out0 = concat cs /\
    Nat.even (length out0) = true /\
    forall cs1 cs2,
      cs = cs1 ++ cs2 -> Nat.even (length (concat cs1)) = true.
Proof.
  intros H. unfold merge_sessions in H.
  assert (Hl : merge_loop mediabox_width mediabox_height A4 PdfReader
                 (sessions listdir) = Ok out0)
    by (destruct (sessions listdir); [discriminate | exact H]).
  rewrite merge_loop_spec in Hl.
  destruct (session_order (sessions listdir)) as [order|] eqn:Ho;
    [| discriminate].
  simpl in Hl. destruct (map_result _ order) as [cs|] eqn:Hcs; [| discriminate].
  injection Hl as <-. apply map_result_ok in Hcs.
  assert (Heven : Forall (fun c => Nat.even (length c) = true) cs).
  { clear Ho H. induction Hcs as [|ses c order cs Hc _ IH]; constructor.
    - now apply (session_pages_even (sessions listdir) ses).
    - exact IH. }
  exists order, cs. repeat split; try assumption.
  - now apply concat_even.
  - intros cs1 cs2 ->. apply concat_even.
    apply Forall_app in Heven. tauto.
Qed.

Lemma prob_pages_nonempty (pair : Dict.t string) (p0 : page) (p : list page) :
  prob_pages PdfReader pair = Ok (p0 :: p) ->
  exists prob_file,
    Dict.get pair "prob" = Some prob_file /\
    PdfReader prob_file = Some (p0 :: p).
Proof.
  unfold prob_pages, read_pdf.
  destruct (Dict.get pair "prob") as [prob_file|]; [| discriminate].
  destruct (PdfReader prob_file) as [r|] eqn:E; [| discriminate].
  intros H. injection H as ->. now exists prob_file.
Qed.

Lemma session_pages_from_sources (ss : Dict.t (Dict.t string)) (ses : string)
    (c : list (out_page page dim)) :
  session_pages mediabox_width mediabox_height A4 PdfReader ss ses = Ok c ->
  Forall (from_sources mediabox_width mediabox_height PdfReader ss) c.
Proof.
  unfold session_pages.
  destruct (Dict.get ss ses) as [pair|] eqn:Hget; [| discriminate].
  apply get_some_in in Hget. simpl.
  destruct (Dict.get pair "sum") as [sum_file|] eqn:Hsum.
  - intros H.
    destruct (process_session_ok_inv _ _ _ _ _ _ pair [] c sum_file Hsum H)
      as (s & p & E & Hp & ->).
    assert (Hsf : In sum_file (opened_by ss)).
    { apply (in_opened_by ss ses pair); [assumption |].
      unfold opened. rewrite Hsum. now left. }
    assert (Hpf : forall p0 p', p = p0 :: p' ->
                  exists prob_file,
                    In prob_file (opened_by ss) /\ PdfReader prob_file = Some p).
    { intros p0 p' ->. destruct (prob_pages_nonempty pair p0 p' Hp) as (pf & H1 & H2).
      exists pf. split; [| assumption].
      apply (in_opened_by ss ses pair); [assumption |].
      unfold opened. rewrite Hsum, H1. right. now left. }
    simpl. unfold content, kept. rewrite !Forall_app. repeat split.
    + apply Forall_forall. intros x Hx. apply in_map_iff in Hx.
      destruct Hx as (q & <- & Hq). simpl. now exists sum_file, s.
    + apply Forall_forall. intros x Hx. apply in_map_iff in Hx.
      destruct Hx as (q & <- & Hq). simpl.
      destruct p as [|p0 p']; [destruct Hq |].
      destruct (Hpf p0 p' eq_refl) as (pf & H1 & H2). now exists pf, (p0 :: p').
    + unfold padding. destruct (Nat.odd _) eqn:Ho; [| constructor].
      destruct s as [|s0 s'].
      * destruct p as [|p0 p']; [discriminate Ho |].
        destruct (Hpf p0 p' eq_refl) as (pf & H1 & H2).
        simpl. constructor; [| constructor]. simpl.
        now exists pf, (p0 :: p'), p0.
      * simpl. constructor; [| constructor]. simpl.
        now exists sum_file, (s0 :: s'), s0.
  - rewrite process_session_skip by assumption.
    intros H. injection H as <-. constructor.
Qed.

(** X8.  Every page of a completed merge comes from the sources: a copied
    page is a page, other than the last, of a PDF that the loop has opened,
    and a filler page has the width and the height of the first page of
    such a PDF. *)
Theorem output_pages_from_sources (out0 : list (out_page page dim)) :
  merge_sessions mediabox_width mediabox_height A4 listdir PdfReader = Ok out0 ->
  Forall (from_sources mediabox_width mediabox_height PdfReader (sessions listdir))
    out0.
Proof.
  intros H. unfold merge_sessions in H.
  assert (Hl : merge_loop mediabox_width mediabox_height A4 PdfReader
                 (sessions listdir) = Ok out0)
    by (destruct (sessions listdir); [discriminate | exact H]).
  rewrite merge_loop_spec in Hl.
  destruct (session_order (sessions listdir)) as [order|]; [| discriminate].
  simpl in Hl. destruct (map_result _ order) as [cs|] eqn:Hcs; [| discriminate].
  injection Hl as <-. apply map_result_ok in Hcs. clear H.
  induction Hcs as [|ses c order cs Hc _ IH]; simpl; [constructor |].
  apply Forall_app. split; [| exact IH].
  now apply (session_pages_from_sources (sessions listdir) ses).
Qed.

(** X9.  A session that has a summary and no problem document appends the
    pages of the summary but the last and, when their number is odd (the
    summary has an even, positive number of pages), one filler page of the
    size of the first summary page. *)
Theorem summary_only_session (pair : Dict.t string)
    (out0 : list (out_page page dim)) (sum_file : string) (s : list page) :
  Dict.get pair "sum" = Some sum_file ->
  PdfReader sum_file = Some s ->
  Dict.get pair "prob" = None ->
  process_session mediabox_width mediabox_height A4 PdfReader pair out0
  = Ok (out0 ++ map Copied (removelast s)
        ++ match s with
           | p0 :: _ =>
               if Nat.even (length s)
               then [Filler (mediabox_width p0) (mediabox_height p0)]
               else []
           | [] => []
           end).
Proof.
  intros Hsum E Hprob.
  rewrite (process_session_spec _ _ _ _ _ _ pair out0 sum_file s []) ;
    [| assumption | assumption | unfold prob_pages; now rewrite Hprob].
  unfold padding, content.
  replace (@kept page dim []) with (@nil (out_page page dim)) by reflexivity.
  rewrite !app_nil_r, length_kept. unfold kept.
  destruct s as [|p0 s']; [reflexivity |].
  replace (length (p0 :: s') - 1) with (length s') by (simpl; lia).
  simpl length. rewrite Nat.even_succ. simpl reference_size.
  now destruct (Nat.odd (length s')).
Qed.

End OutputProperties.

(** ** The new name of a file *)

Section NewNameProperties.

Local Open Scope string_scope.

Lemma bind_ret {A : Type} (p : Re.t A) (s : string) :
  Re.bind p Re.ret s = p s.
Proof.
  unfold Re.bind, Re.ret. induction (p s) as [|[a r] l IH]; simpl;
    [reflexivity | now rewrite IH].
Qed.

Lemma flat_map_cons_match {B : Type} (g : string -> list B) (c : ascii)
    (l : list (string * string)) :
  flat_map (fun ar => g (snd ar)) (map (Re.cons_match c) l)
  = flat_map (fun ar => g (snd ar)) l.
Proof.
  induction l as [|[m r] l IH]; simpl; [reflexivity | now rewrite IH].
Qed.

(** The matches of [.*?(...)] at a position: those of the group there, then
    those at the next position unless a newline is in the way. *)
Lemma rename_pattern_cons (c : ascii) (s : string) :
  rename_pattern (String c s)
  = (session_file_pattern (String c s)
     ++ if negb (Ascii.eqb c "010"%char) then rename_pattern s else [])%list.
Proof.
  unfold rename_pattern, Re.bind at 1.
  cbn [Re.lazy_star flat_map fst snd].
  change (Re.bind session_file_pattern (fun g1 => Re.ret g1))
    with (Re.bind session_file_pattern Re.ret).
  rewrite bind_ret. f_equal.
  destruct (negb (Ascii.eqb c "010"%char)); [| reflexivity].
  unfold Re.bind at 2.
  apply (flat_map_cons_match (Re.bind session_file_pattern Re.ret)).
Qed.

Lemma rename_pattern_no_match (s : string) :
  Spec.strip_to_first_match s = None -> rename_pattern s = [].
Proof.
  induction s as [|c s IH]; [reflexivity |].
  cbn [Spec.strip_to_first_match].
  destruct (Re.match_ session_file_pattern (String c s)) eqn:E; [discriminate |].
  intros H. rewrite rename_pattern_cons.
  apply match_none_iff in E. rewrite E, (IH H). now destruct (negb _).
Qed.

Lemma sub_no_match (n : nat) (s : string) :
  Spec.strip_to_first_match s = None -> Re.sub_fuel n rename_pattern s = s.
Proof.
  revert n. induction s as [|c s IH]; intros [|n] H; try reflexivity.
  cbn [Re.sub_fuel]. unfold Re.match_end.
  rewrite (rename_pattern_no_match _ H).
  cbn [Spec.strip_to_first_match] in H.
  destruct (Re.match_ session_file_pattern (String c s)); [discriminate |].
  now rewrite (IH n H).
Qed.

(** X10.  A name in which the pattern matches at no position gets itself as
    new name, and the loop leaves the directory as it is, even when the
    name contains "Ses" and ends in ".pdf". *)
Theorem name_without_match_kept (file : Type) (filename : string)
    (d : Dict.t file) :
  Spec.strip_to_first_match filename = None ->
  new_name filename = filename /\ rename_one filename d = Ok d.
Proof.
  intros H.
  assert (Hn : new_name filename = filename) by (now apply sub_no_match).
  split; [exact Hn |].
  unfold rename_one. rewrite Hn, String.eqb_refl. simpl.
  now destruct (Str.endswith filename ".pdf" && Str.contains filename "Ses")%bool.
Qed.

Lemma strip_prefix (pre t : string) :
  Spec.strip_to_first_match (pre ++ t) = Some t ->
  pre = "" \/
  exists c pre',
    pre = String c pre' /\
    Re.match_ session_file_pattern (pre ++ t) = None /\
    Spec.strip_to_first_match (pre' ++ t) = Some t.
Proof.
  destruct pre as [|c pre']; [now left | right].
  exists c, pre'. split; [reflexivity |].
  cbn [String.append Spec.strip_to_first_match] in *.
  destruct (Re.match_ session_file_pattern (String c (pre' ++ t))).
  - injection H as H. exfalso.
    apply (f_equal String.length) in H. simpl in H.
    rewrite slength_app in H. lia.
  - now split.
Qed.

Lemma first_match_found (pre t g rest : string) :
  no_newline pre = true ->
  Spec.strip_to_first_match (pre ++ t) = Some t ->
  Re.match_end session_file_pattern t = Some (g, rest) ->
  Re.match_end rename_pattern (pre ++ t) = Some (g, rest).
Proof.
  intros Hnl Hs Hm. induction pre as [|c pre IH].
  - simpl. destruct t as [|c t].
    + discriminate Hm.
    + unfold Re.match_end in *. rewrite rename_pattern_cons.
      destruct (session_file_pattern (String c t)); [discriminate | exact Hm].
  - destruct (strip_prefix _ _ Hs) as [H | (c' & pre' & H & Hnone & Hs')];
      [discriminate |].
    injection H as <- <-.
    unfold no_newline in Hnl. simpl in Hnl.
    apply andb_true_iff in Hnl. destruct Hnl as [Hc Hnl].
    cbn [String.append]. unfold Re.match_end. rewrite rename_pattern_cons.
    apply match_none_iff in Hnone. cbn [String.append] in Hnone.
    rewrite Hnone, Hc. simpl. now apply IH.
Qed.

(** X11.  On a name with one match of the pattern and no newline before it,
    the new name is the name from that match on: everything before the
    match is dropped and nothing else. *)
Theorem name_with_one_match (pre t g rest : string) :
  no_newline pre = true ->
  Spec.strip_to_first_match (pre ++ t) = Some t ->
  Re.match_end session_file_pattern t = Some (g, rest) ->
  Spec.strip_to_first_match rest = None ->
  new_name (pre ++ t) = t /\ Spec.stripped (pre ++ t) = t.
Proof.
  intros Hnl Hs Hm Hrest. split; [| unfold Spec.stripped; now rewrite Hs].
  unfold new_name, Re.sub. cbn [Re.sub_fuel].
  rewrite (first_match_found pre t g rest Hnl Hs Hm).
  rewrite sub_no_match by assumption.
  unfold Re.match_end in Hm.
  destruct (session_file_pattern t) as [|[g' r'] l] eqn:E; [discriminate |].
  injection Hm as -> ->.
  destruct (session_file_pattern_text t g rest) as [-> _];
    [rewrite E; now left | reflexivity].
Qed.

End NewNameProperties.

(** ** The rename loop *)

Section RenameProperties.

Variable file : Type.
Implicit Types (d st : Dict.t file) (x n : string) (f : file).

Lemma set_fresh d n f :
  ~ In n (Dict.keys d) -> Dict.set d n f = d ++ [(n, f)].
Proof.
  induction d as [|[k v] d IH]; simpl; intros H; [reflexivity |].
  destruct (String.eqb_spec k n) as [-> | Hne]; [exfalso; apply H; now left |].
  rewrite IH; [reflexivity |]. intros Hin. apply H. now right.
Qed.

Lemma remove_absent d n : ~ In n (Dict.keys d) -> Dict.remove d n = d.
Proof.
  induction d as [|[k v] d IH]; simpl; intros H; [reflexivity |].
  destruct (String.eqb_spec k n) as [-> | Hne]; [exfalso; apply H; now left |].
  rewrite IH; [reflexivity |]. intros Hin. apply H. now right.
Qed.

Lemma remove_perm d n f :
  NoDup (Dict.keys d) -> In (n, f) d ->
  Permutation d ((n, f) :: Dict.remove d n).
Proof.
  induction d as [|[k v] d IH]; simpl; intros Hnd Hin; [destruct Hin |].
  inversion Hnd as [|? ? Hnot Hnd']; subst.
  destruct Hin as [H | Hin].
  - injection H as -> ->. rewrite String.eqb_refl.
    now rewrite remove_absent.
  - destruct (String.eqb_spec k n) as [-> | Hne].
    + exfalso. apply Hnot. change n with (fst (n, f)). now apply in_map.
    + rewrite perm_swap. constructor. now apply IH.
Qed.

Lemma keys_renamed (l : Dict.t file) :
  Dict.keys (map renamed l) = map target (Dict.keys l).
Proof.
  unfold Dict.keys. rewrite !map_map. reflexivity.
Qed.

(** One step for a name whose turn it is: the entry moves to its new
    name. *)
Lemma rename_one_step st x f (rest : Dict.t file) :
  NoDup (Dict.keys st) ->
  Permutation st ((x, f) :: rest) ->
  ~ (target x <> x /\ In (target x) (Dict.keys rest)) ->
  exists st',
    rename_one x st = Ok st' /\ Permutation st' (rest ++ [renamed (x, f)]).
Proof.
  intros Hnd Hperm Hfree.
  assert (Hin : In (x, f) st)
    by (apply (Permutation_in _ (Permutation_sym Hperm)); now left).
  assert (Hrest : Permutation (Dict.remove st x) rest).
  { apply (Permutation_cons_inv (a := (x, f))).
    rewrite <- Hperm. symmetry. now apply remove_perm. }
  unfold rename_one, renamed, target. simpl.
  destruct (Str.endswith x ".pdf" && Str.contains x "Ses")%bool eqn:Hg.
  - destruct (String.eqb_spec (new_name x) x) as [Heq | Hne]; simpl.
    + exists st. split; [reflexivity |]. rewrite Heq, Hperm.
      apply Permutation_cons_append.
    + unfold os_rename. rewrite (in_get _ _ _ Hnd Hin).
      eexists. split; [reflexivity |].
      rewrite set_fresh.
      * now apply Permutation_app_tail.
      * intros H. apply Hfree. unfold target. rewrite Hg.
        split; [assumption |].
        apply (Permutation_in _ (Permutation_map fst Hrest)). exact H.
  - exists st. split; [reflexivity |]. rewrite Hperm.
    apply Permutation_cons_append.
Qed.

Lemma nodup_insert {X : Type} (a : X) (l1 l2 : list X) :
  NoDup (l1 ++ l2) -> ~ In a (l1 ++ l2) -> NoDup (l1 ++ a :: l2).
Proof.
  intros Hnd Hin. apply (Permutation_NoDup (Permutation_middle l1 l2 a)).
  now constructor.
Qed.

(** The loop from a state in which the entries [done] have had their turn
    and the entries [todo] are still to come. *)
Lemma rename_loop (todo done : Dict.t file) st :
  NoDup (map target (map fst done) ++ map fst todo) ->
  NoDup (map target (map fst done) ++ map target (map fst todo)) ->
  (forall n, In n (map fst todo) -> target n <> n ->
             ~ In (target n) (map fst todo)) ->
  Permutation st (todo ++ map renamed done) ->
  exists st',
    for_each rename_one (map fst todo) st = Ok st' /\
    Permutation st' (map renamed (done ++ todo)).
Proof.
  revert done st.
  induction todo as [|[x f] todo IH]; intros done st Hnd Ht Hfree Hperm.
  - simpl in *. exists st. split; [reflexivity |]. now rewrite app_nil_r.
  - simpl in Hnd, Ht, Hperm.
    assert (Hx : ~ In x (map target (map fst done) ++ map fst todo))
      by (now apply NoDup_remove_2 in Hnd).
    assert (Htx : ~ In (target x)
                    (map target (map fst done) ++ map target (map fst todo)))
      by (now apply NoDup_remove_2 in Ht).
    assert (Hnew : ~ In (target x) (map target (map fst done) ++ map fst todo)).
    { intros Hin. apply in_app_or in Hin. destruct Hin as [Hin | Hin].
      - apply Htx, in_or_app. now left.
      - destruct (String.eqb_spec (target x) x) as [Heq | Hne].
        + apply Hx, in_or_app. right. now rewrite <- Heq.
        + apply (Hfree x); [now left | assumption | now right]. }
    assert (Hkeys : Permutation (map fst st)
                      (map target (map fst done) ++ x :: map fst todo)).
    { rewrite (Permutation_map fst Hperm). simpl. rewrite map_app.
      rewrite <- Permutation_middle. constructor.
      rewrite Permutation_app_comm. apply Permutation_app_tail.
      unfold renamed. rewrite !map_map. reflexivity. }
    assert (Hst : NoDup (Dict.keys st))
      by (apply (Permutation_NoDup (Permutation_sym Hkeys)); exact Hnd).
    destruct (rename_one_step st x f (todo ++ map renamed done) Hst Hperm)
      as (st1 & Hstep & Hperm1).
    { intros [Hne Hin]. apply Hnew.
      unfold Dict.keys in Hin. rewrite map_app in Hin.
      apply in_app_or in Hin. apply in_or_app.
      destruct Hin as [Hin | Hin]; [now right | left].
      unfold renamed in Hin. rewrite !map_map in Hin. now rewrite map_map. }
    simpl. rewrite Hstep.
    destruct (IH (done ++ [(x, f)]) st1) as (st' & Hrun & Hfinal).
    + rewrite !map_app. simpl. rewrite <- app_assoc. simpl.
      apply nodup_insert; [now apply NoDup_remove_1 in Hnd | exact Hnew].
    + rewrite !map_app. simpl. rewrite <- app_assoc. exact Ht.
    + intros n Hn Hne Hin. apply (Hfree n); [now right | assumption | now right].
    + rewrite Hperm1, map_app, app_assoc. reflexivity.
    + exists st'. split; [exact Hrun |]. now rewrite <- app_assoc in Hfinal.
Qed.

(** X12.  When the names of a directory are distinct, the names that the
    loop gives are distinct too, and no file gets the name of another file
    of the directory, the loop completes and every file is found, with its
    content, under the name from its first match on when it ends in ".pdf"
    and contains "Ses", and under its own name otherwise. *)
Theorem rename_all_without_collision (d : Dict.t file) :
  NoDup (Dict.keys d) ->
  NoDup (map target (Dict.keys d)) ->
  (forall n, In n (Dict.keys d) -> target n <> n ->
             ~ In (target n) (Dict.keys d)) ->
  exists d',
    rename_all d = Ok d' /\
    Permutation d' (map renamed d) /\
    forall n f, In (n, f) d -> Dict.get d' (target n) = Some f.
Proof.
  intros Hnd Ht Hfree.
  destruct (rename_loop d [] d) as (d' & Hrun & Hperm).
  - exact Hnd.
  - exact Ht.
  - exact Hfree.
  - simpl. now rewrite app_nil_r.
  - exists d'. split; [exact Hrun |]. simpl in Hperm. split; [exact Hperm |].
    intros n f Hin. apply in_get.
    + apply (Permutation_NoDup
               (Permutation_sym (Permutation_map fst Hperm))).
      fold (Dict.keys (map renamed d)). now rewrite keys_renamed.
    + apply (Permutation_in _ (Permutation_sym Hperm)).
      change (target n, f) with (renamed (n, f)). now apply in_map.
Qed.

End RenameProperties.

(** ** A second run of the rename utility *)

Section SecondRun.

Local Open Scope string_scope.

(** The matches of the group of the rename pattern. *)
Lemma in_session_file_pattern (s g r : string) :
  In (g, r) (session_file_pattern s) <->
  exists d1 d2 k,
    s = g ++ r /\
    g = "Ses" ++ d1 ++ "." ++ d2 ++ k ++ ".pdf" /\
    d1 <> "" /\ Str.all Str.is_digit d1 = true /\
    d2 <> "" /\ Str.all Str.is_digit d2 = true /\
    (k = "sum" \/ k = "prob").
Proof.
  unfold session_file_pattern. split.
  - intros H.
    apply in_cat in H. destruct H as (a & b & r1 & Ha & H & ->).
    apply in_lit in Ha. destruct Ha as [-> Ha]. simpl in Ha. subst a.
    apply in_cat in H. destruct H as (d1 & b1 & r2 & Hd1 & H & ->).
    apply in_plus in Hd1. destruct Hd1 as (-> & Hd1 & Hd1').
    apply in_cat in H. destruct H as (dt & b2 & r3 & Hdt & H & ->).
    unfold Re.chr in Hdt. apply in_one in Hdt.
    destruct Hdt as (c & -> & -> & Hc). apply Ascii.eqb_eq in Hc. subst c.
    apply in_cat in H. destruct H as (d2 & b3 & r4 & Hd2 & H & ->).
    apply in_plus in Hd2. destruct Hd2 as (-> & Hd2 & Hd2').
    apply in_cat in H. destruct H as (k & e & r5 & Hk & He & ->).
    apply in_lit in He. destruct He as [-> He]. simpl in He. subst e.
    assert (Hk' : r4 = k ++ ".pdf" ++ r /\ (k = "sum" \/ k = "prob")).
    { apply in_alt in Hk. destruct Hk as [Hk | Hk];
        apply in_lit in Hk; destruct Hk as [-> Hk]; simpl in Hk; subst k; auto. }
    destruct Hk' as [-> Hk'].
    exists d1, d2, k. repeat split; try assumption.
    now rewrite !sapp_assoc.
  - intros (d1 & d2 & k & -> & -> & Hd1 & Hd1' & Hd2 & Hd2' & Hk).
    rewrite !sapp_assoc.
    apply in_cat. exists "Ses", (d1 ++ "." ++ d2 ++ k ++ ".pdf"),
      (d1 ++ "." ++ d2 ++ k ++ ".pdf" ++ r).
    split; [| split].
    { apply in_lit. now split. }
    2: { reflexivity. }
    apply in_cat. exists d1, ("." ++ d2 ++ k ++ ".pdf"),
      ("." ++ d2 ++ k ++ ".pdf" ++ r).
    split; [| split; [| reflexivity]].
    { apply in_plus. now repeat split. }
    apply in_cat. exists ".", (d2 ++ k ++ ".pdf"), (d2 ++ k ++ ".pdf" ++ r).
    split; [| split; [| reflexivity]].
    { unfold Re.chr. apply in_one. exists "."%char. now repeat split. }
    apply in_cat. exists d2, (k ++ ".pdf"), (k ++ ".pdf" ++ r).
    split; [| split; [| reflexivity]].
    { apply in_plus. now repeat split. }
    apply in_cat. exists k, ".pdf", (".pdf" ++ r).
    split; [| split; [| reflexivity]].
    { apply in_alt. destruct Hk as [-> | ->]; [left | right];
        apply in_lit; now split. }
    apply in_lit. now split.
Qed.


Lemma session_file_in_pattern (s g r : string) :
  In (g, r) (session_file_pattern s) ->
  exists sid k,
    In ((sid, k), r) (pattern s) /\
    g = "Ses" ++ sid ++ k ++ ".pdf" /\ (k = "sum" \/ k = "prob").
Proof.
  intros H. apply in_session_file_pattern in H.
  destruct H as (d1 & d2 & k & -> & -> & Hd1 & Hd1' & Hd2 & Hd2' & Hk).
  exists (d1 ++ "." ++ d2), k. split; [| split; [| assumption]].
  - apply in_pattern. exists "Ses", d1, d2, ".pdf".
    repeat split; try assumption; try reflexivity.
    + now rewrite !sapp_assoc.
    + destruct Hk as [-> | ->]; [left | right]; reflexivity.
  - now rewrite !sapp_assoc.
Qed.

Lemma session_file_unique (s g r g' r' : string) :
  In (g, r) (session_file_pattern s) -> In (g', r') (session_file_pattern s) ->
  g = g' /\ r = r'.
Proof.
  intros H H'. apply session_file_in_pattern in H, H'.
  destruct H as (sid & k & H & -> & _). destruct H' as (sid' & k' & H' & -> & _).
  destruct (pattern_unique _ _ _ _ _ _ _ H H') as (-> & -> & ->). now split.
Qed.

(** A name that starts with a match of the group is a name that the
    pattern of the merger matches. *)
Lemma session_file_recognised (t g rest : string) :
  Re.match_end session_file_pattern t = Some (g, rest) ->
  recognised t = true /\
  exists sid kind,
    Re.match_ pattern t = Some (sid, kind) /\
    (kind = "sum" \/ kind = "prob") /\
    g = "Ses" ++ sid ++ kind ++ ".pdf".
Proof.
  unfold Re.match_end. intros H.
  destruct (session_file_pattern t) as [|[g' r'] l] eqn:E; [discriminate |].
  injection H as -> ->.
  destruct (session_file_in_pattern t g rest) as (sid & k & Hin & Hg & Hk);
    [rewrite E; now left |].
  assert (Hm : Re.match_ pattern t = Some (sid, k)).
  { apply (match_unique pattern t _ rest Hin).
    intros [s1 k1] r1 H1.
    destruct (pattern_unique _ _ _ _ _ _ _ Hin H1) as (-> & -> & _).
    reflexivity. }
  split; [unfold recognised; now rewrite Hm |].
  now exists sid, k.
Qed.

(** A match of the group is the same whatever follows it. *)
Lemma session_file_head (s g r x : string) :
  In (g, r) (session_file_pattern s) ->
  Re.match_end session_file_pattern (g ++ x) = Some (g, x).
Proof.
  intros H.
  assert (Hin : In (g, x) (session_file_pattern (g ++ x))).
  { apply in_session_file_pattern in H.
    destruct H as (d1 & d2 & k & _ & H).
    apply in_session_file_pattern. now exists d1, d2, k. }
  unfold Re.match_end.
  destruct (session_file_pattern (g ++ x)) as [|[g' r'] l] eqn:E;
    [destruct Hin |].
  destruct (session_file_unique (g ++ x) g x g' r') as [-> ->];
    [rewrite E; exact Hin | rewrite E; now left | reflexivity].
Qed.

Lemma digits_no_newline (d : string) :
  Str.all Str.is_digit d = true -> no_newline d = true.
Proof.
  unfold no_newline. induction d as [|c d IH]; simpl; [reflexivity |].
  intros H. apply andb_true_iff in H. destruct H as [Hc Hd].
  rewrite (IH Hd), andb_true_r.
  destruct (Ascii.eqb_spec c "010"%char) as [-> |]; [discriminate | reflexivity].
Qed.

Lemma no_newline_app (a b : string) :
  no_newline (a ++ b) = no_newline a && no_newline b.
Proof. apply all_app. Qed.

Lemma session_file_no_newline (s g r : string) :
  In (g, r) (session_file_pattern s) -> no_newline g = true.
Proof.
  intros H. apply in_session_file_pattern in H.
  destruct H as (d1 & d2 & k & _ & -> & _ & Hd1 & _ & Hd2 & Hk).
  rewrite !no_newline_app, (digits_no_newline d1 Hd1), (digits_no_newline d2 Hd2).
  destruct Hk as [-> | ->]; reflexivity.
Qed.

Lemma first_line_app (g r : string) :
  no_newline g = true -> first_line (g ++ r) = g ++ first_line r.
Proof.
  unfold no_newline. induction g as [|c g IH]; simpl; [reflexivity |].
  intros H. apply andb_true_iff in H. destruct H as [Hc Hg].
  apply negb_true_iff in Hc. now rewrite Hc, (IH Hg).
Qed.

Lemma first_line_prefix (s : string) : exists rest, s = first_line s ++ rest.
Proof.
  induction s as [|c s [rest IH]]; simpl; [now exists "" |].
  destruct (Ascii.eqb c "010"%char).
  - now exists (String c s).
  - exists rest. simpl. now rewrite <- IH.
Qed.

Lemma nil_or_in {X : Type} (l : list X) : l = [] \/ exists x, In x l.
Proof. destruct l as [|x l]; [now left | right; exists x; now left]. Qed.

(** Whether the group matches at the start of a string, and whether the
    pattern matches there, depends on the first line of the string only. *)
Lemma session_file_first_line (s : string) :
  session_file_pattern s = [] <-> session_file_pattern (first_line s) = [].
Proof.
  split; intros H.
  - destruct (nil_or_in (session_file_pattern (first_line s)))
      as [H' | [[g r] Hin]]; [assumption | exfalso].
    apply in_session_file_pattern in Hin.
    destruct Hin as (d1 & d2 & k & Hs & Hg).
    destruct (first_line_prefix s) as [rest Hrest].
    assert (Hin : In (g, r ++ rest) (session_file_pattern s)).
    { apply in_session_file_pattern. exists d1, d2, k.
      split; [| exact Hg]. rewrite Hrest, Hs. apply sapp_assoc. }
    rewrite H in Hin. destruct Hin.
  - destruct (nil_or_in (session_file_pattern s))
      as [H' | [[g r] Hin]]; [assumption | exfalso].
    assert (Hnl : no_newline g = true)
      by (now apply (session_file_no_newline s g r)).
    apply in_session_file_pattern in Hin.
    destruct Hin as (d1 & d2 & k & Hs & Hg).
    assert (Hin : In (g, first_line r) (session_file_pattern (first_line s))).
    { apply in_session_file_pattern. exists d1, d2, k.
      split; [| exact Hg]. rewrite Hs. now apply first_line_app. }
    rewrite H in Hin. destruct Hin.
Qed.

Lemma session_file_at_newline (s : string) :
  session_file_pattern (String "010" s) = [].
Proof.
  destruct (nil_or_in (session_file_pattern (String "010" s)))
    as [H | [[g r] Hin]]; [assumption | exfalso].
  apply in_session_file_pattern in Hin.
  destruct Hin as (d1 & d2 & k & Hs & -> & _). discriminate.
Qed.

Lemma rename_pattern_first_line (s : string) :
  rename_pattern s = [] <-> rename_pattern (first_line s) = [].
Proof.
  induction s as [|c s IH]; [tauto |].
  cbn [first_line]. destruct (Ascii.eqb_spec c "010"%char) as [-> | Hne].
  - rewrite rename_pattern_cons, session_file_at_newline. simpl. tauto.
  - rewrite !rename_pattern_cons.
    apply Ascii.eqb_neq in Hne. rewrite Hne. simpl.
    split; intros H; apply app_eq_nil in H; destruct H as [H1 H2].
    + apply (session_file_first_line (String c s)) in H1.
      cbn [first_line] in H1. rewrite Hne in H1. rewrite H1.
      now apply IH in H2 as ->.
    + assert (H1' : session_file_pattern (String c s) = []).
      { apply session_file_first_line. cbn [first_line]. now rewrite Hne. }
      rewrite H1'. now apply IH in H2 as ->.
Qed.

(** One step of the substitution. *)
Lemma new_name_unfold (s : string) :
  new_name s
  = match Re.match_end rename_pattern s with
    | Some (g, rest) => g ++ new_name rest
    | None =>
        match s with
        | EmptyString => EmptyString
        | String c s' => String c (new_name s')
        end
    end.
Proof.
  unfold new_name at 1. unfold Re.sub. cbn [Re.sub_fuel].
  destruct (Re.match_end rename_pattern s) as [[g rest]|] eqn:E.
  - f_equal. apply new_name_fuel. apply (rename_pattern_consumes s g rest).
    unfold Re.match_end in E.
    destruct (rename_pattern s) as [|gr l]; [discriminate |].
    injection E as ->. now left.
  - destruct s as [|c s]; reflexivity.
Qed.

Lemma match_end_none {A : Type} (p : Re.t A) (s : string) :
  Re.match_end p s = None <-> p s = [].
Proof.
  unfold Re.match_end. destruct (p s); split; congruence.
Qed.

Lemma new_name_first_line (s : string) :
  rename_pattern s = [] -> first_line (new_name s) = first_line s.
Proof.
  induction s as [|c s IH]; intros H; [reflexivity |].
  rewrite new_name_unfold. apply match_end_none in H as Hm. rewrite Hm.
  cbn [first_line]. destruct (Ascii.eqb_spec c "010"%char) as [-> | Hne];
    [reflexivity |].
  f_equal. apply IH.
  rewrite rename_pattern_cons in H. apply Ascii.eqb_neq in Hne.
  rewrite Hne in H. simpl in H. now apply app_eq_nil in H.
Qed.

Lemma new_name_no_match (s : string) :
  rename_pattern s = [] -> rename_pattern (new_name s) = [].
Proof.
  intros H. apply (proj2 (rename_pattern_first_line (new_name s))).
  rewrite (new_name_first_line s H).
  exact (proj1 (rename_pattern_first_line s) H).
Qed.

Lemma rename_pattern_match (s g rest : string) :
  Re.match_end rename_pattern s = Some (g, rest) ->
  In (g, rest) (session_file_pattern (g ++ rest)) /\
  String.length rest < String.length s.
Proof.
  unfold Re.match_end. intros H.
  destruct (rename_pattern s) as [|gr l] eqn:E; [discriminate |].
  injection H as ->.
  assert (Hin : In (g, rest) (rename_pattern s)) by (rewrite E; now left).
  split; [| now apply (rename_pattern_consumes s g rest)].
  unfold rename_pattern in Hin.
  apply in_bind in Hin. destruct Hin as (pre & r1 & _ & Hin).
  apply in_bind in Hin. destruct Hin as (g1 & r2 & Hg & Hin).
  apply in_ret in Hin. destruct Hin as [Hg1 Hr2]. subst g1 r2.
  destruct (session_file_pattern_text r1 g rest Hg) as [-> _]. exact Hg.
Qed.

Lemma rename_pattern_head (s g r x : string) :
  In (g, r) (session_file_pattern s) ->
  Re.match_end rename_pattern (g ++ x) = Some (g, x).
Proof.
  intros H. pose proof (session_file_head s g r x H) as Hh.
  destruct (session_file_pattern_text s g r H) as [_ Hne].
  destruct g as [|c g]; [congruence |].
  cbn [String.append] in *. unfold Re.match_end in *.
  rewrite rename_pattern_cons.
  destruct (session_file_pattern (String c (g ++ x))); [discriminate | exact Hh].
Qed.

Lemma new_name_twice_below (n : nat) (s : string) :
  String.length s < n -> new_name (new_name s) = new_name s.
Proof.
  revert s. induction n as [|n IH]; intros s Hn; [lia |].
  rewrite (new_name_unfold s).
  destruct (Re.match_end rename_pattern s) as [[g rest]|] eqn:E.
  - destruct (rename_pattern_match s g rest E) as [Hin Hlen].
    rewrite new_name_unfold.
    rewrite (rename_pattern_head _ g rest (new_name rest) Hin).
    f_equal. apply IH. lia.
  - destruct s as [|c s]; [reflexivity |].
    assert (Hnone : Re.match_end rename_pattern (new_name (String c s)) = None).
    { apply match_end_none, new_name_no_match. now apply match_end_none. }
    rewrite (new_name_unfold (String c s)), E in Hnone.
    rewrite new_name_unfold, Hnone. f_equal. apply IH. simpl in Hn. lia.
Qed.

Lemma new_name_twice (filename : string) :
  new_name (new_name filename) = new_name filename.
Proof.
  apply (new_name_twice_below (S (String.length filename))). lia.
Qed.

Lemma target_twice (filename : string) :
  target (target filename) = target filename.
Proof.
  assert (Hfix : forall m, new_name m = m -> target m = m).
  { intros m Hm. unfold target. rewrite Hm. now destruct (_ && _)%bool. }
  destruct (Str.endswith filename ".pdf" && Str.contains filename "Ses")%bool eqn:Hg.
  - replace (target filename) with (new_name filename)
      by (unfold target; now rewrite Hg).
    apply Hfix, new_name_twice.
  - replace (target filename) with filename
      by (unfold target; now rewrite Hg).
    unfold target. now rewrite Hg.
Qed.

(** X13.  When the pattern of the rename utility matches from the start
    of a filename (a match of [Ses<digits>.<digits>(sum|prob).pdf] has no
    line break before it), the new name starts with that match, and the
    pattern of the merger matches the new name, with the digits as session
    id and "sum" or "prob" as kind; so it does the name that the loop
    gives the file, when the filename also ends in ".pdf". *)
Theorem renamed_file_recognised (filename g rest : string) :
  Re.match_end rename_pattern filename = Some (g, rest) ->
  new_name filename = g ++ new_name rest /\
  recognised (new_name filename) = true /\
  (exists sid kind,
      Re.match_ pattern (new_name filename) = Some (sid, kind) /\
      (kind = "sum" \/ kind = "prob") /\
      g = "Ses" ++ sid ++ kind ++ ".pdf") /\
  (Str.endswith filename ".pdf" = true -> Str.contains filename "Ses" = true ->
   recognised (target filename) = true).
Proof.
  intros H.
  assert (Hn : new_name filename = g ++ new_name rest)
    by (now rewrite new_name_unfold, H).
  destruct (rename_pattern_match filename g rest H) as [Hin _].
  pose proof (session_file_head _ g rest (new_name rest) Hin) as Hh.
  rewrite <- Hn in Hh.
  destruct (session_file_recognised _ g (new_name rest) Hh) as [Hr Hex].
  repeat split; try assumption.
  intros He Hc. unfold target. now rewrite He, Hc.
Qed.

(** X14.  The new name of a new name is that name itself: a name that the
    utility has given is one that it leaves alone, whether or not it still
    ends in ".pdf" and contains "Ses". *)
Theorem new_name_idempotent (filename : string) :
  new_name (new_name filename) = new_name filename /\
  target (target filename) = target filename /\
  (forall (file : Type) (d : Dict.t file),
      rename_one (target filename) d = Ok d).
Proof.
  split; [apply new_name_twice |]. split; [apply target_twice |].
  intros file d. unfold rename_one.
  pose proof (target_twice filename) as H. unfold target at 1 in H.
  destruct (Str.endswith (target filename) ".pdf"
            && Str.contains (target filename) "Ses")%bool; [| reflexivity].
  now rewrite H, String.eqb_refl.
Qed.

End SecondRun.

Section SecondRunOfTheLoop.

Variable file : Type.
Implicit Types (d st : Dict.t file) (x k : string).

Lemma rename_one_final x st : target x = x -> rename_one x st = Ok st.
Proof.
  unfold target, rename_one.
  destruct (Str.endswith x ".pdf" && Str.contains x "Ses")%bool; [| reflexivity].
  intros ->. now rewrite String.eqb_refl.
Qed.

Lemma for_each_final (l : list string) st :
  (forall k, In k l -> target k = k) -> for_each rename_one l st = Ok st.
Proof.
  induction l as [|x l IH]; intros H; simpl; [reflexivity |].
  rewrite rename_one_final by (apply H; now left).
  apply IH. intros k Hk. apply H. now right.
Qed.

(** After its turn a name is in the directory only if it is final. *)
Lemma rename_one_keys x st st' k :
  rename_one x st = Ok st' -> In k (Dict.keys st') ->
  target k = k \/ (k <> x /\ In k (Dict.keys st)).
Proof.
  unfold rename_one.
  destruct (Str.endswith x ".pdf" && Str.contains x "Ses")%bool eqn:Hg.
  - destruct (String.eqb_spec (new_name x) x) as [Heq | Hne]; simpl.
    + intros H Hk. injection H as <-.
      destruct (String.eqb_spec k x) as [-> | Hkx]; [left | now right].
      unfold target. now rewrite Hg.
    + unfold os_rename. destruct (Dict.get st x) as [f|]; [| discriminate].
      intros H Hk. injection H as <-.
      apply in_keys_set in Hk. destruct Hk as [-> | Hk].
      * left. replace (new_name x) with (target x)
          by (unfold target; now rewrite Hg).
        apply target_twice.
      * right. rewrite keys_remove in Hk. apply filter_In in Hk.
        destruct Hk as [Hk Hkx]. apply negb_true_iff, String.eqb_neq in Hkx.
        now split.
  - intros H Hk. injection H as <-.
    destruct (String.eqb_spec k x) as [-> | Hkx]; [left | now right].
    unfold target. now rewrite Hg.
Qed.

Lemma for_each_keys (l : list string) st st' :
  for_each rename_one l st = Ok st' ->
  forall k, In k (Dict.keys st') ->
            target k = k \/ (~ In k l /\ In k (Dict.keys st)).
Proof.
  revert st. induction l as [|x l IH]; intros st H k Hk; simpl in H.
  - injection H as <-. right. now split.
  - destruct (rename_one x st) as [st1|] eqn:E; [| discriminate].
    destruct (IH st1 H k Hk) as [Hf | [Hnot Hin]]; [now left |].
    destruct (rename_one_keys x st st1 k E Hin) as [Hf | [Hne Hin']];
      [now left | right].
    split; [| assumption]. intros [Heq | Hl]; [congruence | contradiction].
Qed.

(** X15.  After a run that completes every name of the directory is final:
    a second run renames nothing and leaves the directory as it is. *)
Theorem second_run_renames_nothing d d' :
  rename_all d = Ok d' ->
  (forall k, In k (Dict.keys d') -> target k = k) /\
  rename_all d' = Ok d'.
Proof.
  unfold rename_all. intros H.
  assert (Hfinal : forall k, In k (Dict.keys d') -> target k = k).
  { intros k Hk.
    destruct (for_each_keys (Dict.keys d) d d' H k Hk) as [Hf | [Hnot Hin]];
      [assumption | contradiction]. }
  split; [exact Hfinal | now apply for_each_final].
Qed.

End SecondRunOfTheLoop.

(** ** The further properties on the sample inputs *)

(** X5 on the two spellings "1.1" and "01.1" of one key. *)
Lemma equal_keys_keep_insertion_order_witness :
  session_order (sessions More.listdir) = Ok ["1.1"; "01.1"] /\
  filter (has_key [1; 1]%Z) ["1.1"; "01.1"]
  = filter (has_key [1; 1]%Z) (Dict.keys (sessions More.listdir)).
Proof.
  split; [reflexivity |].
  apply (equal_keys_keep_insertion_order (sessions More.listdir)
           ["1.1"; "01.1"] [1; 1]%Z).
  reflexivity.
Defined.

(** X7 on the run of the sample. *)
Lemma sessions_start_on_fresh_leaf_witness :
  merge_sessions Sample.width Sample.height Sample.A4 Sample.listdir
    Sample.PdfReader = Ok Sample.pages_1_1 /\
  exists order cs,
    session_order (sessions Sample.listdir) = Ok order /\
    Forall2
      (fun ses c =>
         session_pages Sample.width Sample.height Sample.A4 Sample.PdfReader
           (sessions Sample.listdir) ses = Ok c)
      order cs /\
    Sample.pages_1_1 = concat cs /\
    Nat.even (length Sample.pages_1_1) = true /\
    forall cs1 cs2,
      cs = cs1 ++ cs2 -> Nat.even (length (concat cs1)) = true.
Proof.
  split; [reflexivity |].
  apply (sessions_start_on_fresh_leaf Sample.page Sample.dim
           Sample.width Sample.height Sample.A4 Sample.listdir Sample.PdfReader).
  reflexivity.
Defined.

(** X8 on the run of the sample. *)
Lemma output_pages_from_sources_witness :
  merge_sessions Sample.width Sample.height Sample.A4 Sample.listdir
    Sample.PdfReader = Ok Sample.pages_1_1 /\
  Forall (from_sources Sample.width Sample.height Sample.PdfReader
            (sessions Sample.listdir))
    Sample.pages_1_1.
Proof.
  split; [reflexivity |].
  apply (output_pages_from_sources Sample.page Sample.dim
           Sample.width Sample.height Sample.A4 Sample.listdir Sample.PdfReader).
  reflexivity.
Defined.

(** X9 on a summary of four pages: three pages are copied, and a filler
    follows. *)
Lemma summary_only_session_witness :
  Dict.get More.entry_sum_only "sum" = Some "lecturenotes/Ses1.1sum.pdf" /\
  Sample.PdfReader "lecturenotes/Ses1.1sum.pdf"
  = Some (Sample.doc "lecturenotes/Ses1.1sum.pdf" 4) /\
  Dict.get More.entry_sum_only "prob" = None /\
  process_session Sample.width Sample.height Sample.A4 Sample.PdfReader
    More.entry_sum_only []
  = Ok ([] ++ map Copied (removelast (Sample.doc "lecturenotes/Ses1.1sum.pdf" 4))
        ++ match Sample.doc "lecturenotes/Ses1.1sum.pdf" 4 with
           | p0 :: _ =>
               if Nat.even (length (Sample.doc "lecturenotes/Ses1.1sum.pdf" 4))
               then [Filler (Sample.width p0) (Sample.height p0)]
               else []
           | [] => []
           end).
Proof.
  repeat (split; [reflexivity |]).
  apply (summary_only_session Sample.page Sample.dim
           Sample.width Sample.height Sample.A4 Sample.PdfReader
           More.entry_sum_only [] "lecturenotes/Ses1.1sum.pdf");
    reflexivity.
Defined.

(** X10 on a name that contains "Ses" and ends in ".pdf". *)
Lemma name_without_match_kept_witness :
  Spec.strip_to_first_match "Session.pdf" = None /\
  new_name "Session.pdf" = "Session.pdf" /\
  rename_one "Session.pdf" More.downloads = Ok More.downloads.
Proof.
  split; [reflexivity |].
  apply (name_without_match_kept nat "Session.pdf" More.downloads).
  reflexivity.
Defined.

(** X11 on a downloaded file. *)
Lemma name_with_one_match_witness :
  no_newline "MIT18_06SCF11_" = true /\
  Spec.strip_to_first_match ("MIT18_06SCF11_" ++ "Ses1.1sum.pdf")
  = Some "Ses1.1sum.pdf" /\
  Re.match_end session_file_pattern "Ses1.1sum.pdf" = Some ("Ses1.1sum.pdf", "") /\
  Spec.strip_to_first_match "" = None /\
  new_name ("MIT18_06SCF11_" ++ "Ses1.1sum.pdf") = "Ses1.1sum.pdf" /\
  Spec.stripped ("MIT18_06SCF11_" ++ "Ses1.1sum.pdf") = "Ses1.1sum.pdf".
Proof.
  repeat (split; [reflexivity |]).
  apply (name_with_one_match "MIT18_06SCF11_" "Ses1.1sum.pdf" "Ses1.1sum.pdf" "");
    reflexivity.
Defined.

(** X12 on a directory of four files. *)
Lemma rename_all_without_collision_witness :
  NoDup (Dict.keys More.downloads) /\
  NoDup (map target (Dict.keys More.downloads)) /\
  (forall n, In n (Dict.keys More.downloads) -> target n <> n ->
             ~ In (target n) (Dict.keys More.downloads)) /\
  exists d',
    rename_all More.downloads = Ok d' /\
    Permutation d' (map renamed More.downloads) /\
    forall n f, In (n, f) More.downloads -> Dict.get d' (target n) = Some f.
Proof.
  assert (H1 : NoDup (Dict.keys More.downloads)).
  { repeat constructor; simpl; intros H;
      repeat (destruct H as [H | H]; try discriminate H); assumption. }
  assert (H2 : NoDup (map target (Dict.keys More.downloads))).
  { vm_compute. repeat constructor; simpl; intros H;
      repeat (destruct H as [H | H]; try discriminate H); assumption. }
  assert (H3 : forall n, In n (Dict.keys More.downloads) -> target n <> n ->
                         ~ In (target n) (Dict.keys More.downloads)).
  { intros n Hn Hne Hin. simpl in Hn.
    repeat (destruct Hn as [<- | Hn]; [ | ]); try destruct Hn;
      vm_compute in Hin;
      repeat (destruct Hin as [Hin | Hin]; try discriminate Hin);
      try assumption; try (apply Hne; reflexivity). }
  split; [exact H1 |]. split; [exact H2 |]. split; [exact H3 |].
  exact (rename_all_without_collision nat More.downloads H1 H2 H3).
Defined.

(** X13 on a downloaded file. *)
Lemma renamed_file_recognised_witness :
  Re.match_end rename_pattern "MIT18_06SCF11_Ses1.1sum.pdf"
  = Some ("Ses1.1sum.pdf", "") /\
  new_name "MIT18_06SCF11_Ses1.1sum.pdf" = ("Ses1.1sum.pdf" ++ new_name "")%string /\
  recognised (new_name "MIT18_06SCF11_Ses1.1sum.pdf") = true /\
  (exists sid kind,
      Re.match_ pattern (new_name "MIT18_06SCF11_Ses1.1sum.pdf") = Some (sid, kind) /\
      (kind = "sum" \/ kind = "prob") /\
      "Ses1.1sum.pdf" = ("Ses" ++ sid ++ kind ++ ".pdf")%string) /\
  (Str.endswith "MIT18_06SCF11_Ses1.1sum.pdf" ".pdf" = true ->
   Str.contains "MIT18_06SCF11_Ses1.1sum.pdf" "Ses" = true ->
   recognised (target "MIT18_06SCF11_Ses1.1sum.pdf") = true).
Proof.
  split; [reflexivity |].
  apply (renamed_file_recognised "MIT18_06SCF11_Ses1.1sum.pdf" "Ses1.1sum.pdf" "").
  reflexivity.
Defined.

(** A name whose only match lies behind a line break: the rename pattern
    does not match from its start, the new name keeps the first line, and
    the pattern of the merger does not match it. *)
Example name_behind_line_break :
  Re.match_end rename_pattern (String "a" (String "010" "b_Ses1.1sum.pdf")) = None /\
  new_name (String "a" (String "010" "b_Ses1.1sum.pdf"))
  = String "a" (String "010" "Ses1.1sum.pdf") /\
  recognised (new_name (String "a" (String "010" "b_Ses1.1sum.pdf"))) = false.
Proof. repeat split; reflexivity. Qed.

(** X15 on a directory of four files. *)
Lemma second_run_renames_nothing_witness :
  rename_all More.downloads = Ok More.renamed_downloads /\
  (forall k, In k (Dict.keys More.renamed_downloads) -> target k = k) /\
  rename_all More.renamed_downloads = Ok More.renamed_downloads.
Proof.
  split; [reflexivity |].
  apply (second_run_renames_nothing nat More.downloads More.renamed_downloads).
  reflexivity.
Defined.

(** The combined mapping of the second sample: the later spelling of a
    summary replaces the earlier one, the summary in [problemsets] replaces
    both, and "01.1" is a session of its own. *)
Example sample_precedence :
  sessions More.listdir
  = [("1.1", [("sum", "problemsets/Ses1.1sum.pdf");
              ("prob", "problemsets/Ses1.1prob.pdf")]);
     ("01.1", [("sum", "lecturenotes/Ses01.1sum.pdf")])] /\
  lookup (collect_files_from More.listdir "lecturenotes") "1.1" "sum"
  = Some "lecturenotes/SES1.1SUM.PDF".
Proof. split; reflexivity. Qed.
